(** * The device interface layer of emu/devintrf.c

    A shallow embedding of the device registry (an intrusive, doubly
    chained list of [device_config] records living in malloc'ed
    storage), of the lifecycle functions that start and stop the devices
    of a machine, of the tag helpers and of the temporary string pool,
    followed by the properties proved about them.

    Conventions.
    - A pointer to a record is an [option loc]; [None] is NULL.  Records
      live in a finite map from addresses to records, so two pointers
      to one record see the same updates.
    - A C [int] is a [Z] whose arithmetic wraps ([int_add]); the cast to
      UINT32 is [to_UINT32].
    - A function that can stop the process returns a [result]:
      [Fatal] is a call of fatalerror, [Fault] a dereference of a pointer
      that is not live, [OutOfFuel] a loop that was cut off by the bound
      the embedding puts on it.  Functions that write memory return the
      memory they leave behind beside the result, also when they stop.
    - assert is active in debug builds only; [MAME_DEBUG] tells the
      build. *)

From stdpp Require Import gmap strings list fin_maps.
From Stdlib Require Import ZArith Lia Ascii.

Local Open Scope Z_scope.

(** ** Machine integers *)

Definition INT_MAX : Z := 2 ^ 31 - 1.
Definition INT_MIN : Z := - 2 ^ 31.

(** Two's complement wrap-around of a 32 bit [int]. *)
Definition wrap_int (z : Z) : Z := (z + 2 ^ 31) mod 2 ^ 32 - 2 ^ 31.

Definition int_add (a b : Z) : Z := wrap_int (a + b).
Definition int_sub (a b : Z) : Z := wrap_int (a - b).

(** The cast [(UINT32)x] of a 64 bit value. *)
Definition to_UINT32 (z : Z) : Z := z mod 2 ^ 32.

(** C's [%] truncates towards zero. *)
Definition int_rem (a b : Z) : Z := Z.rem a b.

(** ** Pointers, types and records *)

Definition loc := nat.
Abbreviation ptr := (option loc).

(** A device type is the address of the type's query function; 0 is the
    null function pointer. *)
Definition device_type := nat.
Definition NULL_TYPE : device_type := 0%nat.

Definition device_class := Z.

Inductive device_start_err : Set :=
| DEVICE_START_OK
| DEVICE_START_MISSING_DEPENDENCIES.

(** A machine word that malloc left as it found it is [Undef]. *)
Inductive word (A : Type) : Type :=
| Undef
| Val (a : A).
Arguments Undef {A}.
Arguments Val {A} a.

(** [struct _device_config], with the fields devintrf.c reads and
    writes.  The inline configuration is the block of [configlen] bytes
    behind the tag; [inline_config] is null when the type asks for
    none. *)
Record device_config : Type := mk_device_config {
  next : ptr;
  typenext : ptr;
  type : device_type;
  class : device_class;
  static_config : ptr;
  inline_config : option (list Z);
  started : bool;
  token : ptr;
  tokenbytes : word Z;
  machine : ptr;
  region : ptr;
  regionbytes : Z;
  set_info : nat;
  tag : string
}.

Abbreviation heap := (gmap loc device_config).

Definition set_next (d : device_config) (v : ptr) : device_config :=
  mk_device_config v (typenext d) (type d) (class d) (static_config d)
    (inline_config d) (started d) (token d) (tokenbytes d) (machine d)
    (region d) (regionbytes d) (set_info d) (tag d).

Definition set_typenext (d : device_config) (v : ptr) : device_config :=
  mk_device_config (next d) v (type d) (class d) (static_config d)
    (inline_config d) (started d) (token d) (tokenbytes d) (machine d)
    (region d) (regionbytes d) (set_info d) (tag d).

Definition set_started (d : device_config) (v : bool) : device_config :=
  mk_device_config (next d) (typenext d) (type d) (class d) (static_config d)
    (inline_config d) v (token d) (tokenbytes d) (machine d)
    (region d) (regionbytes d) (set_info d) (tag d).

Definition set_machine (d : device_config) (v : ptr) : device_config :=
  mk_device_config (next d) (typenext d) (type d) (class d) (static_config d)
    (inline_config d) (started d) (token d) (tokenbytes d) v
    (region d) (regionbytes d) (set_info d) (tag d).

(** The five runtime fields, written together by the first loop of
    [device_list_start] and by [device_list_stop]. *)
Definition set_runtime (d : device_config) (tok : ptr) (tb : Z) (m : ptr)
    (r : ptr) (rb : Z) : device_config :=
  mk_device_config (next d) (typenext d) (type d) (class d) (static_config d)
    (inline_config d) (started d) tok (Val tb) m r rb (set_info d) (tag d).

(** ** Results *)

Inductive fatal : Type :=
| Duplicate_device (ty : device_type) (tg : string)
| Nonexistent_device (ty : device_type) (tg : string)
| Zero_token_length (dev : loc)
| Circular_dependency (unstarted total : Z)
| Assertion_failed.

Inductive result (A : Type) : Type :=
| Ret (a : A)
| Fatal (e : fatal)
| Fault
| OutOfFuel.
Arguments Ret {A} a.
Arguments Fatal {A} e.
Arguments Fault {A}.
Arguments OutOfFuel {A}.

Definition bind {A B : Type} (m : result A) (k : A -> result B) : result B :=
  match m with
  | Ret a => k a
  | Fatal e => Fatal e
  | Fault => Fault
  | OutOfFuel => OutOfFuel
  end.

Notation "'do' x <- m ; k" := (bind m (fun x => k))
  (at level 10, x name, m at level 100, k at level 200).

Definition is_Ret {A : Type} (r : result A) : Prop :=
  match r with Ret _ => True | _ => False end.

(** ** Tag helpers *)

(** Modelled from the spec: astring.c is missing.  The three calls the
    tag helpers make are read as the spec words their results: copy a C
    string into the destination, append a C string to it, and copy the
    first [count] characters of a C string into it. *)
Definition astring_cpyc (dest src : string) : string := src.
Definition astring_catc (dest src : string) : string := String.append dest src.
Definition astring_cpych (dest src : string) (count : nat) : string :=
  String.substring 0 count src.

(** [strrchr(s, c)] for a character that is not the terminator: the
    offset of the last [c] in [s], or nothing. *)
Fixpoint strrchr (s : string) (c : Ascii.ascii) : option nat :=
  match s with
  | EmptyString => None
  | String a s' =>
    match strrchr s' c with
    | Some i => Some (S i)
    | None => if Ascii.eqb a c then Some O else None
    end
  end.

(** [device_build_tag(dest, device, tag)]; [device] is read only, so the
    function gets the record it points to, or nothing for NULL.  The
    result is what [dest] holds at the end. *)
Definition device_build_tag (dest : string) (device : option device_config)
    (tg : string) : string :=
  match device with
  | Some d =>
    let dest1 := astring_cpyc dest (tag d) in
    let dest2 := astring_catc dest1 ":" in
    astring_catc dest2 tg
  | None => astring_cpyc dest tg
  end.

Definition device_inherit_tag (dest : string) (sourcetag tg : string) : string :=
  match strrchr sourcetag ":"%char with
  | Some divider =>
    let dest1 := astring_cpych dest sourcetag (divider + 1) in
    astring_catc dest1 tg
  | None => astring_cpyc dest tg
  end.

(** ** The temporary string pool *)

Definition TEMP_STRING_POOL_ENTRIES : Z := 16.
Definition MAX_STRING_LENGTH : Z := 256.

(** [temp_string_pool] (rows of characters) and
    [temp_string_pool_index]. *)
Record string_pool : Type := mk_string_pool {
  temp_string_pool : list (list Z);
  temp_string_pool_index : Z
}.

(** Static storage starts out as zeros. *)
Definition initial_pool : string_pool :=
  mk_string_pool
    (replicate (Z.to_nat TEMP_STRING_POOL_ENTRIES)
       (replicate (Z.to_nat MAX_STRING_LENGTH) 0))
    0.

(** The C string a row holds: its characters before the first 0. *)
Fixpoint c_string (row : list Z) : list Z :=
  match row with
  | [] => []
  | c :: row' => if c =? 0 then [] else c :: c_string row'
  end.

(** [get_temp_string_buffer()]: the row the returned pointer points
    into, and the pool after the call.  A negative row number is outside
    the array. *)
Definition get_temp_string_buffer (sp : string_pool) : result nat * string_pool :=
  let i := temp_string_pool_index sp in
  let row := int_rem i TEMP_STRING_POOL_ENTRIES in
  let sp1 := mk_string_pool (temp_string_pool sp) (int_add i 1) in
  if row <? 0 then (Fault, sp1)
  else
    match temp_string_pool sp !! Z.to_nat row with
    | None => (Fault, sp1)
    | Some buf =>
      (Ret (Z.to_nat row),
       mk_string_pool (<[Z.to_nat row := <[O := 0]> buf]> (temp_string_pool sp))
         (int_add i 1))
    end.

(** [n] calls of [get_temp_string_buffer] in a row, with the rows they
    returned in the order of the calls. *)
Fixpoint acquire (n : nat) (sp : string_pool) : result (list nat) * string_pool :=
  match n with
  | O => (Ret [], sp)
  | S n' =>
    match get_temp_string_buffer sp with
    | (Ret r, sp1) =>
      match acquire n' sp1 with
      | (Ret rs, sp2) => (Ret (r :: rs), sp2)
      | (Fatal e, sp2) => (Fatal e, sp2)
      | (Fault, sp2) => (Fault, sp2)
      | (OutOfFuel, sp2) => (OutOfFuel, sp2)
      end
    | (Fatal e, sp1) => (Fatal e, sp1)
    | (Fault, sp1) => (Fault, sp1)
    | (OutOfFuel, sp1) => (OutOfFuel, sp1)
    end
  end.

(** ** What the build, the device types and the host provide

    devintrf.h, the device types and the host are not part of this
    file's sources; the code is read against any choice of them. *)

(** What the query function of a type answers to the state identifiers
    devintrf.c asks for.  A start function gets [const device_config *]:
    it can read the whole registry through the device and writes none of
    its records. *)
Record device_info : Type := mk_device_info {
  DEVINFO_INT_INLINE_CONFIG_BYTES : Z;
  DEVINFO_INT_CLASS : Z;
  DEVINFO_INT_TOKEN_BYTES : Z;
  DEVINFO_FCT_SET_INFO : nat;
  DEVINFO_FCT_START : option (ptr -> heap -> loc -> device_start_err);
  DEVINFO_FCT_STOP : option nat;
  DEVINFO_FCT_RESET : option nat
}.

Class platform : Type := mk_platform {
  (** whether assert is compiled in *)
  MAME_DEBUG : bool;
  (** the reserved type that matches every device in a query *)
  DEVICE_TYPE_WILDCARD : device_type;
  (** the query function behind a device type *)
  device_get_info : device_type -> device_info;
  (** malloc: an address that is not live *)
  malloc_or_die : gset loc -> loc;
  malloc_or_die_fresh : forall live : gset loc, malloc_or_die live ∉ live;
  (** the host's region lookup by tag *)
  memory_region : string -> ptr;
  memory_region_length : string -> Z
}.

Section Devintrf.

Context {P : platform}.

Definition assert (b : bool) : result unit :=
  if MAME_DEBUG && negb b then Fatal Assertion_failed else Ret tt.

(** Dereference of a record pointer that is known not to be null. *)
Definition deref (h : heap) (p : loc) : result device_config :=
  match h !! p with
  | Some d => Ret d
  | None => Fault
  end.

(** A call through a device type, [( *type)(device, state, &info)],
    reading the answer [state] out of [info]; a call through the null
    function pointer is a fault. *)
Definition call_type {A : Type} (ty : device_type) (state : device_info -> A)
    : result A :=
  if decide (ty = NULL_TYPE) then Fault else Ret (state (device_get_info ty)).

(** [devtype_get_info_int] and [devtype_get_info_fct]: the asserts of
    the getter, then the call with no device. *)
Definition devtype_get_info_int (ty : device_type) (state : device_info -> Z)
    : result Z :=
  do _ <- assert (bool_decide (ty <> NULL_TYPE));
  call_type ty state.

Definition devtype_get_info_fct {A : Type} (ty : device_type)
    (state : device_info -> A) : result A :=
  do _ <- assert (bool_decide (ty <> NULL_TYPE));
  call_type ty state.

(** [device_get_info_fct(device, state)] for a device that is not null:
    the asserts of the getter, then the call with the device. *)
Definition device_get_info_fct {A : Type} (d : device_config)
    (state : device_info -> A) : result A :=
  do _ <- assert (bool_decide (type d <> NULL_TYPE));
  call_type (type d) state.

(** Chains are walked with a bound: a chain that ends in NULL visits
    every record once, so it is not longer than the heap. *)
Definition fuel_of (h : heap) : nat := S (size h).

(** *** Inline functions *)

Definition device_matches_type (device : device_config) (ty : device_type) : bool :=
  if decide (ty = DEVICE_TYPE_WILDCARD) then true
  else bool_decide (type device = ty).

(** [strcmp(a, b) == 0] *)
Definition strcmp_eq (a b : string) : bool := bool_decide (a = b).

(** *** Type-based device access *)

Fixpoint device_list_items_loop (fuel : nat) (h : heap) (curdev : ptr)
    (ty : device_type) (count : Z) : result Z :=
  match curdev with
  | None => Ret count
  | Some p =>
    match fuel with
    | O => OutOfFuel
    | S fuel' =>
      do d <- deref h p;
      device_list_items_loop fuel' h (next d) ty
        (int_add count (Z.b2z (device_matches_type d ty)))
    end
  end.

Definition device_list_items (h : heap) (listhead : ptr) (ty : device_type) : result Z :=
  do _ <- assert (bool_decide (ty <> NULL_TYPE));
  device_list_items_loop (fuel_of h) h listhead ty 0.

Fixpoint device_list_first_loop (fuel : nat) (h : heap) (curdev : ptr)
    (ty : device_type) : result ptr :=
  match curdev with
  | None => Ret None
  | Some p =>
    match fuel with
    | O => OutOfFuel
    | S fuel' =>
      do d <- deref h p;
      if device_matches_type d ty then Ret (Some p)
      else device_list_first_loop fuel' h (next d) ty
    end
  end.

Definition device_list_first (h : heap) (listhead : ptr) (ty : device_type) : result ptr :=
  device_list_first_loop (fuel_of h) h listhead ty.

Definition device_list_next (h : heap) (prevdevice : ptr) (ty : device_type) : result ptr :=
  do _ <- assert (bool_decide (prevdevice <> None));
  match prevdevice with
  | None => Fault
  | Some p =>
    do d <- deref h p;
    Ret (if decide (ty = DEVICE_TYPE_WILDCARD) then next d else typenext d)
  end.

Fixpoint device_list_find_by_tag_loop (fuel : nat) (h : heap) (curdev : ptr)
    (ty : device_type) (tg : string) : result ptr :=
  match curdev with
  | None => Ret None
  | Some p =>
    match fuel with
    | O => OutOfFuel
    | S fuel' =>
      do d <- deref h p;
      if device_matches_type d ty && strcmp_eq tg (tag d) then Ret (Some p)
      else device_list_find_by_tag_loop fuel' h (next d) ty tg
    end
  end.

Definition device_list_find_by_tag (h : heap) (listhead : ptr) (ty : device_type)
    (tg : string) : result ptr :=
  device_list_find_by_tag_loop (fuel_of h) h listhead ty tg.

Fixpoint device_list_index_loop (fuel : nat) (h : heap) (curdev : ptr)
    (ty : device_type) (tg : string) (index : Z) : result Z :=
  match curdev with
  | None => Ret (-1)
  | Some p =>
    match fuel with
    | O => OutOfFuel
    | S fuel' =>
      do d <- deref h p;
      if device_matches_type d ty then
        if strcmp_eq tg (tag d) then Ret index
        else device_list_index_loop fuel' h (next d) ty tg (int_add index 1)
      else device_list_index_loop fuel' h (next d) ty tg index
    end
  end.

Definition device_list_index (h : heap) (listhead : ptr) (ty : device_type)
    (tg : string) : result Z :=
  do _ <- assert (bool_decide (ty <> NULL_TYPE));
  device_list_index_loop (fuel_of h) h listhead ty tg 0.

(** [index-- == 0] is evaluated only for a device that matches. *)
Fixpoint device_list_find_by_index_loop (fuel : nat) (h : heap) (curdev : ptr)
    (ty : device_type) (index : Z) : result ptr :=
  match curdev with
  | None => Ret None
  | Some p =>
    match fuel with
    | O => OutOfFuel
    | S fuel' =>
      do d <- deref h p;
      if device_matches_type d ty then
        if index =? 0 then Ret (Some p)
        else device_list_find_by_index_loop fuel' h (next d) ty (int_sub index 1)
      else device_list_find_by_index_loop fuel' h (next d) ty index
    end
  end.

Definition device_list_find_by_index (h : heap) (listhead : ptr) (ty : device_type)
    (index : Z) : result ptr :=
  do _ <- assert (bool_decide (ty <> NULL_TYPE));
  do _ <- assert (0 <=? index);
  device_list_find_by_index_loop (fuel_of h) h listhead ty index.

(** *** Device configuration *)

(** [device_config **devptr]: the variable or the field a pointer to a
    pointer designates.  [device_list_add] and [device_list_remove] walk
    the chains with such pointers: [listheadptr] designates the caller's
    list head, [&typedevice] a local of the function, and
    [&( *devptr)->next], [&( *typedevptr)->typenext] a field of a record. *)
Inductive lvalue : Type :=
| Var_listhead
| Var_typedevice
| Field_next (p : loc)
| Field_typenext (p : loc).

(** The caller's list head and the local [typedevice]. *)
Record vars : Type := mk_vars {
  v_listhead : ptr;
  v_typedevice : ptr
}.

Definition load (vs : vars) (h : heap) (lv : lvalue) : result ptr :=
  match lv with
  | Var_listhead => Ret (v_listhead vs)
  | Var_typedevice => Ret (v_typedevice vs)
  | Field_next p => do d <- deref h p; Ret (next d)
  | Field_typenext p => do d <- deref h p; Ret (typenext d)
  end.

Definition store (vs : vars) (h : heap) (lv : lvalue) (v : ptr) : result (vars * heap) :=
  match lv with
  | Var_listhead => Ret (mk_vars v (v_typedevice vs), h)
  | Var_typedevice => Ret (mk_vars (v_listhead vs) v, h)
  | Field_next p => do d <- deref h p; Ret (vs, <[p := set_next d v]> h)
  | Field_typenext p => do d <- deref h p; Ret (vs, <[p := set_typenext d v]> h)
  end.

(** [for (devptr = listheadptr; *devptr != NULL; devptr = &( *devptr)->next)]
    with the duplicate check of [device_list_add] as its body; the
    result is [devptr] at the exit of the loop. *)
Fixpoint add_find_end (fuel : nat) (vs : vars) (h : heap) (devptr : lvalue)
    (ty : device_type) (tg : string) : result lvalue :=
  do cur <- load vs h devptr;
  match cur with
  | None => Ret devptr
  | Some p =>
    match fuel with
    | O => OutOfFuel
    | S fuel' =>
      do d <- deref h p;
      if bool_decide (ty = type d) && strcmp_eq tg (tag d)
      then Fatal (Duplicate_device ty tg)
      else add_find_end fuel' vs h (Field_next p) ty tg
    end
  end.

(** [for (typedevptr = &typedevice; *typedevptr != NULL;
         typedevptr = &( *typedevptr)->typenext) ;] *)
Fixpoint add_find_type_end (fuel : nat) (vs : vars) (h : heap)
    (typedevptr : lvalue) : result lvalue :=
  do cur <- load vs h typedevptr;
  match cur with
  | None => Ret typedevptr
  | Some p =>
    match fuel with
    | O => OutOfFuel
    | S fuel' => add_find_type_end fuel' vs h (Field_typenext p)
    end
  end.

(** The record [device_list_add] fills in; malloc'ed storage is not
    cleared, and [tokenbytes] is the one field the function leaves as it
    found it. *)
Definition new_device (ty : device_type) (tg : string) (configlen : Z)
    (cls : Z) (setinfo : nat) : device_config :=
  {| next := None;
     typenext := None;
     type := ty;
     class := cls;
     static_config := None;
     inline_config :=
       if configlen =? 0 then None else Some (replicate (Z.to_nat configlen) 0);
     started := false;
     token := None;
     tokenbytes := Undef;
     machine := None;
     region := None;
     regionbytes := 0;
     set_info := setinfo;
     tag := tg |}.

(** The three queries [device_list_add] makes of the type, in the order
    of the calls.  (The last two are made while the fields are filled
    in; they read nothing the function writes.) *)
Definition add_queries (ty : device_type) (tg : string) : result device_config :=
  do configlen <- devtype_get_info_int ty DEVINFO_INT_INLINE_CONFIG_BYTES;
  do cls <- devtype_get_info_int ty DEVINFO_INT_CLASS;
  do setinfo <- devtype_get_info_fct ty DEVINFO_FCT_SET_INFO;
  Ret (new_device ty tg (to_UINT32 configlen) cls setinfo).

(** The two splices at the end of [device_list_add], with the record
    already in the heap. *)
Definition add_link (vs : vars) (h1 : heap) (devptr : lvalue) (device : loc)
    (ty : device_type) : result (vars * heap) :=
  do typedevice <- device_list_first h1 (v_listhead vs) ty;
  let vs1 := mk_vars (v_listhead vs) typedevice in
  do typedevptr <- add_find_type_end (fuel_of h1) vs1 h1 Var_typedevice;
  do st2 <- store vs1 h1 typedevptr (Some device);
  store (fst st2) (snd st2) devptr (Some device).

(** [device_list_add(&listhead, type, tag)]: the result, with the list
    head and the heap the call leaves behind. *)
Definition device_list_add (listhead : ptr) (h : heap) (ty : device_type)
    (tg : string) : result loc * (ptr * heap) :=
  let vs := mk_vars listhead None in
  match (do _ <- assert (bool_decide (ty <> NULL_TYPE));
         do devptr <- add_find_end (fuel_of h) vs h Var_listhead ty tg;
         do nd <- add_queries ty tg;
         Ret (devptr, nd)) with
  | Ret (devptr, nd) =>
    let device := malloc_or_die (dom h) in
    let h1 := <[device := nd]> h in
    match add_link vs h1 devptr device ty with
    | Ret (vs3, h3) => (Ret device, (v_listhead vs3, h3))
    | Fatal e => (Fatal e, (listhead, h1))
    | Fault => (Fault, (listhead, h1))
    | OutOfFuel => (OutOfFuel, (listhead, h1))
    end
  | Fatal e => (Fatal e, (listhead, h))
  | Fault => (Fault, (listhead, h))
  | OutOfFuel => (OutOfFuel, (listhead, h))
  end.

(** The search loop of [device_list_remove]; it leaves by [break] at the
    first record with the type and the tag. *)
Fixpoint remove_find (fuel : nat) (vs : vars) (h : heap) (devptr : lvalue)
    (ty : device_type) (tg : string) : result lvalue :=
  do cur <- load vs h devptr;
  match cur with
  | None => Ret devptr
  | Some p =>
    match fuel with
    | O => OutOfFuel
    | S fuel' =>
      do d <- deref h p;
      if bool_decide (ty = type d) && strcmp_eq tg (tag d)
      then Ret devptr
      else remove_find fuel' vs h (Field_next p) ty tg
    end
  end.

(** [for (typedevptr = &typedevice; *typedevptr != device;
         typedevptr = &( *typedevptr)->typenext) ;]
    Stepping from a null [*typedevptr] reads a field of no record. *)
Fixpoint remove_find_type (fuel : nat) (vs : vars) (h : heap)
    (typedevptr : lvalue) (device : loc) : result lvalue :=
  do cur <- load vs h typedevptr;
  if bool_decide (cur = Some device) then Ret typedevptr
  else
    match cur with
    | None => Fault
    | Some p =>
      match fuel with
      | O => OutOfFuel
      | S fuel' => remove_find_type fuel' vs h (Field_typenext p) device
      end
    end.

(** The two unlinks at the end of [device_list_remove], and free. *)
Definition remove_unlink (vs : vars) (h : heap) (devptr : lvalue) (device : loc)
    (ty : device_type) : result (ptr * heap) :=
  do typedevice <- device_list_first h (v_listhead vs) ty;
  let vs1 := mk_vars (v_listhead vs) typedevice in
  do typedevptr <- remove_find_type (fuel_of h) vs1 h Var_typedevice device;
  do found <- load vs1 h typedevptr;
  do _ <- assert (bool_decide (found = Some device));
  do d <- deref h device;
  do st2 <- store vs1 h typedevptr (typenext d);
  do d' <- deref (snd st2) device;
  do st3 <- store (fst st2) (snd st2) devptr (next d');
  Ret (v_listhead (fst st3), delete device (snd st3)).

Definition device_list_remove (listhead : ptr) (h : heap) (ty : device_type)
    (tg : string) : result unit * (ptr * heap) :=
  let vs := mk_vars listhead None in
  match (do _ <- assert (bool_decide (ty <> NULL_TYPE));
         do devptr <- remove_find (fuel_of h) vs h Var_listhead ty tg;
         do cur <- load vs h devptr;
         match cur with
         | None => Fatal (Nonexistent_device ty tg)
         | Some device => remove_unlink vs h devptr device ty
         end) with
  | Ret st => (Ret tt, st)
  | Fatal e => (Fatal e, (listhead, h))
  | Fault => (Fault, (listhead, h))
  | OutOfFuel => (OutOfFuel, (listhead, h))
  end.

(** The iteration that clients write with the two accessors:
    [for (dev = device_list_first(head, type); dev != NULL;
          dev = device_list_next(dev, type))], collecting the devices it
    visits. *)
Fixpoint traverse_from (fuel : nat) (h : heap) (dev : ptr) (ty : device_type)
    : result (list loc) :=
  match dev with
  | None => Ret []
  | Some p =>
    match fuel with
    | O => OutOfFuel
    | S fuel' =>
      do nxt <- device_list_next h dev ty;
      do rest <- traverse_from fuel' h nxt ty;
      Ret (p :: rest)
    end
  end.

Definition traverse (h : heap) (listhead : ptr) (ty : device_type) : result (list loc) :=
  do dev <- device_list_first h listhead ty;
  traverse_from (fuel_of h) h dev ty.

(** *** Live device management *)

(** The callbacks [device_list_start] hands to the host. *)
Inductive callback : Set :=
| Cb_device_list_reset
| Cb_device_list_stop.

(** What a call leaves visible outside the registry: a call of a
    device's stop function, and a call of free on a token. *)
Inductive event : Type :=
| Ev_stop (dev : loc)
| Ev_free (tok : loc).

(** The running machine: its own address (devices point back to it),
    [machine->config->devicelist], the heap of device records, the live
    token blocks with their bytes, the callbacks registered with the
    host and the events so far. *)
Record running_machine : Type := mk_running_machine {
  machine_addr : loc;
  devicelist : ptr;
  devices : heap;
  tokens : gmap loc (list Z);
  reset_callbacks : list callback;
  exit_callbacks : list callback;
  events : list event
}.

Definition with_devices (s : running_machine) (h : heap) : running_machine :=
  mk_running_machine (machine_addr s) (devicelist s) h (tokens s)
    (reset_callbacks s) (exit_callbacks s) (events s).

Definition with_tokens (s : running_machine) (t : gmap loc (list Z)) : running_machine :=
  mk_running_machine (machine_addr s) (devicelist s) (devices s) t
    (reset_callbacks s) (exit_callbacks s) (events s).

Definition with_event (s : running_machine) (e : event) : running_machine :=
  mk_running_machine (machine_addr s) (devicelist s) (devices s) (tokens s)
    (reset_callbacks s) (exit_callbacks s) (events s ++ [e]).

Definition add_reset_callback (s : running_machine) (c : callback) : running_machine :=
  mk_running_machine (machine_addr s) (devicelist s) (devices s) (tokens s)
    (reset_callbacks s ++ [c]) (exit_callbacks s) (events s).

Definition add_exit_callback (s : running_machine) (c : callback) : running_machine :=
  mk_running_machine (machine_addr s) (devicelist s) (devices s) (tokens s)
    (reset_callbacks s) (exit_callbacks s ++ [c]) (events s).

Fixpoint attach_loop (fuel : nat) (s : running_machine) (device : ptr)
    : result unit * running_machine :=
  match device with
  | None => (Ret tt, s)
  | Some p =>
    match fuel with
    | O => (OutOfFuel, s)
    | S fuel' =>
      match devices s !! p with
      | None => (Fault, s)
      | Some d =>
        attach_loop fuel'
          (with_devices s (<[p := set_machine d (Some (machine_addr s))]> (devices s)))
          (next d)
      end
    end
  end.

Definition device_list_attach_machine (s : running_machine) : result unit * running_machine :=
  attach_loop (fuel_of (devices s)) s (devicelist s).

(** The asserts at the head of the first loop of [device_list_start]. *)
Definition start_asserts (s : running_machine) (d : device_config) : result unit :=
  do _ <- assert (negb (started d));
  do _ <- assert (bool_decide (machine d = Some (machine_addr s)));
  do _ <- assert (bool_decide (token d = None));
  assert (bool_decide (type d <> NULL_TYPE)).

(** The body of the first loop of [device_list_start]: the asserts,
    the count, the token and the other runtime fields of one device. *)
Definition alloc_step (s : running_machine) (p : loc) (d : device_config)
    (devcount : Z) : result Z * running_machine :=
  match (do _ <- start_asserts s d;
         call_type (type d) DEVINFO_INT_TOKEN_BYTES) with
  | Ret info_i =>
    let tb := to_UINT32 info_i in
    if tb =? 0 then (Fatal (Zero_token_length p), s)
    else
      let tok := malloc_or_die (dom (tokens s)) in
      let s1 := with_tokens s (<[tok := replicate (Z.to_nat tb) 0]> (tokens s)) in
      let d' := set_runtime d (Some tok) tb (Some (machine_addr s))
                  (memory_region (tag d)) (memory_region_length (tag d)) in
      (Ret (int_add devcount 1), with_devices s1 (<[p := d']> (devices s1)))
  | Fatal e => (Fatal e, s)
  | Fault => (Fault, s)
  | OutOfFuel => (OutOfFuel, s)
  end.

(** The first loop of [device_list_start].  No body of a lifecycle loop
    writes a [next] field, so [device->next] after the body is the one
    before it. *)
Fixpoint start_alloc_loop (fuel : nat) (s : running_machine) (device : ptr)
    (devcount : Z) : result Z * running_machine :=
  match device with
  | None => (Ret devcount, s)
  | Some p =>
    match fuel with
    | O => (OutOfFuel, s)
    | S fuel' =>
      match devices s !! p with
      | None => (Fault, s)
      | Some d =>
        match alloc_step s p d devcount with
        | (Ret devcount', s') => start_alloc_loop fuel' s' (next d) devcount'
        | (Fatal e, s') => (Fatal e, s')
        | (Fault, s') => (Fault, s')
        | (OutOfFuel, s') => (OutOfFuel, s')
        end
      end
    end
  end.

(** The body of the inner loop of [device_list_start]: the call of the
    start function, the flag and the count.  [ok] is the condition
    [!device->started && ( *start)(device) == DEVICE_START_OK]. *)
Definition sweep_step (s : running_machine) (p : loc) (d : device_config)
    (numstarted : Z) : result Z * running_machine :=
  match (do start <- device_get_info_fct d DEVINFO_FCT_START;
         do _ <- assert (bool_decide (start <> None));
         if started d then Ret false
         else
           match start with
           | None => Fault
           | Some f =>
             Ret (if f (devicelist s) (devices s) p is DEVICE_START_OK
                  then true else false)
           end) with
  | Ret ok =>
    let d' := if ok then set_started d true else d in
    let s' := if ok then with_devices s (<[p := d']> (devices s)) else s in
    (Ret (int_add numstarted (Z.b2z (started d'))), s')
  | Fatal e => (Fatal e, s)
  | Fault => (Fault, s)
  | OutOfFuel => (OutOfFuel, s)
  end.

(** One pass of the inner loop over the list; the result is
    [numstarted]. *)
Fixpoint start_sweep (fuel : nat) (s : running_machine) (device : ptr)
    (numstarted : Z) : result Z * running_machine :=
  match device with
  | None => (Ret numstarted, s)
  | Some p =>
    match fuel with
    | O => (OutOfFuel, s)
    | S fuel' =>
      match devices s !! p with
      | None => (Fault, s)
      | Some d =>
        match sweep_step s p d numstarted with
        | (Ret numstarted', s') => start_sweep fuel' s' (next d) numstarted'
        | (Fatal e, s') => (Fatal e, s')
        | (Fault, s') => (Fault, s')
        | (OutOfFuel, s') => (OutOfFuel, s')
        end
      end
    end
  end.

(** [while (numstarted < devcount)]; beside the result and the machine
    the function counts the sweeps it made. *)
Fixpoint start_while (fuel : nat) (s : running_machine) (numstarted devcount : Z)
    (sweeps : nat) : result unit * running_machine * nat :=
  if numstarted <? devcount then
    match fuel with
    | O => (OutOfFuel, s, sweeps)
    | S fuel' =>
      let prevstarted := numstarted in
      match start_sweep (fuel_of (devices s)) s (devicelist s) 0 with
      | (Ret numstarted', s') =>
        if numstarted' =? prevstarted
        then (Fatal (Circular_dependency (int_sub devcount numstarted') devcount),
              s', S sweeps)
        else start_while fuel' s' numstarted' devcount (S sweeps)
      | (Fatal e, s') => (Fatal e, s', S sweeps)
      | (Fault, s') => (Fault, s', S sweeps)
      | (OutOfFuel, s') => (OutOfFuel, s', S sweeps)
      end
    end
  else (Ret tt, s, sweeps).

(** The two parts of [device_list_start]: the callbacks and the first
    loop, then the sweeps. *)
Definition device_list_start_alloc (s : running_machine) : result Z * running_machine :=
  let s0 := add_exit_callback (add_reset_callback s Cb_device_list_reset)
              Cb_device_list_stop in
  start_alloc_loop (fuel_of (devices s0)) s0 (devicelist s0) 0.

Definition device_list_start_counted (s : running_machine)
    : result unit * running_machine * nat :=
  match device_list_start_alloc s with
  | (Ret devcount, s1) => start_while (fuel_of (devices s1)) s1 0 devcount 0
  | (Fatal e, s1) => (Fatal e, s1, O)
  | (Fault, s1) => (Fault, s1, O)
  | (OutOfFuel, s1) => (OutOfFuel, s1, O)
  end.

Definition device_list_start (s : running_machine) : result unit * running_machine :=
  fst (device_list_start_counted s).

(** [free(p)]: the block must be live. *)
Definition free (s : running_machine) (p : loc) : result running_machine :=
  match tokens s !! p with
  | Some _ => Ret (with_event (with_tokens s (delete p (tokens s))) (Ev_free p))
  | None => Fault
  end.

(** The body of the loop of [device_list_stop]. *)
Definition stop_step (s : running_machine) (p : loc) (d : device_config)
    : result unit * running_machine :=
  match (do stop <- device_get_info_fct d DEVINFO_FCT_STOP;
         do _ <- assert (bool_decide (token d <> None));
         do _ <- assert (bool_decide (type d <> NULL_TYPE));
         Ret stop) with
  | Ret stop =>
    let s1 := if stop is Some _ then with_event s (Ev_stop p) else s in
    match (match token d with
           | Some tok => free s1 tok
           | None => Ret s1
           end) with
    | Ret s2 =>
      (Ret tt,
       with_devices s2 (<[p := set_runtime d None 0 None None 0]> (devices s2)))
    | Fatal e => (Fatal e, s1)
    | Fault => (Fault, s1)
    | OutOfFuel => (OutOfFuel, s1)
    end
  | Fatal e => (Fatal e, s)
  | Fault => (Fault, s)
  | OutOfFuel => (OutOfFuel, s)
  end.

Fixpoint stop_loop (fuel : nat) (s : running_machine) (device : ptr)
    : result unit * running_machine :=
  match device with
  | None => (Ret tt, s)
  | Some p =>
    match fuel with
    | O => (OutOfFuel, s)
    | S fuel' =>
      match devices s !! p with
      | None => (Fault, s)
      | Some d =>
        match stop_step s p d with
        | (Ret _, s') => stop_loop fuel' s' (next d)
        | (Fatal e, s') => (Fatal e, s')
        | (Fault, s') => (Fault, s')
        | (OutOfFuel, s') => (OutOfFuel, s')
        end
      end
    end
  end.

Definition device_list_stop (s : running_machine) : result unit * running_machine :=
  stop_loop (fuel_of (devices s)) s (devicelist s).

(** *** Sequences of registry operations *)

Inductive registry_op : Type :=
| Op_add (ty : device_type) (tg : string)
| Op_remove (ty : device_type) (tg : string).

Definition op_type (o : registry_op) : device_type :=
  match o with
  | Op_add ty _ => ty
  | Op_remove ty _ => ty
  end.

(** The calls of a sequence one after the other on one list head, as
    long as they return. *)
Fixpoint run_ops (ops : list registry_op) (listhead : ptr) (h : heap)
    : result unit * (ptr * heap) :=
  match ops with
  | [] => (Ret tt, (listhead, h))
  | Op_add ty tg :: ops' =>
    match device_list_add listhead h ty tg with
    | (Ret _, (listhead', h')) => run_ops ops' listhead' h'
    | (Fatal e, st) => (Fatal e, st)
    | (Fault, st) => (Fault, st)
    | (OutOfFuel, st) => (OutOfFuel, st)
    end
  | Op_remove ty tg :: ops' =>
    match device_list_remove listhead h ty tg with
    | (Ret _, (listhead', h')) => run_ops ops' listhead' h'
    | (Fatal e, st) => (Fatal e, st)
    | (Fault, st) => (Fault, st)
    | (OutOfFuel, st) => (OutOfFuel, st)
    end
  end.

(** *** The lifecycle loops over a list of addresses

    On a chain that ends in NULL the three loops of the lifecycle visit
    the records of the chain in order.  These functions make the same
    steps over the list of the addresses; the properties of the loops
    are proved on them. *)

Fixpoint alloc_locs (s : running_machine) (locs : list loc) (devcount : Z)
    : result Z * running_machine :=
  match locs with
  | [] => (Ret devcount, s)
  | p :: locs' =>
    match devices s !! p with
    | None => (Fault, s)
    | Some d =>
      match alloc_step s p d devcount with
      | (Ret devcount', s') => alloc_locs s' locs' devcount'
      | (Fatal e, s') => (Fatal e, s')
      | (Fault, s') => (Fault, s')
      | (OutOfFuel, s') => (OutOfFuel, s')
      end
    end
  end.

Fixpoint sweep_locs (s : running_machine) (locs : list loc) (numstarted : Z)
    : result Z * running_machine :=
  match locs with
  | [] => (Ret numstarted, s)
  | p :: locs' =>
    match devices s !! p with
    | None => (Fault, s)
    | Some d =>
      match sweep_step s p d numstarted with
      | (Ret numstarted', s') => sweep_locs s' locs' numstarted'
      | (Fatal e, s') => (Fatal e, s')
      | (Fault, s') => (Fault, s')
      | (OutOfFuel, s') => (OutOfFuel, s')
      end
    end
  end.

Fixpoint stop_locs (s : running_machine) (locs : list loc)
    : result unit * running_machine :=
  match locs with
  | [] => (Ret tt, s)
  | p :: locs' =>
    match devices s !! p with
    | None => (Fault, s)
    | Some d =>
      match stop_step s p d with
      | (Ret _, s') => stop_locs s' locs'
      | (Fatal e, s') => (Fatal e, s')
      | (Fault, s') => (Fault, s')
      | (OutOfFuel, s') => (OutOfFuel, s')
      end
    end
  end.

(** *** Class-based device access *)

Fixpoint device_list_class_items_loop (fuel : nat) (h : heap) (curdev : ptr)
    (cls : device_class) (count : Z) : result Z :=
  match curdev with
  | None => Ret count
  | Some p =>
    match fuel with
    | O => OutOfFuel
    | S fuel' =>
      do d <- deref h p;
      device_list_class_items_loop fuel' h (next d) cls
        (int_add count (Z.b2z (bool_decide (class d = cls))))
    end
  end.

Definition device_list_class_items (h : heap) (listhead : ptr) (cls : device_class)
    : result Z :=
  device_list_class_items_loop (fuel_of h) h listhead cls 0.

Fixpoint device_list_class_first_loop (fuel : nat) (h : heap) (curdev : ptr)
    (cls : device_class) : result ptr :=
  match curdev with
  | None => Ret None
  | Some p =>
    match fuel with
    | O => OutOfFuel
    | S fuel' =>
      do d <- deref h p;
      if bool_decide (class d = cls) then Ret (Some p)
      else device_list_class_first_loop fuel' h (next d) cls
    end
  end.

Definition device_list_class_first (h : heap) (listhead : ptr) (cls : device_class)
    : result ptr :=
  device_list_class_first_loop (fuel_of h) h listhead cls.

(** The scan of [device_list_class_next] starts with the item after the
    previous one. *)
Fixpoint device_list_class_next_loop (fuel : nat) (h : heap) (curdev : ptr)
    (cls : device_class) : result ptr :=
  match curdev with
  | None => Ret None
  | Some p =>
    match fuel with
    | O => OutOfFuel
    | S fuel' =>
      do d <- deref h p;
      if bool_decide (class d = cls) then Ret (Some p)
      else device_list_class_next_loop fuel' h (next d) cls
    end
  end.

Definition device_list_class_next (h : heap) (prevdevice : ptr) (cls : device_class)
    : result ptr :=
  do _ <- assert (bool_decide (prevdevice <> None));
  match prevdevice with
  | None => Fault
  | Some p =>
    do d <- deref h p;
    device_list_class_next_loop (fuel_of h) h (next d) cls
  end.

Fixpoint device_list_class_find_by_tag_loop (fuel : nat) (h : heap) (curdev : ptr)
    (cls : device_class) (tg : string) : result ptr :=
  match curdev with
  | None => Ret None
  | Some p =>
    match fuel with
    | O => OutOfFuel
    | S fuel' =>
      do d <- deref h p;
      if bool_decide (class d = cls) && strcmp_eq tg (tag d) then Ret (Some p)
      else device_list_class_find_by_tag_loop fuel' h (next d) cls tg
    end
  end.

Definition device_list_class_find_by_tag (h : heap) (listhead : ptr)
    (cls : device_class) (tg : string) : result ptr :=
  device_list_class_find_by_tag_loop (fuel_of h) h listhead cls tg.

Fixpoint device_list_class_index_loop (fuel : nat) (h : heap) (curdev : ptr)
    (cls : device_class) (tg : string) (index : Z) : result Z :=
  match curdev with
  | None => Ret (-1)
  | Some p =>
    match fuel with
    | O => OutOfFuel
    | S fuel' =>
      do d <- deref h p;
      if bool_decide (class d = cls) then
        if strcmp_eq tg (tag d) then Ret index
        else device_list_class_index_loop fuel' h (next d) cls tg (int_add index 1)
      else device_list_class_index_loop fuel' h (next d) cls tg index
    end
  end.

Definition device_list_class_index (h : heap) (listhead : ptr) (cls : device_class)
    (tg : string) : result Z :=
  device_list_class_index_loop (fuel_of h) h listhead cls tg 0.

(** As in [device_list_find_by_index], [index-- == 0] is evaluated only
    for a device of the class. *)
Fixpoint device_list_class_find_by_index_loop (fuel : nat) (h : heap) (curdev : ptr)
    (cls : device_class) (index : Z) : result ptr :=
  match curdev with
  | None => Ret None
  | Some p =>
    match fuel with
    | O => OutOfFuel
    | S fuel' =>
      do d <- deref h p;
      if bool_decide (class d = cls) then
        if index =? 0 then Ret (Some p)
        else device_list_class_find_by_index_loop fuel' h (next d) cls (int_sub index 1)
      else device_list_class_find_by_index_loop fuel' h (next d) cls index
    end
  end.

Definition device_list_class_find_by_index (h : heap) (listhead : ptr)
    (cls : device_class) (index : Z) : result ptr :=
  do _ <- assert (0 <=? index);
  device_list_class_find_by_index_loop (fuel_of h) h listhead cls index.

(** The iteration that clients write with the two class accessors:
    [for (dev = device_list_class_first(head, class); dev != NULL;
          dev = device_list_class_next(dev, class))], collecting the
    devices it visits. *)
Fixpoint class_traverse_from (fuel : nat) (h : heap) (dev : ptr) (cls : device_class)
    : result (list loc) :=
  match dev with
  | None => Ret []
  | Some p =>
    match fuel with
    | O => OutOfFuel
    | S fuel' =>
      do nxt <- device_list_class_next h dev cls;
      do rest <- class_traverse_from fuel' h nxt cls;
      Ret (p :: rest)
    end
  end.

Definition class_traverse (h : heap) (listhead : ptr) (cls : device_class)
    : result (list loc) :=
  do dev <- device_list_class_first h listhead cls;
  class_traverse_from (fuel_of h) h dev cls.

(** *** Reset *)

(** [device_reset(device)].  The reset function gets
    [const device_config *] and writes no record; the result lists
    the call of the reset function, if the type has one. *)
Definition device_reset (h : heap) (device : ptr) : result (list loc) :=
  do _ <- assert (bool_decide (device <> None));
  match device with
  | None => Fault
  | Some p =>
    do d <- deref h p;
    do _ <- assert (bool_decide (token d <> None));
    do _ <- assert (bool_decide (type d <> NULL_TYPE));
    do reset <- device_get_info_fct d DEVINFO_FCT_RESET;
    Ret (if reset is Some _ then [p] else [])
  end.

Fixpoint reset_loop (fuel : nat) (h : heap) (device : ptr) : result (list loc) :=
  match device with
  | None => Ret []
  | Some p =>
    match fuel with
    | O => OutOfFuel
    | S fuel' =>
      do calls <- device_reset h device;
      do d <- deref h p;
      do rest <- reset_loop fuel' h (next d);
      Ret (calls ++ rest)
    end
  end.

(** [device_list_reset(machine)]: the devices whose reset functions it
    called, in the order of the calls. *)
Definition device_list_reset (s : running_machine) : result (list loc) :=
  reset_loop (fuel_of (devices s)) (devices s) (devicelist s).

End Devintrf.

(** ** Well-formed registries

    A registry is described by the list of its records in chain order,
    each with its address.  The heap holds the records of the list
    ([heap_view]); the list head and the [next] fields chain them in
    order ([linked_by next]); the [typenext] field of a record points to
    the next record of its type further down ([typelinks_ok]). *)

Abbreviation view := (list (loc * device_config)).

Definition heap_view (h : heap) (l : view) : Prop :=
  Forall (fun x => h !! x.1 = Some x.2) l.

Fixpoint linked_by (link : device_config -> ptr) (cur : ptr) (l : view) : Prop :=
  match l with
  | [] => cur = None
  | x :: l' => cur = Some x.1 /\ linked_by link (link x.2) l'
  end.

Definition of_type (ty : device_type) (x : loc * device_config) : Prop :=
  type x.2 = ty.

Global Instance of_type_dec ty x : Decision (of_type ty x).
Proof. unfold of_type. apply _. Defined.

(** The first record of a type in a list, as a pointer. *)
Definition first_of_type (ty : device_type) (l : view) : ptr :=
  fst <$> head (filter (of_type ty) l).

Fixpoint typelinks_ok (l : view) : Prop :=
  match l with
  | [] => True
  | x :: l' => typenext x.2 = first_of_type (type x.2) l' /\ typelinks_ok l'
  end.

Record registry_ok (h : heap) (listhead : ptr) (l : view) : Prop := mk_registry_ok {
  reg_view : heap_view h l;
  reg_linked : linked_by next listhead l;
  reg_typelinks : typelinks_ok l;
  reg_nodup : NoDup l.*1
}.

(** A (type, tag) pair is taken when a record of the list has both. *)
Definition has_key (ty : device_type) (tg : string) (x : loc * device_config) : Prop :=
  type x.2 = ty /\ tag x.2 = tg.

Global Instance has_key_dec ty tg x : Decision (has_key ty tg x).
Proof. unfold has_key. apply _. Defined.

(** What a record says about its device, apart from the two links. *)
Definition unlinked (d : device_config) : device_config :=
  set_next (set_typenext d None) None.

(** A chain of addresses in a heap: the pointer leads to the first, the
    [next] field of each to the one after it, and the last has none. *)
Fixpoint chain (h : heap) (cur : ptr) (locs : list loc) : Prop :=
  match locs with
  | [] => cur = None
  | p :: locs' => cur = Some p /\ exists d, h !! p = Some d /\ chain h (next d) locs'
  end.

(** The device list of a machine is a chain without repetition. *)
Definition machine_ok (s : running_machine) (locs : list loc) : Prop :=
  chain (devices s) (devicelist s) locs /\ NoDup locs.

(** Two heaps hold the same records up to the fields [erase] clears. *)
Definition fields_kept (erase : device_config -> device_config) (h h' : heap) : Prop :=
  forall p, erase <$> h !! p = erase <$> h' !! p.

(** A record without its [started] flag, and without its runtime
    fields. *)
Definition unstarted (d : device_config) : device_config := set_started d false.

Definition no_runtime (d : device_config) : device_config :=
  mk_device_config (next d) (typenext d) (type d) (class d) (static_config d)
    (inline_config d) (started d) None Undef None None 0 (set_info d) (tag d).

(** Whether the device at an address is in the STARTED state. *)
Definition is_started (h : heap) (p : loc) : bool :=
  match h !! p with
  | Some d => started d
  | None => false
  end.

(** ** Insertion order

    The order the spec speaks of: a device is named by its type and its
    tag; an add puts the name last, a remove takes the name out. *)

Abbreviation device_key := (device_type * string)%type.

Definition key_of (x : loc * device_config) : device_key := (type x.2, tag x.2).

Fixpoint remove_key (k : device_key) (ks : list device_key) : list device_key :=
  match ks with
  | [] => []
  | k' :: ks' => if decide (k' = k) then ks' else k' :: remove_key k ks'
  end.

Fixpoint insertion_order (ops : list registry_op) (ks : list device_key)
    : list device_key :=
  match ops with
  | [] => ks
  | Op_add ty tg :: ops' => insertion_order ops' (ks ++ [(ty, tg)])
  | Op_remove ty tg :: ops' => insertion_order ops' (remove_key (ty, tg) ks)
  end.

(** The name of the device a pointer designates. *)
Definition key_at (h : heap) (p : loc) : option device_key :=
  (fun d => (type d, tag d)) <$> h !! p.

(** ** Example machines

    A small set of device types and the machines built from them by
    [device_list_add] and [device_list_attach_machine], for the concrete
    instances of the theorems below. *)

Definition always_ok : ptr -> heap -> loc -> device_start_err :=
  fun _ _ _ => DEVICE_START_OK.

Definition never_ok : ptr -> heap -> loc -> device_start_err :=
  fun _ _ _ => DEVICE_START_MISSING_DEPENDENCIES.

(** A start function that waits for the device at address [q]. *)
Definition waits_for (q : loc) : ptr -> heap -> loc -> device_start_err :=
  fun _ h _ =>
    if is_started h q then DEVICE_START_OK else DEVICE_START_MISSING_DEPENDENCIES.

(** Type 1 starts at once, type 2 never starts, type 3 never starts and
    declares a token of length 0, and type 4 + q waits for the device at
    address q. *)
Definition example_info (ty : device_type) : device_info :=
  match ty with
  | 0%nat => mk_device_info 0 0 0 0 None None None
  | 1%nat => mk_device_info 0 1 8 7 (Some always_ok) (Some 5%nat) None
  | 2%nat => mk_device_info 0 1 8 7 (Some never_ok) None None
  | 3%nat => mk_device_info 4 2 0 7 (Some never_ok) None None
  | S (S (S (S q))) => mk_device_info 0 1 16 7 (Some (waits_for q)) (Some 5%nat) None
  end.

(** A debug build in which the wildcard is the null type, an allocator
    that hands out the least address that is not live, and a host
    without regions. *)
Definition example_platform : platform :=
  mk_platform true NULL_TYPE example_info (fun live => fresh live)
    (fun live => is_fresh live) (fun _ => None) (fun _ => 0).

Section Examples.

#[local] Existing Instance example_platform.

(** The registry a sequence of adds builds from the empty one. *)
Definition example_registry (keys : list device_key) : ptr * heap :=
  foldl (fun st k => snd (device_list_add st.1 st.2 k.1 k.2)) (None, ∅) keys.

(** The machine at address 100 with that registry, attached. *)
Definition example_machine (keys : list device_key) : running_machine :=
  snd (device_list_attach_machine
         (mk_running_machine 100%nat (example_registry keys).1
            (example_registry keys).2 ∅ [] [] [])).

(** The records of a list of addresses, as the heap has them. *)
Definition view_of (h : heap) (locs : list loc) : view :=
  omap (fun p => (fun d => (p, d)) <$> h !! p) locs.

(** Two devices of type 1 and one of type 2. *)
Definition registry_aab : ptr * heap :=
  Eval vm_compute in
    example_registry [(1%nat, "a"%string); (1%nat, "b"%string); (2%nat, "c"%string)].

(** No device. *)
Definition machine_empty : running_machine :=
  Eval vm_compute in example_machine [].

(** One device that starts at once. *)
Definition machine_one : running_machine :=
  Eval vm_compute in example_machine [(1%nat, "a"%string)].

(** One device that never starts and declares a token of length 0. *)
Definition machine_zero_token : running_machine :=
  Eval vm_compute in example_machine [(3%nat, "a"%string)].

(** Two devices that never start. *)
Definition machine_deferring : running_machine :=
  Eval vm_compute in example_machine [(2%nat, "a"%string); (2%nat, "b"%string)].

(** Two devices, the second (at address 1) waiting for the first (at
    address 0). *)
Definition machine_forward : running_machine :=
  Eval vm_compute in example_machine [(1%nat, "a"%string); (4%nat, "b"%string)].

(** Two devices, the first (at address 0) waiting for the second (at
    address 1). *)
Definition machine_backward : running_machine :=
  Eval vm_compute in example_machine [(5%nat, "a"%string); (1%nat, "b"%string)].

(** Add a, add b (type 1), add c (type 2), remove a. *)
Definition example_ops : list registry_op :=
  [Op_add 1%nat "a"; Op_add 1%nat "b"; Op_add 2%nat "c"; Op_remove 1%nat "a"].

(** What a run of operations from the empty registry leaves. *)
Definition left_by (ops : list registry_op) : ptr * heap :=
  (run_ops ops None ∅).2.

(** Devices of the types 1, 3 and 2, which are of the classes 1, 2
    and 1. *)
Definition registry_mixed : ptr * heap :=
  Eval vm_compute in
    example_registry [(1%nat, "a"%string); (3%nat, "b"%string); (2%nat, "c"%string)].

(** The registry of a, b and c in a machine that is not attached. *)
Definition machine_unattached : running_machine :=
  mk_running_machine 100%nat registry_aab.1 registry_aab.2 ∅ [] [] [].


(** The registry the example run of operations leaves, in a machine
    that is not attached. *)
Definition machine_built : running_machine :=
  mk_running_machine 100%nat (left_by example_ops).1 (left_by example_ops).2 ∅ [] [] [].

End Examples.

(** A release build in which the types with an even number have a reset
    function, and every type starts at once. *)
Definition example_info_reset (ty : device_type) : device_info :=
  mk_device_info 0 1 8 7 (Some always_ok) (Some 5%nat)
    (if Nat.even ty then Some 6%nat else None).

Definition example_platform_reset : platform :=
  mk_platform false NULL_TYPE example_info_reset (fun live => fresh live)
    (fun live => is_fresh live) (fun _ => None) (fun _ => 0).

Section ExamplesReset.

#[local] Existing Instance example_platform_reset.

(** Devices of the types 2, 1 and 4, attached. *)
Definition machine_resettable : running_machine :=
  Eval vm_compute in
    let st := foldl (fun st k => snd (device_list_add st.1 st.2 k.1 k.2)) (None, ∅)
                [(2%nat, "a"%string); (1%nat, "b"%string); (4%nat, "c"%string)] in
    snd (device_list_attach_machine
           (mk_running_machine 100%nat st.1 st.2 ∅ [] [] [])).

End ExamplesReset.

Section Properties.

Context {P : platform}.

(** ** Machine integers *)

Lemma wrap_int_small z : INT_MIN <= z <= INT_MAX -> wrap_int z = z.
Proof.
  unfold INT_MIN, INT_MAX, wrap_int. intros Hz.
  rewrite Z.mod_small; lia.
Qed.

Lemma int_add_small a b : INT_MIN <= a + b <= INT_MAX -> int_add a b = a + b.
Proof. apply wrap_int_small. Qed.

Lemma int_sub_small a b : INT_MIN <= a - b <= INT_MAX -> int_sub a b = a - b.
Proof. apply wrap_int_small. Qed.

(** ** Views and heaps *)

Lemma heap_view_cons h x l :
  heap_view h (x :: l) <-> h !! x.1 = Some x.2 /\ heap_view h l.
Proof. unfold heap_view. by rewrite Forall_cons. Qed.

Lemma heap_view_elem h l p d :
  heap_view h l -> (p, d) ∈ l -> h !! p = Some d.
Proof.
  intros Hv Hin. unfold heap_view in Hv. rewrite Forall_forall in Hv.
  apply (Hv (p, d) Hin).
Qed.

Lemma heap_view_length h l :
  heap_view h l -> NoDup l.*1 -> (length l <= size h)%nat.
Proof.
  intros Hv Hnd.
  rewrite <- (length_fmap fst l), <- (size_dom h).
  rewrite <- (size_list_to_set (C := gset loc) (l.*1)) by done.
  apply subseteq_size. intros p Hp.
  apply elem_of_list_to_set, list_elem_of_fmap in Hp as [[q d] [-> Hin]].
  apply elem_of_dom. exists d. by apply (heap_view_elem h l).
Qed.

Lemma heap_view_fuel h l :
  heap_view h l -> NoDup l.*1 -> (length l < fuel_of h)%nat.
Proof. intros Hv Hnd. unfold fuel_of. pose proof (heap_view_length h l Hv Hnd). lia. Qed.

(** Writing a record that is not in the list leaves the view. *)
Lemma heap_view_insert_fresh h l p d :
  heap_view h l -> p ∉ l.*1 -> heap_view (<[p := d]> h) l.
Proof.
  intros Hv Hp. unfold heap_view in *. rewrite Forall_forall in *.
  intros [q dq] Hin. simpl. rewrite lookup_insert_ne; [by apply (Hv (q, dq))|].
  intros ->. apply Hp. apply list_elem_of_fmap. by exists (q, dq).
Qed.

(** ** The lookups on a well-formed chain

    Each loop over the chain computes what a fold over the list of its
    records computes. *)

Definition matching (ty : device_type) (l : view) : view :=
  filter (fun x => device_matches_type x.2 ty) l.

Lemma matching_cons ty x l :
  matching ty (x :: l) =
  if device_matches_type x.2 ty then x :: matching ty l else matching ty l.
Proof.
  unfold matching. rewrite filter_cons.
  destruct (device_matches_type x.2 ty); reflexivity.
Qed.

Lemma matching_app ty l1 l2 :
  matching ty (l1 ++ l2) = matching ty l1 ++ matching ty l2.
Proof. apply filter_app. Qed.

Lemma matching_wildcard l : matching DEVICE_TYPE_WILDCARD l = l.
Proof.
  induction l as [|x l IH]; [done|].
  rewrite matching_cons. unfold device_matches_type.
  rewrite decide_True by done. by rewrite IH.
Qed.

Lemma matching_concrete ty l :
  ty <> DEVICE_TYPE_WILDCARD -> matching ty l = filter (of_type ty) l.
Proof.
  intros Hty. induction l as [|x l IH]; [done|].
  rewrite matching_cons, filter_cons. unfold device_matches_type, of_type at 1.
  rewrite decide_False by done.
  destruct (decide (type x.2 = ty)) as [E|E].
  - rewrite bool_decide_eq_true_2 by done. by rewrite IH.
  - rewrite bool_decide_eq_false_2 by done. by rewrite IH.
Qed.

Lemma device_list_first_loop_spec ty h l : forall fuel cur,
  heap_view h l -> linked_by next cur l -> (length l < fuel)%nat ->
  device_list_first_loop fuel h cur ty = Ret (fst <$> head (matching ty l)).
Proof.
  induction l as [|[p d] l IH]; intros fuel cur Hv Hl Hf; simpl in Hl.
  - subst cur. by destruct fuel.
  - destruct Hl as [-> Hl]. apply heap_view_cons in Hv as [Hp Hv].
    destruct fuel as [|fuel]; [simpl in Hf; lia|].
    simpl in *. unfold deref. rewrite Hp. simpl.
    rewrite matching_cons. simpl.
    destruct (device_matches_type d ty); [done|].
    apply IH; [done|done|lia].
Qed.

Lemma device_list_first_spec ty h listhead l :
  heap_view h l -> linked_by next listhead l -> NoDup l.*1 ->
  device_list_first h listhead ty = Ret (fst <$> head (matching ty l)).
Proof.
  intros Hv Hl Hnd. apply device_list_first_loop_spec; [done|done|].
  by apply heap_view_fuel.
Qed.

Lemma matching_length ty l : (length (matching ty l) <= length l)%nat.
Proof. apply length_filter. Qed.

Lemma device_list_find_by_tag_loop_spec ty tg h l : forall fuel cur,
  heap_view h l -> linked_by next cur l -> (length l < fuel)%nat ->
  device_list_find_by_tag_loop fuel h cur ty tg =
  Ret (fst <$> head (filter (fun x => tag x.2 = tg) (matching ty l))).
Proof.
  induction l as [|[p d] l IH]; intros fuel cur Hv Hl Hf; simpl in Hl.
  - subst cur. by destruct fuel.
  - destruct Hl as [-> Hl]. apply heap_view_cons in Hv as [Hp Hv].
    destruct fuel as [|fuel]; [simpl in Hf; lia|].
    simpl in *. unfold deref. rewrite Hp. simpl.
    rewrite matching_cons. simpl.
    destruct (device_matches_type d ty); simpl.
    + rewrite filter_cons. simpl. unfold strcmp_eq.
      destruct (decide (tag d = tg)) as [E|E].
      * by rewrite bool_decide_eq_true_2.
      * rewrite bool_decide_eq_false_2 by congruence.
        apply IH; [done|done|lia].
    + apply IH; [done|done|lia].
Qed.

Lemma device_list_items_loop_spec ty h l : forall fuel cur count,
  heap_view h l -> linked_by next cur l -> (length l < fuel)%nat ->
  INT_MIN <= count -> count + Z.of_nat (length l) <= INT_MAX ->
  device_list_items_loop fuel h cur ty count =
  Ret (count + Z.of_nat (length (matching ty l))).
Proof.
  induction l as [|[p d] l IH]; intros fuel cur count Hv Hl Hf Hlo Hhi; simpl in Hl.
  - subst cur. destruct fuel; simpl; f_equal; lia.
  - destruct Hl as [-> Hl]. apply heap_view_cons in Hv as [Hp Hv].
    destruct fuel as [|fuel]; [simpl in Hf; lia|].
    simpl in *. unfold deref. rewrite Hp. simpl.
    rewrite matching_cons. simpl.
    pose proof (matching_length ty l) as Hm.
    destruct (device_matches_type d ty); simpl.
    + rewrite int_add_small by lia.
      rewrite IH by (done || lia). f_equal. lia.
    + rewrite int_add_small by lia.
      rewrite IH by (done || lia). f_equal. lia.
Qed.

(** The index loop on a list whose first record with the tag among the
    matching ones stands behind [pre]. *)
Lemma device_list_index_loop_found ty tg h pre x post : forall fuel cur index,
  heap_view h (pre ++ x :: post) -> linked_by next cur (pre ++ x :: post) ->
  (length (pre ++ x :: post) < fuel)%nat ->
  device_matches_type x.2 ty = true -> tag x.2 = tg ->
  Forall (fun y => tag y.2 <> tg) (matching ty pre) ->
  INT_MIN <= index -> index + Z.of_nat (length pre) <= INT_MAX ->
  device_list_index_loop fuel h cur ty tg index =
  Ret (index + Z.of_nat (length (matching ty pre))).
Proof.
  induction pre as [|[p d] pre IH]; intros fuel cur index Hv Hl Hf Hx Htg Hpre Hlo Hhi;
    simpl in Hl; destruct Hl as [-> Hl]; apply heap_view_cons in Hv as [Hp Hv];
    (destruct fuel as [|fuel]; [simpl in Hf; lia|]);
    simpl in *; unfold deref; rewrite Hp; simpl.
  - rewrite Hx. unfold strcmp_eq. rewrite bool_decide_eq_true_2 by done.
    f_equal. lia.
  - rewrite matching_cons in Hpre |- *. simpl in *.
    pose proof (matching_length ty pre) as Hm.
    destruct (device_matches_type d ty); simpl.
    + apply Forall_cons in Hpre as [Hd Hpre]. simpl in Hd.
      unfold strcmp_eq. rewrite bool_decide_eq_false_2 by congruence.
      rewrite int_add_small by lia.
      rewrite (IH fuel (next d) (index + 1)) by (done || lia). f_equal. lia.
    + rewrite (IH fuel (next d) index) by (done || lia). done.
Qed.

Lemma device_list_index_loop_absent ty tg h l : forall fuel cur index,
  heap_view h l -> linked_by next cur l -> (length l < fuel)%nat ->
  Forall (fun y => tag y.2 <> tg) (matching ty l) ->
  device_list_index_loop fuel h cur ty tg index = Ret (-1).
Proof.
  induction l as [|[p d] l IH]; intros fuel cur index Hv Hl Hf Hall; simpl in Hl.
  - subst cur. by destruct fuel.
  - destruct Hl as [-> Hl]. apply heap_view_cons in Hv as [Hp Hv].
    destruct fuel as [|fuel]; [simpl in Hf; lia|].
    simpl in *. unfold deref. rewrite Hp. simpl.
    rewrite matching_cons in Hall. simpl in Hall.
    destruct (device_matches_type d ty); simpl.
    + apply Forall_cons in Hall as [Hd Hall]. simpl in Hd.
      unfold strcmp_eq. rewrite bool_decide_eq_false_2 by congruence.
      apply IH; [done|done|lia|done].
    + apply IH; [done|done|lia|done].
Qed.

Lemma device_list_find_by_index_loop_spec ty h l : forall fuel cur index,
  heap_view h l -> linked_by next cur l -> (length l < fuel)%nat ->
  0 <= index <= INT_MAX ->
  device_list_find_by_index_loop fuel h cur ty index =
  Ret (fst <$> matching ty l !! Z.to_nat index).
Proof.
  induction l as [|[p d] l IH]; intros fuel cur index Hv Hl Hf Hi; simpl in Hl.
  - subst cur. by destruct fuel.
  - destruct Hl as [-> Hl]. apply heap_view_cons in Hv as [Hp Hv].
    destruct fuel as [|fuel]; [simpl in Hf; lia|].
    simpl in *. unfold deref. rewrite Hp. simpl.
    rewrite matching_cons. simpl.
    destruct (device_matches_type d ty); simpl.
    + destruct (index =? 0) eqn:E.
      * apply Z.eqb_eq in E. by subst index.
      * apply Z.eqb_neq in E.
        assert (Hlo : INT_MIN <= index - 1 <= INT_MAX)
          by (unfold INT_MIN, INT_MAX in *; lia).
        rewrite int_sub_small by done.
        rewrite IH by (done || lia).
        replace (Z.to_nat index) with (S (Z.to_nat (index - 1))) by lia.
        done.
    + apply IH; [done|done|lia|done].
Qed.

(** ** The per-type chain *)

Lemma first_of_type_cons ty x l :
  first_of_type ty (x :: l) =
  if decide (type x.2 = ty) then Some x.1 else first_of_type ty l.
Proof.
  unfold first_of_type. rewrite filter_cons. unfold of_type at 1.
  by destruct (decide (type x.2 = ty)).
Qed.

(** Followed from the first record of a type, the [typenext] fields
    chain the records of that type in list order. *)
Lemma typelinks_chain ty l :
  typelinks_ok l ->
  linked_by typenext (first_of_type ty l) (filter (of_type ty) l).
Proof.
  induction l as [|x l IH]; intros Hok; [done|].
  destruct Hok as [Hx Hok]. rewrite first_of_type_cons, filter_cons.
  unfold of_type at 1. destruct (decide (type x.2 = ty)) as [E|E].
  - simpl. split; [done|]. rewrite Hx, E. by apply IH.
  - by apply IH.
Qed.

Lemma heap_view_filter h (Q : loc * device_config -> Prop)
    `{!forall x, Decision (Q x)} l :
  heap_view h l -> heap_view h (filter Q l).
Proof.
  unfold heap_view. rewrite !Forall_forall. intros Hv x Hx.
  apply list_elem_of_filter in Hx as [_ Hx]. by apply Hv.
Qed.

Lemma assert_true b : b = true -> assert b = Ret tt.
Proof. intros ->. unfold assert. by rewrite andb_false_r. Qed.

Lemma traverse_from_spec ty h (link : device_config -> ptr) l :
  (forall d, (if decide (ty = DEVICE_TYPE_WILDCARD) then next d else typenext d) = link d) ->
  forall fuel cur,
  heap_view h l -> linked_by link cur l -> (length l < fuel)%nat ->
  traverse_from fuel h cur ty = Ret l.*1.
Proof.
  intros Hlink. induction l as [|[p d] l IH]; intros fuel cur Hv Hl Hf; simpl in Hl.
  - subst cur. by destruct fuel.
  - destruct Hl as [-> Hl]. apply heap_view_cons in Hv as [Hp Hv].
    destruct fuel as [|fuel]; [simpl in Hf; lia|].
    simpl in *. unfold device_list_next.
    rewrite assert_true by (by apply bool_decide_eq_true_2).
    simpl. unfold deref. rewrite Hp. simpl. rewrite Hlink.
    rewrite (IH fuel (link d)) by (done || lia). done.
Qed.

Lemma filter_fst_NoDup (Q : loc * device_config -> Prop)
    `{!forall x, Decision (Q x)} (l : view) :
  NoDup l.*1 -> NoDup (filter Q l).*1.
Proof.
  intros Hnd. eapply sublist_NoDup; [exact Hnd|].
  apply fmap_sublist, sublist_filter.
Qed.

Lemma filter_length_le (Q : loc * device_config -> Prop)
    `{!forall x, Decision (Q x)} (l : view) :
  (length (filter Q l) <= length l)%nat.
Proof. apply length_filter. Qed.

(** Traversal with the wildcard visits the whole list, traversal with a
    type the records of that type, both in list order. *)
Lemma traverse_wildcard h listhead l :
  registry_ok h listhead l ->
  traverse h listhead DEVICE_TYPE_WILDCARD = Ret l.*1.
Proof.
  intros [Hv Hl Ht Hnd]. unfold traverse.
  rewrite (device_list_first_spec _ h listhead l) by done. cbn [bind].
  rewrite matching_wildcard.
  apply (traverse_from_spec _ h next l).
  - intros d. by rewrite decide_True.
  - done.
  - destruct l as [|x l]; simpl in *; [done|]. by destruct Hl.
  - by apply heap_view_fuel.
Qed.

Lemma traverse_concrete h listhead l ty :
  registry_ok h listhead l -> ty <> DEVICE_TYPE_WILDCARD ->
  traverse h listhead ty = Ret (filter (of_type ty) l).*1.
Proof.
  intros [Hv Hl Ht Hnd] Hty. unfold traverse.
  rewrite (device_list_first_spec _ h listhead l) by done. cbn [bind].
  rewrite matching_concrete by done.
  apply (traverse_from_spec _ h typenext).
  - intros d. by rewrite decide_False.
  - by apply heap_view_filter.
  - by apply typelinks_chain.
  - pose proof (heap_view_fuel h l Hv Hnd).
    pose proof (filter_length_le (of_type ty) l). lia.
Qed.

(** ** [device_list_add] *)

(** Where a walk over a chain ends: at the link field of the last
    record, or where it started when there is no record. *)
Definition end_of (field : loc -> lvalue) (start : lvalue) (l : view) : lvalue :=
  match last l with
  | Some x => field x.1
  | None => start
  end.

Lemma end_of_cons field start x l :
  end_of field start (x :: l) = end_of field (field x.1) l.
Proof. unfold end_of. rewrite last_cons. by destruct (last l). Qed.

Lemma add_find_end_spec vs ty tg h l : forall fuel devptr cur,
  load vs h devptr = Ret cur ->
  heap_view h l -> linked_by next cur l -> (length l < fuel)%nat ->
  Forall (fun x => ~ has_key ty tg x) l ->
  add_find_end fuel vs h devptr ty tg = Ret (end_of Field_next devptr l).
Proof.
  induction l as [|[p d] l IH]; intros fuel devptr cur Hload Hv Hl Hf Hno; simpl in Hl.
  - subst cur. destruct fuel; simpl; by rewrite Hload.
  - destruct Hl as [-> Hl]. apply heap_view_cons in Hv as [Hp Hv].
    apply Forall_cons in Hno as [Hx Hno].
    destruct fuel as [|fuel]; [simpl in Hf; lia|].
    simpl in *. rewrite Hload. simpl. unfold deref at 1. rewrite Hp. simpl.
    rewrite end_of_cons. simpl.
    destruct (bool_decide (ty = type d) && strcmp_eq tg (tag d)) eqn:E.
    + exfalso. apply Hx. apply andb_true_iff in E as [E1 E2].
      apply bool_decide_eq_true in E1. apply bool_decide_eq_true in E2.
      by split.
    + apply (IH fuel (Field_next p) (next d)); [|done|done|lia|done].
      simpl. unfold deref. by rewrite Hp.
Qed.

(** The walk stops with the fatal error at the first record that has
    the type and the tag. *)
Lemma add_find_end_duplicate vs ty tg h pre x post : forall fuel devptr cur,
  load vs h devptr = Ret cur ->
  heap_view h (pre ++ x :: post) -> linked_by next cur (pre ++ x :: post) ->
  (length (pre ++ x :: post) < fuel)%nat ->
  Forall (fun y => ~ has_key ty tg y) pre -> has_key ty tg x ->
  add_find_end fuel vs h devptr ty tg = Fatal (Duplicate_device ty tg).
Proof.
  induction pre as [|[p d] pre IH]; intros fuel devptr cur Hload Hv Hl Hf Hno Hx;
    simpl in Hl; destruct Hl as [-> Hl]; apply heap_view_cons in Hv as [Hp Hv];
    (destruct fuel as [|fuel]; [simpl in Hf; lia|]);
    simpl in *; rewrite Hload; simpl; unfold deref at 1; rewrite Hp; simpl.
  - destruct Hx as [Hx1 Hx2]. unfold strcmp_eq.
    rewrite !bool_decide_eq_true_2 by done. done.
  - apply Forall_cons in Hno as [Hd Hno].
    destruct (bool_decide (ty = type d) && strcmp_eq tg (tag d)) eqn:E.
    + exfalso. apply Hd. apply andb_true_iff in E as [E1 E2].
      apply bool_decide_eq_true in E1. apply bool_decide_eq_true in E2.
      by split.
    + apply (IH fuel (Field_next p) (next d)); [|done|done|lia|done|done].
      simpl. unfold deref. by rewrite Hp.
Qed.

Lemma add_find_type_end_spec vs h l : forall fuel typedevptr cur,
  load vs h typedevptr = Ret cur ->
  heap_view h l -> linked_by typenext cur l -> (length l < fuel)%nat ->
  add_find_type_end fuel vs h typedevptr = Ret (end_of Field_typenext typedevptr l).
Proof.
  induction l as [|[p d] l IH]; intros fuel typedevptr cur Hload Hv Hl Hf; simpl in Hl.
  - subst cur. destruct fuel; simpl; by rewrite Hload.
  - destruct Hl as [-> Hl]. apply heap_view_cons in Hv as [Hp Hv].
    destruct fuel as [|fuel]; [simpl in Hf; lia|].
    simpl in *. rewrite Hload. simpl.
    rewrite end_of_cons. simpl.
    apply (IH fuel (Field_typenext p) (typenext d)); [|done|done|lia].
    simpl. unfold deref. by rewrite Hp.
Qed.

Lemma call_type_ok {A : Type} ty (state : device_info -> A) :
  ty <> NULL_TYPE -> call_type ty state = Ret (state (device_get_info ty)).
Proof. intros Hty. unfold call_type. by rewrite decide_False. Qed.

(** The record a successful [device_list_add] links in. *)
Definition added_device (ty : device_type) (tg : string) : device_config :=
  new_device ty tg
    (to_UINT32 (DEVINFO_INT_INLINE_CONFIG_BYTES (device_get_info ty)))
    (DEVINFO_INT_CLASS (device_get_info ty))
    (DEVINFO_FCT_SET_INFO (device_get_info ty)).

Lemma add_queries_ok ty tg :
  ty <> NULL_TYPE -> add_queries ty tg = Ret (added_device ty tg).
Proof.
  intros Hty. unfold add_queries, devtype_get_info_int, devtype_get_info_fct.
  rewrite assert_true by (by apply bool_decide_eq_true_2).
  simpl. rewrite !call_type_ok by done. done.
Qed.

(** The list after a successful add: the record [q] that ended the
    chain of the type and the record [r] that ended the list now point
    to the new record, which stands last. *)
Definition add_patch (q r : ptr) (device : loc) (x : loc * device_config)
    : loc * device_config :=
  let d1 := if decide (q = Some x.1) then set_typenext x.2 (Some device) else x.2 in
  (x.1, if decide (r = Some x.1) then set_next d1 (Some device) else d1).

Definition add_view (ty : device_type) (device : loc) (nd : device_config)
    (l : view) : view :=
  (add_patch (fst <$> last (filter (of_type ty) l)) (fst <$> last l) device <$> l)
  ++ [(device, nd)].

Lemma add_patch_fst q r device x : (add_patch q r device x).1 = x.1.
Proof. done. Qed.

Lemma add_patch_unlinked q r device x :
  unlinked (add_patch q r device x).2 = unlinked x.2.
Proof.
  unfold add_patch. simpl.
  destruct (decide (q = Some x.1)), (decide (r = Some x.1)); by destruct x as [p []].
Qed.

Lemma add_patch_type q r device x : type (add_patch q r device x).2 = type x.2.
Proof.
  unfold add_patch. simpl.
  by destruct (decide (q = Some x.1)), (decide (r = Some x.1)).
Qed.

Lemma add_patch_next q r device x :
  next (add_patch q r device x).2 =
  if decide (r = Some x.1) then Some device else next x.2.
Proof.
  unfold add_patch. simpl.
  by destruct (decide (q = Some x.1)), (decide (r = Some x.1)).
Qed.

Lemma add_patch_typenext q r device x :
  typenext (add_patch q r device x).2 =
  if decide (q = Some x.1) then Some device else typenext x.2.
Proof.
  unfold add_patch. simpl.
  by destruct (decide (q = Some x.1)), (decide (r = Some x.1)).
Qed.

Lemma last_in_fst (l : view) p : fst <$> last l = Some p -> p ∈ l.*1.
Proof.
  destruct (last l) as [x|] eqn:E; [|done]. simpl. intros [= <-].
  apply list_elem_of_fmap. exists x. split; [done|].
  apply last_Some in E as [l' ->]. apply elem_of_app. right. by left.
Qed.

Lemma add_linked q r device nd :
  next nd = None ->
  forall l cur, l <> [] -> NoDup l.*1 -> fst <$> last l = r ->
  linked_by next cur l ->
  linked_by next cur ((add_patch q r device <$> l) ++ [(device, nd)]).
Proof.
  intros Hnd. induction l as [|x l IH]; intros cur Hne Hdup Hr Hl; [done|].
  destruct Hl as [-> Hl]. rewrite fmap_cons. cbn [linked_by app]. split; [done|].
  rewrite fmap_cons in Hdup. apply NoDup_cons in Hdup as [Hx Hdup].
  rewrite add_patch_next.
  destruct l as [|y l].
  - simpl in Hr. subst r. rewrite decide_True by done. done.
  - rewrite last_cons in Hr.
    assert (Hr' : fst <$> last (y :: l) = r).
    { destruct (last (y :: l)) eqn:E; [done|]. by apply last_None in E. }
    rewrite decide_False.
    + apply IH; done.
    + intros ->. apply Hx. by apply last_in_fst.
Qed.

Lemma first_of_type_added t q r device nd l :
  first_of_type t ((add_patch q r device <$> l) ++ [(device, nd)]) =
  match first_of_type t l with
  | Some p => Some p
  | None => if decide (type nd = t) then Some device else None
  end.
Proof.
  induction l as [|x l IH].
  - simpl. rewrite first_of_type_cons. simpl. by destruct (decide (type nd = t)).
  - rewrite fmap_cons. cbn [app]. rewrite !first_of_type_cons.
    destruct (decide (type x.2 = t)) as [E|E].
    + by rewrite decide_True by (by rewrite add_patch_type).
    + by rewrite decide_False by (by rewrite add_patch_type).
Qed.

Lemma first_of_type_None ty l :
  first_of_type ty l = None <-> filter (of_type ty) l = [].
Proof.
  unfold first_of_type. destruct (filter (of_type ty) l); simpl; split; done.
Qed.

Lemma fst_inj_NoDup (l : view) x y :
  NoDup l.*1 -> x ∈ l -> y ∈ l -> x.1 = y.1 -> x = y.
Proof.
  induction l as [|z l IH]; intros Hnd Hx Hy E; [by apply elem_of_nil in Hx|].
  rewrite fmap_cons in Hnd. apply NoDup_cons in Hnd as [Hz Hnd].
  apply elem_of_cons in Hx as [->|Hx]; apply elem_of_cons in Hy as [->|Hy].
  - done.
  - exfalso. apply Hz. rewrite E. apply list_elem_of_fmap. by exists y.
  - exfalso. apply Hz. rewrite <- E. apply list_elem_of_fmap. by exists x.
  - by apply IH.
Qed.

(** Either [q] is the last record of the type in the list, or the list
    has no record of the type and [q] is not one of its records. *)
Definition ends_type_chain (ty : device_type) (q : ptr) (l : view) : Prop :=
  fst <$> last (filter (of_type ty) l) = q \/
  (filter (of_type ty) l = [] /\ forall p, q = Some p -> p ∉ l.*1).

Lemma ends_type_chain_tail ty q x l :
  NoDup (x :: l).*1 -> ends_type_chain ty q (x :: l) -> ends_type_chain ty q l.
Proof.
  unfold ends_type_chain.
  rewrite fmap_cons. intros Hdup%NoDup_cons [Hq|[Hnil Hq]].
  - destruct Hdup as [Hx Hdup].
    rewrite filter_cons in Hq. unfold of_type at 1 in Hq.
    destruct (filter (of_type ty) l) as [|y f] eqn:E.
    + right. split; [done|]. intros p ->.
      destruct (decide (type x.2 = ty)); simpl in Hq; [|done].
      by injection Hq as <-.
    + left. destruct (decide (type x.2 = ty)); [|done].
      by rewrite last_cons in Hq; destruct (last (y :: f)) eqn:E'; [|apply last_None in E'].
  - rewrite filter_cons in Hnil. unfold of_type at 1 in Hnil.
    destruct (decide (type x.2 = ty)); [done|].
    right. split; [done|]. intros p Hp Hin. apply (Hq p Hp). by right.
Qed.

Lemma add_typelinks ty q r device nd :
  type nd = ty -> typenext nd = None ->
  forall l, NoDup l.*1 -> ends_type_chain ty q l -> typelinks_ok l ->
  typelinks_ok ((add_patch q r device <$> l) ++ [(device, nd)]).
Proof.
  intros Hty Hnd. induction l as [|x l IH]; intros Hdup Hq Hok.
  - simpl. by rewrite Hnd.
  - destruct Hok as [Hx Hok]. rewrite fmap_cons. cbn [typelinks_ok app].
    pose proof (ends_type_chain_tail ty q x l Hdup Hq) as Hq'.
    rewrite fmap_cons in Hdup. apply NoDup_cons in Hdup as [Hxl Hdup].
    split; [|by apply IH].
    rewrite add_patch_typenext, add_patch_type, first_of_type_added, Hx, Hty.
    destruct (decide (type x.2 = ty)) as [E|E].
    + rewrite E in *. rewrite (decide_True (P := ty = ty)) by done.
      destruct (first_of_type ty l) as [p|] eqn:F.
      * rewrite decide_False; [done|]. intros ->.
        destruct Hq' as [Hq'|[Hnil _]].
        -- apply Hxl. apply last_in_fst in Hq'.
           apply list_elem_of_fmap in Hq' as [y [-> Hy]].
           apply list_elem_of_filter in Hy as [_ Hy].
           apply list_elem_of_fmap. by exists y.
        -- apply first_of_type_None in Hnil. congruence.
      * apply first_of_type_None in F.
        destruct Hq as [Hq|[Hnil _]].
        -- rewrite filter_cons in Hq. unfold of_type at 1 in Hq.
           rewrite decide_True in Hq by done. rewrite F in Hq. simpl in Hq.
           by rewrite decide_True.
        -- rewrite filter_cons in Hnil. unfold of_type at 1 in Hnil.
           by rewrite decide_True in Hnil.
    + rewrite (decide_False (P := ty = type x.2)) by congruence.
      rewrite decide_False; [by destruct (first_of_type (type x.2) l)|].
      intros ->. destruct Hq as [Hq|[_ Hq]].
      * apply E. destruct (last (filter (of_type ty) (x :: l))) as [y|] eqn:L; [|done].
        simpl in Hq. injection Hq as Hq.
        apply last_Some in L as [f L].
        assert (Hy : y ∈ filter (of_type ty) (x :: l)).
        { rewrite L. apply elem_of_app. right. by left. }
        apply list_elem_of_filter in Hy as [Hy1 Hy2].
        assert (y = x) as ->; [|done].
        apply (fst_inj_NoDup (x :: l)); [|done|by left|done].
        rewrite fmap_cons. by apply NoDup_cons.
      * apply (Hq x.1 eq_refl). rewrite fmap_cons. by left.
Qed.

(** Writing a field of a live record, as a map operation. *)
Lemma insert_as_alter (h : heap) p d (f : device_config -> device_config) :
  h !! p = Some d -> <[p := f d]> h = alter f p h.
Proof.
  intros Hp. apply map_eq. intros k. rewrite lookup_insert, lookup_alter.
  destruct (decide (p = k)) as [->|]; [by rewrite Hp|done].
Qed.

Lemma store_next_spec vs (h : heap) p v :
  is_Some (h !! p) ->
  store vs h (Field_next p) v = Ret (vs, alter (fun d => set_next d v) p h).
Proof.
  intros [d Hp]. simpl. unfold deref. rewrite Hp. simpl.
  by rewrite (insert_as_alter h p d (fun d => set_next d v)).
Qed.

Lemma store_typenext_spec vs (h : heap) p v :
  is_Some (h !! p) ->
  store vs h (Field_typenext p) v = Ret (vs, alter (fun d => set_typenext d v) p h).
Proof.
  intros [d Hp]. simpl. unfold deref. rewrite Hp. simpl.
  by rewrite (insert_as_alter h p d (fun d => set_typenext d v)).
Qed.

(** Apply [f] to the record a pointer designates, if any. *)
Definition alter_at (f : device_config -> device_config) (q : ptr) (h : heap) : heap :=
  match q with
  | Some p => alter f p h
  | None => h
  end.

Lemma lookup_alter_at f q (h : heap) p :
  alter_at f q h !! p = if decide (q = Some p) then f <$> h !! p else h !! p.
Proof.
  destruct q as [p'|]; simpl; [|done].
  rewrite lookup_alter. destruct (decide (p' = p)) as [->|E].
  - by rewrite decide_True.
  - rewrite decide_False; [done|]. congruence.
Qed.

(** The heap after a successful add. *)
Definition add_heap (q r : ptr) (device : loc) (nd : device_config) (h : heap) : heap :=
  alter_at (fun d => set_next d (Some device)) r
    (alter_at (fun d => set_typenext d (Some device)) q (<[device := nd]> h)).

Lemma last_elem {A} (l : list A) x : last l = Some x -> x ∈ l.
Proof. intros [l' ->]%last_Some. apply elem_of_app. right. by left. Qed.

Lemma heap_view_fresh h l p : heap_view h l -> h !! p = None -> p ∉ l.*1.
Proof.
  intros Hv Hp Hin. apply list_elem_of_fmap in Hin as [[p' d] [-> Hin]].
  simpl in Hp. rewrite (heap_view_elem h l p' d Hv Hin) in Hp. done.
Qed.

Lemma add_link_spec h listhead l ty device nd :
  registry_ok h listhead l -> h !! device = None -> ty <> DEVICE_TYPE_WILDCARD ->
  exists vs3,
    add_link (mk_vars listhead None) (<[device := nd]> h)
      (end_of Field_next Var_listhead l) device ty =
    Ret (vs3, add_heap (fst <$> last (filter (of_type ty) l)) (fst <$> last l)
                device nd h) /\
    v_listhead vs3 = match l with [] => Some device | _ => listhead end.
Proof.
  intros [Hv Hl Ht Hnd] Hfresh Hty.
  pose proof (heap_view_fresh h l device Hv Hfresh) as Hdev.
  assert (Hv1 : heap_view (<[device := nd]> h) l) by (by apply heap_view_insert_fresh).
  unfold add_link. cbn [v_listhead].
  rewrite (device_list_first_spec ty _ listhead l) by done. cbn [bind].
  rewrite matching_concrete by done. fold (first_of_type ty l).
  rewrite (add_find_type_end_spec _ _ (filter (of_type ty) l) _ _ (first_of_type ty l)).
  2: done.
  2: by apply heap_view_filter.
  2: by apply typelinks_chain.
  2: { pose proof (heap_view_fuel _ l Hv1 Hnd).
       pose proof (filter_length_le (of_type ty) l). lia. }
  cbn [bind]. unfold add_heap, end_of.
  destruct (last (filter (of_type ty) l)) as [xq|] eqn:Lq.
  - assert (Hq : is_Some (<[device := nd]> h !! xq.1)).
    { exists xq.2. apply last_elem, list_elem_of_filter in Lq as [_ Lq].
      destruct xq. by apply (heap_view_elem _ l). }
    rewrite store_typenext_spec by done. cbn [bind fst snd fmap option_fmap option_map alter_at].
    destruct (last l) as [xr|] eqn:Lr.
    + rewrite store_next_spec.
      * eexists. split; [reflexivity|]. simpl. destruct l; [done|done].
      * rewrite lookup_alter. destruct (decide (xq.1 = xr.1)) as [E|E].
        -- by apply fmap_is_Some.
        -- exists xr.2. apply last_elem in Lr. destruct xr. by apply (heap_view_elem _ l).
    + apply last_None in Lr. subst l. done.
  - cbn [store bind fst snd fmap option_fmap option_map alter_at].
    destruct (last l) as [xr|] eqn:Lr.
    + rewrite store_next_spec.
      * eexists. split; [reflexivity|]. simpl. destruct l; [done|done].
      * exists xr.2. apply last_elem in Lr. destruct xr. by apply (heap_view_elem _ l).
    + apply last_None in Lr. subst l. cbn [store]. eexists. split; [reflexivity|done].
Qed.

Lemma add_view_fst ty device nd l : (add_view ty device nd l).*1 = l.*1 ++ [device].
Proof.
  unfold add_view. rewrite fmap_app. f_equal.
  rewrite <- list_fmap_compose. apply list_fmap_ext. by intros i [p d] _.
Qed.

Lemma add_view_unlinked ty device nd l :
  (fun x => unlinked x.2) <$> add_view ty device nd l =
  ((fun x => unlinked x.2) <$> l) ++ [unlinked nd].
Proof.
  unfold add_view. rewrite fmap_app. f_equal.
  rewrite <- list_fmap_compose. apply list_fmap_ext. intros i x _. simpl.
  apply add_patch_unlinked.
Qed.

Lemma add_registry_ok h listhead l ty device nd :
  registry_ok h listhead l -> h !! device = None ->
  type nd = ty -> next nd = None -> typenext nd = None ->
  registry_ok
    (add_heap (fst <$> last (filter (of_type ty) l)) (fst <$> last l) device nd h)
    (match l with [] => Some device | _ => listhead end)
    (add_view ty device nd l).
Proof.
  intros [Hv Hl Ht Hnd] Hfresh Hty Hnext Htnext.
  pose proof (heap_view_fresh h l device Hv Hfresh) as Hdev.
  set (q := fst <$> last (filter (of_type ty) l)).
  set (r := fst <$> last l).
  assert (Hq : q <> Some device).
  { intros Hq. apply Hdev. apply last_in_fst in Hq.
    apply list_elem_of_fmap in Hq as [y [-> Hy]].
    apply list_elem_of_filter in Hy as [_ Hy]. apply list_elem_of_fmap. by exists y. }
  assert (Hr : r <> Some device).
  { intros Hr. apply Hdev. by apply last_in_fst in Hr. }
  split.
  - unfold add_view. fold q r. apply Forall_app. split.
    + apply Forall_fmap. unfold heap_view in Hv. rewrite Forall_forall in Hv.
      apply Forall_forall. intros x Hx. simpl.
      unfold add_heap. rewrite !lookup_alter_at.
      rewrite lookup_insert_ne.
      * rewrite (Hv x Hx). unfold add_patch. simpl.
        by destruct (decide (q = Some x.1)), (decide (r = Some x.1)).
      * intros ->. apply Hdev. apply list_elem_of_fmap. by exists x.
    + apply Forall_singleton. simpl. unfold add_heap. rewrite !lookup_alter_at.
      rewrite !decide_False by done. by rewrite lookup_insert_eq.
  - unfold add_view. fold q r. destruct l as [|x l].
    + simpl. done.
    + by apply add_linked.
  - unfold add_view. fold q r. apply (add_typelinks ty); [done|done|done| |done].
    by left.
  - rewrite add_view_fst. apply NoDup_app. split; [done|]. split.
    + intros p Hp Hp'. apply list_elem_of_singleton in Hp'. by subst p.
    + apply NoDup_singleton.
Qed.

Lemma add_heap_frame q r device nd (h : heap) (l : view) p :
  (forall p', q = Some p' -> p' ∈ l.*1) -> (forall p', r = Some p' -> p' ∈ l.*1) ->
  p ∉ l.*1 -> p <> device -> add_heap q r device nd h !! p = h !! p.
Proof.
  intros Hq Hr Hp Hdev. unfold add_heap. rewrite !lookup_alter_at.
  rewrite !decide_False; [by rewrite lookup_insert_ne|..].
  - intros E. apply Hp. by apply Hq.
  - intros E. apply Hp. by apply Hr.
Qed.

(** A successful add: the pair is new, the type is a real one. *)
Lemma device_list_add_ok h listhead l ty tg :
  registry_ok h listhead l ->
  ty <> NULL_TYPE -> ty <> DEVICE_TYPE_WILDCARD ->
  Forall (fun x => ~ has_key ty tg x) l ->
  exists listhead' h',
    device_list_add listhead h ty tg =
      (Ret (malloc_or_die (dom h)), (listhead', h')) /\
    registry_ok h' listhead'
      (add_view ty (malloc_or_die (dom h)) (added_device ty tg) l).
Proof.
  intros Hok Hnull Hty Hno. pose proof Hok as [Hv Hl Ht Hnd].
  set (device := malloc_or_die (dom h)).
  assert (Hfresh : h !! device = None).
  { apply not_elem_of_dom. apply malloc_or_die_fresh. }
  unfold device_list_add.
  rewrite assert_true by (by apply bool_decide_eq_true_2). cbn [bind].
  rewrite (add_find_end_spec _ ty tg h l _ _ listhead);
    [|done|done|done|by apply heap_view_fuel|done].
  cbn [bind]. rewrite add_queries_ok by done. cbn [bind].
  fold device.
  destruct (add_link_spec h listhead l ty device (added_device ty tg) Hok Hfresh Hty)
    as [vs3 [Hlink Hhead]].
  rewrite Hlink. destruct vs3 as [lh td]. simpl in Hhead. subst lh.
  eexists _, _. split; [reflexivity|].
  by apply add_registry_ok.
Qed.

(** An add of a pair that is taken stops at the duplicate check, with
    the list head and the heap as they were. *)
Lemma device_list_add_duplicate h listhead l ty tg :
  registry_ok h listhead l -> ty <> NULL_TYPE ->
  Exists (has_key ty tg) l ->
  device_list_add listhead h ty tg = (Fatal (Duplicate_device ty tg), (listhead, h)).
Proof.
  intros [Hv Hl Ht Hnd] Hnull Hex.
  assert (exists pre x post, l = pre ++ x :: post /\
            Forall (fun y => ~ has_key ty tg y) pre /\ has_key ty tg x)
    as (pre & x & post & -> & Hpre & Hx).
  { clear Hv Hl Ht Hnd. induction l as [|y l IH]; [by apply Exists_nil in Hex|].
    destruct (decide (has_key ty tg y)) as [Hy|Hy].
    - exists [], y, l. split; [done|]. split; [by apply Forall_nil|done].
    - apply Exists_cons in Hex as [Hex|Hex]; [done|].
      destruct (IH Hex) as (pre & x & post & -> & Hpre & Hx).
      exists (y :: pre), x, post. split; [done|]. split; [by apply Forall_cons|done]. }
  unfold device_list_add.
  rewrite assert_true by (by apply bool_decide_eq_true_2). cbn [bind].
  rewrite (add_find_end_duplicate _ ty tg h pre x post _ _ listhead);
    [done|done|done|done|by apply heap_view_fuel|done|done].
Qed.

(** ** [device_list_remove] *)

(** The list after a remove of [x]: its predecessor [r] in the list
    and its predecessor [q] in the chain of its type pass it by, and it
    is gone. *)
Definition remove_patch (q r : ptr) (x : loc * device_config)
    (y : loc * device_config) : loc * device_config :=
  let d1 := if decide (q = Some y.1) then set_typenext y.2 (typenext x.2) else y.2 in
  (y.1, if decide (r = Some y.1) then set_next d1 (next x.2) else d1).

Definition remove_view (ty : device_type) (pre : view) (x : loc * device_config)
    (post : view) : view :=
  (remove_patch (fst <$> last (filter (of_type ty) pre)) (fst <$> last pre) x <$> pre)
  ++ post.

Definition remove_heap (q r : ptr) (x : loc * device_config) (h : heap) : heap :=
  delete x.1
    (alter_at (fun d => set_next d (next x.2)) r
       (alter_at (fun d => set_typenext d (typenext x.2)) q h)).

Lemma remove_patch_fst q r x y : (remove_patch q r x y).1 = y.1.
Proof. done. Qed.

Lemma remove_patch_unlinked q r x y :
  unlinked (remove_patch q r x y).2 = unlinked y.2.
Proof.
  unfold remove_patch. simpl.
  destruct (decide (q = Some y.1)), (decide (r = Some y.1)); by destruct y as [p []].
Qed.

Lemma remove_patch_type q r x y : type (remove_patch q r x y).2 = type y.2.
Proof.
  unfold remove_patch. simpl.
  by destruct (decide (q = Some y.1)), (decide (r = Some y.1)).
Qed.

Lemma remove_patch_next q r x y :
  next (remove_patch q r x y).2 =
  if decide (r = Some y.1) then next x.2 else next y.2.
Proof.
  unfold remove_patch. simpl.
  by destruct (decide (q = Some y.1)), (decide (r = Some y.1)).
Qed.

Lemma remove_patch_typenext q r x y :
  typenext (remove_patch q r x y).2 =
  if decide (q = Some y.1) then typenext x.2 else typenext y.2.
Proof.
  unfold remove_patch. simpl.
  by destruct (decide (q = Some y.1)), (decide (r = Some y.1)).
Qed.

Lemma linked_by_app link cur l1 l2 :
  linked_by link cur (l1 ++ l2) ->
  linked_by link (match last l1 with Some y => link y.2 | None => cur end) l2.
Proof.
  revert cur. induction l1 as [|y l1 IH]; intros cur Hl; [done|].
  destruct Hl as [-> Hl]. apply IH in Hl. rewrite last_cons.
  by destruct (last l1).
Qed.

Lemma remove_linked q r x post :
  forall pre cur, pre <> [] -> NoDup pre.*1 -> fst <$> last pre = r ->
  linked_by next cur (pre ++ x :: post) ->
  linked_by next cur ((remove_patch q r x <$> pre) ++ post).
Proof.
  induction pre as [|y pre IH]; intros cur Hne Hdup Hr Hl; [done|].
  destruct Hl as [-> Hl]. rewrite fmap_cons. cbn [linked_by app]. split; [done|].
  rewrite fmap_cons in Hdup. apply NoDup_cons in Hdup as [Hy Hdup].
  rewrite remove_patch_next.
  destruct pre as [|z pre].
  - simpl in Hr. subst r. rewrite decide_True by done. simpl in *. by destruct Hl.
  - rewrite last_cons in Hr.
    assert (Hr' : fst <$> last (z :: pre) = r).
    { destruct (last (z :: pre)) eqn:E; [done|]. by apply last_None in E. }
    rewrite decide_False.
    + apply IH; done.
    + intros ->. apply Hy. by apply last_in_fst.
Qed.

Lemma first_of_type_app t l1 l2 :
  first_of_type t (l1 ++ l2) =
  match first_of_type t l1 with
  | Some p => Some p
  | None => first_of_type t l2
  end.
Proof.
  induction l1 as [|y l1 IH]; [done|].
  cbn [app]. rewrite !first_of_type_cons.
  by destruct (decide (type y.2 = t)).
Qed.

Lemma first_of_type_removed t q r x l :
  first_of_type t (remove_patch q r x <$> l) = first_of_type t l.
Proof.
  induction l as [|y l IH]; [done|].
  rewrite fmap_cons, !first_of_type_cons.
  destruct (decide (type y.2 = t)) as [E|E].
  - by rewrite decide_True by (by rewrite remove_patch_type).
  - by rewrite decide_False by (by rewrite remove_patch_type).
Qed.

Lemma typelinks_ok_app l1 l2 : typelinks_ok (l1 ++ l2) -> typelinks_ok l2.
Proof. induction l1 as [|y l1 IH]; [done|]. intros [_ H]. by apply IH. Qed.

Lemma remove_typelinks ty q r x post :
  type x.2 = ty -> typenext x.2 = first_of_type ty post -> typelinks_ok post ->
  forall pre, NoDup pre.*1 -> ends_type_chain ty q pre ->
  typelinks_ok (pre ++ x :: post) ->
  typelinks_ok ((remove_patch q r x <$> pre) ++ post).
Proof.
  intros Hty Hx Hpost. induction pre as [|y pre IH]; intros Hdup Hq Hok; [done|].
  destruct Hok as [Hy Hok]. rewrite fmap_cons. cbn [typelinks_ok app].
  pose proof (ends_type_chain_tail ty q y pre Hdup Hq) as Hq'.
  rewrite fmap_cons in Hdup. apply NoDup_cons in Hdup as [Hyl Hdup].
  split; [|by apply IH].
  rewrite remove_patch_typenext, remove_patch_type, first_of_type_app,
    first_of_type_removed, Hy, first_of_type_app, first_of_type_cons, Hx.
  destruct (decide (type y.2 = ty)) as [E|E].
  - rewrite E in *. rewrite (decide_True (P := type x.2 = ty)) by done.
    destruct (first_of_type ty pre) as [p|] eqn:F.
    + rewrite decide_False; [done|]. intros ->.
      destruct Hq' as [Hq'|[Hnil _]].
      * apply Hyl. apply last_in_fst in Hq'.
        apply list_elem_of_fmap in Hq' as [z [-> Hz]].
        apply list_elem_of_filter in Hz as [_ Hz].
        apply list_elem_of_fmap. by exists z.
      * apply first_of_type_None in Hnil. congruence.
    + apply first_of_type_None in F.
      destruct Hq as [Hq|[Hnil _]].
      * rewrite filter_cons in Hq. unfold of_type at 1 in Hq.
        rewrite decide_True in Hq by done. rewrite F in Hq. simpl in Hq.
        by rewrite decide_True.
      * rewrite filter_cons in Hnil. unfold of_type at 1 in Hnil.
        by rewrite decide_True in Hnil.
  - rewrite (decide_False (P := type x.2 = type y.2)) by congruence.
    rewrite decide_False; [done|].
    intros ->. destruct Hq as [Hq|[_ Hq]].
    + apply E. destruct (last (filter (of_type ty) (y :: pre))) as [z|] eqn:L; [|done].
      simpl in Hq. injection Hq as Hq.
      apply last_elem, list_elem_of_filter in L as [Hz1 Hz2].
      assert (z = y) as ->; [|done].
      apply (fst_inj_NoDup (y :: pre)); [|done|by left|done].
      rewrite fmap_cons. by apply NoDup_cons.
    + apply (Hq y.1 eq_refl). rewrite fmap_cons. by left.
Qed.

Lemma remove_find_spec vs ty tg h pre x post : forall fuel devptr cur,
  load vs h devptr = Ret cur ->
  heap_view h (pre ++ x :: post) -> linked_by next cur (pre ++ x :: post) ->
  (length (pre ++ x :: post) < fuel)%nat ->
  Forall (fun y => ~ has_key ty tg y) pre -> has_key ty tg x ->
  remove_find fuel vs h devptr ty tg = Ret (end_of Field_next devptr pre).
Proof.
  induction pre as [|[p d] pre IH]; intros fuel devptr cur Hload Hv Hl Hf Hno Hx;
    simpl in Hl; destruct Hl as [-> Hl]; apply heap_view_cons in Hv as [Hp Hv];
    (destruct fuel as [|fuel]; [simpl in Hf; lia|]);
    simpl in *; rewrite Hload; simpl; unfold deref at 1; rewrite Hp; simpl.
  - destruct Hx as [Hx1 Hx2]. unfold strcmp_eq.
    rewrite !bool_decide_eq_true_2 by done. done.
  - apply Forall_cons in Hno as [Hd Hno]. rewrite end_of_cons. simpl.
    destruct (bool_decide (ty = type d) && strcmp_eq tg (tag d)) eqn:E.
    + exfalso. apply Hd. apply andb_true_iff in E as [E1 E2].
      apply bool_decide_eq_true in E1. apply bool_decide_eq_true in E2.
      by split.
    + apply (IH fuel (Field_next p) (next d)); [|done|done|lia|done|done].
      simpl. unfold deref. by rewrite Hp.
Qed.

Lemma remove_find_absent vs ty tg h l : forall fuel devptr cur,
  load vs h devptr = Ret cur ->
  heap_view h l -> linked_by next cur l -> (length l < fuel)%nat ->
  Forall (fun x => ~ has_key ty tg x) l ->
  remove_find fuel vs h devptr ty tg = Ret (end_of Field_next devptr l).
Proof.
  induction l as [|[p d] l IH]; intros fuel devptr cur Hload Hv Hl Hf Hno; simpl in Hl.
  - subst cur. destruct fuel; simpl; by rewrite Hload.
  - destruct Hl as [-> Hl]. apply heap_view_cons in Hv as [Hp Hv].
    apply Forall_cons in Hno as [Hx Hno].
    destruct fuel as [|fuel]; [simpl in Hf; lia|].
    simpl in *. rewrite Hload. simpl. unfold deref at 1. rewrite Hp. simpl.
    rewrite end_of_cons. simpl.
    destruct (bool_decide (ty = type d) && strcmp_eq tg (tag d)) eqn:E.
    + exfalso. apply Hx. apply andb_true_iff in E as [E1 E2].
      apply bool_decide_eq_true in E1. apply bool_decide_eq_true in E2.
      by split.
    + apply (IH fuel (Field_next p) (next d)); [|done|done|lia|done].
      simpl. unfold deref. by rewrite Hp.
Qed.

(** What the slot at the end of a walk holds: the pointer to what
    follows the records walked over. *)
Lemma load_end_of vs h (link : device_config -> ptr) (field : loc -> lvalue) l1 l2 :
  (forall p d, h !! p = Some d -> load vs h (field p) = Ret (link d)) ->
  forall start cur,
  load vs h start = Ret cur ->
  heap_view h l1 -> linked_by link cur (l1 ++ l2) ->
  load vs h (end_of field start l1) = Ret (fst <$> head l2).
Proof.
  intros Hfield. induction l1 as [|y l1 IH]; intros start cur Hload Hv Hl.
  - unfold end_of. simpl in *. rewrite Hload. destruct l2; simpl in *; [by subst|].
    by destruct Hl as [-> _].
  - destruct Hl as [-> Hl]. apply heap_view_cons in Hv as [Hy Hv].
    rewrite end_of_cons. apply (IH _ (link y.2)); [|done|done].
    by apply Hfield.
Qed.

Lemma load_field_next vs (h : heap) p d :
  h !! p = Some d -> load vs h (Field_next p) = Ret (next d).
Proof. intros Hp. simpl. unfold deref. by rewrite Hp. Qed.

Lemma load_field_typenext vs (h : heap) p d :
  h !! p = Some d -> load vs h (Field_typenext p) = Ret (typenext d).
Proof. intros Hp. simpl. unfold deref. by rewrite Hp. Qed.

Lemma remove_find_type_spec vs h device l1 l2 : forall fuel typedevptr cur,
  load vs h typedevptr = Ret cur ->
  heap_view h l1 -> linked_by typenext cur (l1 ++ l2) ->
  fst <$> head l2 = Some device -> device ∉ l1.*1 ->
  (length l1 < fuel)%nat ->
  remove_find_type fuel vs h typedevptr device =
  Ret (end_of Field_typenext typedevptr l1).
Proof.
  induction l1 as [|[p d] l1 IH]; intros fuel typedevptr cur Hload Hv Hl Hd Hnot Hf.
  - destruct l2 as [|y l2]; [done|]. simpl in Hd, Hl. destruct Hl as [-> _].
    destruct fuel; simpl; rewrite Hload; simpl; by rewrite bool_decide_eq_true_2.
  - destruct Hl as [-> Hl]. apply heap_view_cons in Hv as [Hp Hv].
    destruct fuel as [|fuel]; [simpl in Hf; lia|].
    simpl in *. rewrite Hload. simpl.
    rewrite bool_decide_eq_false_2.
    + rewrite end_of_cons. simpl.
      apply (IH fuel (Field_typenext p) (typenext d)); [|done|done|done| |lia].
      * by apply load_field_typenext.
      * intros Hin. apply Hnot. by right.
    + intros [= ->]. apply Hnot. by left.
Qed.

Lemma NoDup_app_fst (l1 l2 : view) :
  NoDup (l1 ++ l2).*1 ->
  NoDup l1.*1 /\ (forall p, p ∈ l1.*1 -> p ∉ l2.*1) /\ NoDup l2.*1.
Proof. rewrite fmap_app. apply NoDup_app. Qed.

Lemma remove_unlink_spec h listhead pre x post ty :
  registry_ok h listhead (pre ++ x :: post) ->
  type x.2 = ty -> ty <> DEVICE_TYPE_WILDCARD ->
  remove_unlink (mk_vars listhead None) h (end_of Field_next Var_listhead pre) x.1 ty =
  Ret (match pre with [] => next x.2 | _ => listhead end,
       remove_heap (fst <$> last (filter (of_type ty) pre)) (fst <$> last pre) x h).
Proof.
  intros [Hv Hl Ht Hnd] Hx Hty.
  apply NoDup_app_fst in Hnd as Hnd'. destruct Hnd' as (Hnd1 & Hnd12 & Hnd2).
  rewrite fmap_cons in Hnd2. apply NoDup_cons in Hnd2 as [Hx2 Hnd2].
  assert (Hxpre : x.1 ∉ pre.*1).
  { intros Hin. apply (Hnd12 _ Hin). rewrite fmap_cons. by left. }
  assert (Hvx : h !! x.1 = Some x.2).
  { destruct x as [p d]. apply (heap_view_elem h (pre ++ (p, d) :: post)); [done|].
    apply elem_of_app. right. by left. }
  assert (Hvpre : heap_view h pre).
  { unfold heap_view in *. by apply Forall_app in Hv as [Hv _]. }
  assert (Hfilter : filter (of_type ty) (pre ++ x :: post) =
                    filter (of_type ty) pre ++ x :: filter (of_type ty) post).
  { rewrite filter_app, filter_cons_True; done. }
  pose proof (typelinks_chain ty _ Ht) as Hchain. rewrite Hfilter in Hchain.
  assert (Hxq : x.1 ∉ (filter (of_type ty) pre).*1).
  { intros Hin. apply Hxpre. apply list_elem_of_fmap in Hin as [y [-> Hy]].
    apply list_elem_of_filter in Hy as [_ Hy]. apply list_elem_of_fmap. by exists y. }
  unfold remove_unlink. cbn [v_listhead].
  rewrite (device_list_first_spec ty h listhead (pre ++ x :: post)) by done.
  cbn [bind]. rewrite matching_concrete by done.
  fold (first_of_type ty (pre ++ x :: post)).
  set (vs1 := mk_vars listhead (first_of_type ty (pre ++ x :: post))).
  rewrite (remove_find_type_spec vs1 h x.1 (filter (of_type ty) pre)
             (x :: filter (of_type ty) post) _ _ (first_of_type ty (pre ++ x :: post))).
  2: done.
  2: by apply heap_view_filter.
  2: done.
  2: done.
  2: done.
  2: { pose proof (heap_view_fuel h _ Hv Hnd) as Hf. rewrite length_app in Hf.
       pose proof (filter_length_le (of_type ty) pre). lia. }
  cbn [bind].
  rewrite (load_end_of vs1 h typenext Field_typenext (filter (of_type ty) pre)
             (x :: filter (of_type ty) post) (load_field_typenext vs1 h)
             Var_typedevice (first_of_type ty (pre ++ x :: post))).
  2: done.
  2: by apply heap_view_filter.
  2: done.
  cbn [bind head fmap option_fmap option_map].
  rewrite assert_true by (by apply bool_decide_eq_true_2). cbn [bind].
  unfold deref at 1. rewrite Hvx. cbn [bind].
  unfold remove_heap, end_of.
  assert (Hstep : forall vs' h2,
    h2 !! x.1 = Some x.2 ->
    (forall p, p ∈ pre.*1 -> is_Some (h2 !! p)) ->
    (do d' <- deref h2 x.1;
     do st3 <- store vs' h2
                 match last pre with Some y => Field_next y.1 | None => Var_listhead end
                 (next d');
     Ret (v_listhead st3.1, delete x.1 st3.2)) =
    Ret (match pre with [] => next x.2 | _ => v_listhead vs' end,
         delete x.1 (alter_at (fun d => set_next d (next x.2)) (fst <$> last pre) h2))).
  { intros vs' h2 Hx' Hpre'. unfold deref. rewrite Hx'. cbn [bind].
    destruct (last pre) as [y|] eqn:Lr.
    - rewrite store_next_spec.
      + cbn [bind fst snd fmap option_fmap option_map alter_at]. by destruct pre.
      + apply Hpre'. apply list_elem_of_fmap. exists y. split; [done|by apply last_elem].
    - apply last_None in Lr. subst pre. done. }
  destruct (last (filter (of_type ty) pre)) as [xq|] eqn:Lq.
  - assert (Hxq' : xq ∈ pre).
    { by apply last_elem, list_elem_of_filter in Lq as [_ Lq]. }
    rewrite store_typenext_spec.
    2: { exists xq.2. destruct xq. by apply (heap_view_elem h pre). }
    cbn [bind fst snd fmap option_fmap option_map alter_at].
    rewrite Hstep; [done| |].
    + rewrite lookup_alter_ne; [done|]. intros E. apply Hxpre. rewrite <- E.
      apply list_elem_of_fmap. by exists xq.
    + intros p Hp. apply lookup_alter_is_Some.
      apply list_elem_of_fmap in Hp as [y [-> Hy]].
      exists y.2. destruct y. by apply (heap_view_elem h pre).
  - cbn [store bind fst snd fmap option_fmap option_map alter_at].
    rewrite Hstep; [done|done|].
    intros p Hp. apply list_elem_of_fmap in Hp as [y [-> Hy]].
    exists y.2. destruct y. by apply (heap_view_elem h pre).
Qed.

Lemma remove_view_fst ty pre x post : (remove_view ty pre x post).*1 = pre.*1 ++ post.*1.
Proof.
  unfold remove_view. rewrite fmap_app. f_equal.
  rewrite <- list_fmap_compose. apply list_fmap_ext. by intros i [p d] _.
Qed.

Lemma remove_view_unlinked ty pre x post :
  (fun y => unlinked y.2) <$> remove_view ty pre x post =
  ((fun y => unlinked y.2) <$> pre) ++ ((fun y => unlinked y.2) <$> post).
Proof.
  unfold remove_view. rewrite fmap_app. f_equal.
  rewrite <- list_fmap_compose. apply list_fmap_ext. intros i y _. simpl.
  apply remove_patch_unlinked.
Qed.

Lemma remove_registry_ok h listhead pre x post ty :
  registry_ok h listhead (pre ++ x :: post) -> type x.2 = ty ->
  registry_ok
    (remove_heap (fst <$> last (filter (of_type ty) pre)) (fst <$> last pre) x h)
    (match pre with [] => next x.2 | _ => listhead end)
    (remove_view ty pre x post).
Proof.
  intros [Hv Hl Ht Hnd] Hx.
  apply NoDup_app_fst in Hnd as Hnd'. destruct Hnd' as (Hnd1 & Hnd12 & Hnd2).
  rewrite fmap_cons in Hnd2. apply NoDup_cons in Hnd2 as [Hx2 Hnd2].
  assert (Hxpre : x.1 ∉ pre.*1).
  { intros Hin. apply (Hnd12 _ Hin). rewrite fmap_cons. by left. }
  unfold heap_view in Hv. apply Forall_app in Hv as [Hvpre Hvx].
  apply Forall_cons in Hvx as [Hvx Hvpost].
  set (q := fst <$> last (filter (of_type ty) pre)).
  set (r := fst <$> last pre).
  assert (Hq : forall p, q = Some p -> p ∈ pre.*1).
  { intros p Hq. apply last_in_fst in Hq.
    apply list_elem_of_fmap in Hq as [y [-> Hy]].
    apply list_elem_of_filter in Hy as [_ Hy]. apply list_elem_of_fmap. by exists y. }
  assert (Hr : forall p, r = Some p -> p ∈ pre.*1).
  { intros p Hr. by apply last_in_fst in Hr. }
  pose proof (typelinks_ok_app pre (x :: post) Ht) as [Htx Htpost].
  split.
  - unfold remove_view. fold q r. apply Forall_app. split.
    + apply Forall_fmap. rewrite Forall_forall in Hvpre.
      apply Forall_forall. intros y Hy. simpl.
      unfold remove_heap. rewrite lookup_delete_ne.
      * rewrite !lookup_alter_at, (Hvpre y Hy). unfold remove_patch. simpl.
        by destruct (decide (q = Some y.1)), (decide (r = Some y.1)).
      * intros E. apply Hxpre. rewrite E. apply list_elem_of_fmap. by exists y.
    + rewrite Forall_forall in Hvpost.
      apply Forall_forall. intros y Hy.
      assert (Hy1 : y.1 ∈ post.*1) by (apply list_elem_of_fmap; by exists y).
      unfold remove_heap. rewrite lookup_delete_ne.
      * rewrite !lookup_alter_at. rewrite !decide_False; [by apply Hvpost|..].
        -- intros E. apply (Hnd12 y.1); [by apply Hq|]. rewrite fmap_cons. by right.
        -- intros E. apply (Hnd12 y.1); [by apply Hr|]. rewrite fmap_cons. by right.
      * intros E. apply Hx2. by rewrite E.
  - unfold remove_view. fold q r. destruct pre as [|y pre].
    + simpl in *. by destruct Hl as [_ Hl].
    + by apply remove_linked.
  - unfold remove_view. fold q r.
    apply (remove_typelinks ty); [done|by rewrite <- Hx|done|done| |done].
    by left.
  - rewrite remove_view_fst. apply NoDup_app. split; [done|]. split; [|done].
    intros p Hp Hp'. apply (Hnd12 p Hp). rewrite fmap_cons. by right.
Qed.

(** A successful remove: the first record with the pair goes. *)
Lemma device_list_remove_ok h listhead pre x post ty tg :
  registry_ok h listhead (pre ++ x :: post) ->
  ty <> NULL_TYPE -> ty <> DEVICE_TYPE_WILDCARD ->
  Forall (fun y => ~ has_key ty tg y) pre -> has_key ty tg x ->
  exists listhead' h',
    device_list_remove listhead h ty tg = (Ret tt, (listhead', h')) /\
    registry_ok h' listhead' (remove_view ty pre x post).
Proof.
  intros Hok Hnull Hty Hno Hx. pose proof Hok as [Hv Hl Ht Hnd].
  unfold device_list_remove.
  rewrite assert_true by (by apply bool_decide_eq_true_2). cbn [bind].
  rewrite (remove_find_spec _ ty tg h pre x post _ _ listhead);
    [|done|done|done|by apply heap_view_fuel|done|done].
  cbn [bind].
  rewrite (load_end_of _ h next Field_next pre (x :: post)
             (load_field_next _ h) Var_listhead listhead); [|done| |done].
  2: { unfold heap_view in *. by apply Forall_app in Hv as [Hv _]. }
  cbn [bind head fmap option_fmap option_map].
  destruct Hx as [Hx1 Hx2].
  rewrite (remove_unlink_spec h listhead pre x post ty) by done.
  eexists _, _. split; [reflexivity|].
  by apply remove_registry_ok.
Qed.

(** A remove of a pair that no record has stops with the fatal error,
    with the list head and the heap as they were. *)
Lemma device_list_remove_absent h listhead l ty tg :
  registry_ok h listhead l -> ty <> NULL_TYPE ->
  Forall (fun x => ~ has_key ty tg x) l ->
  device_list_remove listhead h ty tg =
  (Fatal (Nonexistent_device ty tg), (listhead, h)).
Proof.
  intros [Hv Hl Ht Hnd] Hnull Hno. unfold device_list_remove.
  rewrite assert_true by (by apply bool_decide_eq_true_2). cbn [bind].
  rewrite (remove_find_absent _ ty tg h l _ _ listhead);
    [|done|done|done|by apply heap_view_fuel|done].
  cbn [bind].
  rewrite (load_end_of _ h next Field_next l []
             (load_field_next _ h) Var_listhead listhead); [done|done|done|].
  by rewrite app_nil_r.
Qed.

(** ** Sequences of adds and removes *)

Lemma key_of_unlinked x y : unlinked x.2 = unlinked y.2 -> key_of x = key_of y.
Proof.
  intros E. unfold key_of.
  pose proof (f_equal type E) as E1. pose proof (f_equal tag E) as E2.
  simpl in E1, E2. by rewrite E1, E2.
Qed.

Lemma add_view_keys ty tg device l :
  key_of <$> add_view ty device (added_device ty tg) l = (key_of <$> l) ++ [(ty, tg)].
Proof.
  unfold add_view. rewrite fmap_app. f_equal.
  rewrite <- list_fmap_compose. apply list_fmap_ext. intros i x _. simpl.
  apply key_of_unlinked. apply add_patch_unlinked.
Qed.

Lemma has_key_key_of ty tg x : has_key ty tg x <-> key_of x = (ty, tg).
Proof.
  unfold has_key, key_of. split; [by intros [-> ->]|]. by intros [= -> ->].
Qed.

Lemma remove_view_keys ty tg pre x post :
  Forall (fun y => ~ has_key ty tg y) pre -> has_key ty tg x ->
  key_of <$> remove_view ty pre x post =
  remove_key (ty, tg) (key_of <$> (pre ++ x :: post)).
Proof.
  intros Hpre Hx. unfold remove_view. rewrite !fmap_app.
  rewrite <- list_fmap_compose.
  rewrite (list_fmap_ext _ key_of pre);
    [|intros i y _; simpl; apply key_of_unlinked, remove_patch_unlinked].
  induction pre as [|y pre IH]; simpl.
  - apply has_key_key_of in Hx. by rewrite decide_True.
  - apply Forall_cons in Hpre as [Hy Hpre]. rewrite decide_False.
    + f_equal. by apply IH.
    + intros E. by apply Hy, has_key_key_of.
Qed.

(** The first record with a pair, if there is one. *)
Lemma split_first_key ty tg (l : view) :
  Forall (fun x => ~ has_key ty tg x) l \/
  exists pre x post, l = pre ++ x :: post /\
    Forall (fun y => ~ has_key ty tg y) pre /\ has_key ty tg x.
Proof.
  induction l as [|y l IH]; [by left|].
  destruct (decide (has_key ty tg y)) as [Hy|Hy].
  - right. exists [], y, l. split; [done|]. split; [by apply Forall_nil|done].
  - destruct IH as [IH|(pre & x & post & -> & Hpre & Hx)].
    + left. by apply Forall_cons.
    + right. exists (y :: pre), x, post.
      split; [done|]. split; [by apply Forall_cons|done].
Qed.

Lemma Forall_not_Exists_key ty tg (l : view) :
  Forall (fun x => ~ has_key ty tg x) l -> Exists (has_key ty tg) l -> False.
Proof.
  intros Hall Hex. apply Exists_exists in Hex as [x [Hin Hx]].
  rewrite Forall_forall in Hall. by apply (Hall x).
Qed.

(** Types an add or a remove may be called with. *)
Definition valid_type (ty : device_type) : Prop :=
  ty <> NULL_TYPE /\ ty <> DEVICE_TYPE_WILDCARD.

Lemma run_ops_registry_ok ops : forall listhead h l listhead' h',
  Forall (fun o => valid_type (op_type o)) ops ->
  registry_ok h listhead l ->
  run_ops ops listhead h = (Ret tt, (listhead', h')) ->
  exists l', registry_ok h' listhead' l' /\
    key_of <$> l' = insertion_order ops (key_of <$> l).
Proof.
  induction ops as [|o ops IH]; intros listhead h l listhead' h' Hvalid Hok Hrun.
  - simpl in Hrun. injection Hrun as <- <-. by exists l.
  - apply Forall_cons in Hvalid as [[Hnull Hwild] Hvalid].
    destruct o as [ty tg|ty tg]; simpl in Hnull, Hwild, Hrun |- *.
    + destruct (split_first_key ty tg l) as [Hno|(pre & x & post & -> & Hpre & Hx)].
      * destruct (device_list_add_ok h listhead l ty tg Hok Hnull Hwild Hno)
          as (lh1 & h1 & Hadd & Hok1).
        rewrite Hadd in Hrun.
        destruct (IH _ _ _ _ _ Hvalid Hok1 Hrun) as (l' & Hok' & Hkeys).
        exists l'. split; [done|]. by rewrite Hkeys, add_view_keys.
      * rewrite (device_list_add_duplicate h listhead _ ty tg Hok Hnull) in Hrun;
          [done|]. apply Exists_app. right. by apply Exists_cons_hd.
    + destruct (split_first_key ty tg l) as [Hno|(pre & x & post & -> & Hpre & Hx)].
      * by rewrite (device_list_remove_absent h listhead l ty tg Hok Hnull Hno) in Hrun.
      * destruct (device_list_remove_ok h listhead pre x post ty tg Hok Hnull Hwild Hpre Hx)
          as (lh1 & h1 & Hrem & Hok1).
        rewrite Hrem in Hrun.
        destruct (IH _ _ _ _ _ Hvalid Hok1 Hrun) as (l' & Hok' & Hkeys).
        exists l'. split; [done|]. by rewrite Hkeys, (remove_view_keys ty tg).
Qed.

Lemma registry_ok_empty : registry_ok ∅ None [].
Proof. split; [by apply Forall_nil|done|done|by apply NoDup_nil]. Qed.

Lemma key_at_view h (l : view) :
  heap_view h l -> key_at h <$> l.*1 = Some <$> (key_of <$> l).
Proof.
  intros Hv. induction l as [|x l IH]; [done|].
  apply heap_view_cons in Hv as [Hx Hv]. rewrite !fmap_cons. f_equal; [|by apply IH].
  unfold key_at. by rewrite Hx.
Qed.

Lemma key_of_filter ty (l : view) :
  key_of <$> filter (of_type ty) l = filter (fun k => k.1 = ty) (key_of <$> l).
Proof.
  induction l as [|x l IH]; [done|].
  rewrite fmap_cons, !filter_cons. unfold of_type at 1. simpl.
  destruct (decide (type x.2 = ty)); [rewrite fmap_cons|]; by rewrite IH.
Qed.

(** ** The registry claims *)

Lemma assert_debug (b : bool) : (MAME_DEBUG = true -> b = true) -> assert b = Ret tt.
Proof.
  intros Hb. unfold assert. destruct MAME_DEBUG; [|done].
  by rewrite Hb.
Qed.

Lemma assert_not_null ty :
  (MAME_DEBUG = true -> ty <> NULL_TYPE) ->
  assert (bool_decide (ty <> NULL_TYPE)) = Ret tt.
Proof.
  intros Hty. apply assert_debug. intros Hd. apply bool_decide_eq_true_2. by apply Hty.
Qed.

Lemma filter_nil_intro {A : Type} (Q : A -> Prop) `{!forall x, Decision (Q x)} (l : list A) :
  (forall x, x ∈ l -> ~ Q x) -> filter Q l = [].
Proof.
  induction l as [|x l IH]; intros Hno; [done|].
  rewrite filter_cons_False by (apply Hno; by left).
  apply IH. intros y Hy. apply Hno. by right.
Qed.

Lemma add_patch_tag q r device x : tag (add_patch q r device x).2 = tag x.2.
Proof.
  unfold add_patch. simpl.
  by destruct (decide (q = Some x.1)), (decide (r = Some x.1)).
Qed.

Lemma matching_added ty tg device l :
  ty <> DEVICE_TYPE_WILDCARD ->
  Forall (fun x => ~ has_key ty tg x) l ->
  filter (fun x => tag x.2 = tg)
    (matching ty (add_view ty device (added_device ty tg) l)) =
  [(device, added_device ty tg)].
Proof.
  intros Hty Hno. rewrite matching_concrete by done. unfold add_view.
  rewrite !filter_app.
  rewrite (filter_nil_intro (fun x => tag x.2 = tg)).
  - rewrite filter_cons_True by done. rewrite filter_cons_True by done. done.
  - intros y Hy Htag. apply list_elem_of_filter in Hy as [Hy1 Hy2].
    apply list_elem_of_fmap in Hy2 as [x [-> Hx]].
    rewrite Forall_forall in Hno. apply (Hno x Hx).
    unfold of_type in Hy1. rewrite add_patch_type in Hy1. rewrite add_patch_tag in Htag.
    by split.
Qed.

(** C4.  In a well-formed registry whose length fits an int:
    (a) an add of a valid (type, tag) pair that no record has returns a
    record, and [device_list_find_by_tag] with the same type and tag on
    the registry the add leaves returns that record;
    (b) for a record [x] that is the first with a tag among the records
    matching a type, [device_list_index] returns the number of matching
    records before [x] in scan order, and both
    [device_list_find_by_tag] and [device_list_find_by_index] of that
    index return [x];
    (c) [device_list_find_by_index] of an index that is not below
    [device_list_items] returns NULL. *)
Theorem add_find_index_agree h listhead l :
  registry_ok h listhead l -> Z.of_nat (length l) <= INT_MAX ->
  (forall ty tg,
     valid_type ty -> Forall (fun x => ~ has_key ty tg x) l ->
     exists device listhead' h',
       device_list_add listhead h ty tg = (Ret device, (listhead', h')) /\
       device_list_find_by_tag h' listhead' ty tg = Ret (Some device)) /\
  (forall ty tg pre x post,
     (MAME_DEBUG = true -> ty <> NULL_TYPE) ->
     l = pre ++ x :: post ->
     device_matches_type x.2 ty = true -> tag x.2 = tg ->
     Forall (fun y => tag y.2 <> tg) (matching ty pre) ->
     device_list_index h listhead ty tg = Ret (Z.of_nat (length (matching ty pre))) /\
     device_list_find_by_tag h listhead ty tg = Ret (Some x.1) /\
     device_list_find_by_index h listhead ty (Z.of_nat (length (matching ty pre))) =
       Ret (Some x.1)) /\
  (forall ty index,
     (MAME_DEBUG = true -> ty <> NULL_TYPE) ->
     exists items,
       device_list_items h listhead ty = Ret items /\
       (items <= index <= INT_MAX ->
        device_list_find_by_index h listhead ty index = Ret None)).
Proof.
  intros Hok Hlen. pose proof Hok as [Hv Hl Ht Hnd].
  pose proof (heap_view_fuel h l Hv Hnd) as Hfuel.
  assert (Hmax : 0 <= INT_MAX) by (unfold INT_MAX; lia).
  assert (Hmin : INT_MIN <= 0) by (unfold INT_MIN; lia).
  split; [|split].
  - intros ty tg [Hnull Hwild] Hno.
    destruct (device_list_add_ok h listhead l ty tg Hok Hnull Hwild Hno)
      as (lh1 & h1 & Hadd & [Hv1 Hl1 Ht1 Hnd1]).
    exists (malloc_or_die (dom h)), lh1, h1. split; [done|].
    unfold device_list_find_by_tag.
    rewrite (device_list_find_by_tag_loop_spec ty tg h1 _ _ _ Hv1 Hl1)
      by (by apply heap_view_fuel).
    by rewrite matching_added.
  - intros ty tg pre x post Hdbg -> Hx Htag Hpre.
    assert (Hmatch : matching ty (pre ++ x :: post) =
                     matching ty pre ++ x :: matching ty post).
    { by rewrite matching_app, matching_cons, Hx. }
    pose proof (matching_length ty pre) as Hmpre.
    rewrite length_app in Hlen. simpl in Hlen.
    split; [|split].
    + unfold device_list_index. rewrite assert_not_null by done. cbn [bind].
      rewrite (device_list_index_loop_found ty tg h pre x post _ listhead 0);
        [done|done|done|done|done|done|done|done|lia].
    + unfold device_list_find_by_tag.
      rewrite (device_list_find_by_tag_loop_spec ty tg h _ _ _ Hv Hl) by done.
      rewrite Hmatch, filter_app.
      rewrite (filter_nil_intro (fun y => tag y.2 = tg) (matching ty pre)).
      * by rewrite filter_cons_True.
      * rewrite Forall_forall in Hpre. intros y Hy. by apply Hpre.
    + unfold device_list_find_by_index. rewrite assert_not_null by done. cbn [bind].
      rewrite assert_true by (apply Z.leb_le; lia). cbn [bind].
      rewrite (device_list_find_by_index_loop_spec ty h _ _ _ _ Hv Hl) by (done || lia).
      rewrite Hmatch, Nat2Z.id. by rewrite list_lookup_middle.
  - intros ty index Hdbg. exists (Z.of_nat (length (matching ty l))). split.
    + unfold device_list_items. rewrite assert_not_null by done. cbn [bind].
      by rewrite (device_list_items_loop_spec ty h l _ listhead 0).
    + intros Hi. unfold device_list_find_by_index.
      rewrite assert_not_null by done. cbn [bind].
      rewrite assert_true by (apply Z.leb_le; lia). cbn [bind].
      rewrite (device_list_find_by_index_loop_spec ty h _ _ _ _ Hv Hl) by (done || lia).
      rewrite lookup_ge_None_2 by lia. done.
Qed.

(** C5.  In a well-formed registry that has a record with a type and a
    tag, [device_list_add] with that type and tag ends in the fatal
    "duplicate device" error, and the list head and the heap it leaves
    are the ones it was called with: no record was allocated or linked,
    and the traversals, by wildcard and by type, still visit the records
    the registry had, in their order. *)
Theorem add_duplicate_leaves_registry h listhead l ty tg :
  registry_ok h listhead l -> ty <> NULL_TYPE ->
  Exists (has_key ty tg) l ->
  exists listhead' h',
    device_list_add listhead h ty tg =
      (Fatal (Duplicate_device ty tg), (listhead', h')) /\
    listhead' = listhead /\ h' = h /\
    traverse h' listhead' DEVICE_TYPE_WILDCARD = Ret l.*1 /\
    forall T, T <> DEVICE_TYPE_WILDCARD ->
      traverse h' listhead' T = Ret (filter (of_type T) l).*1.
Proof.
  intros Hok Hnull Hex. exists listhead, h.
  split; [by apply (device_list_add_duplicate h listhead l)|].
  split; [done|]. split; [done|]. split.
  - by apply traverse_wildcard.
  - intros T HT. by apply traverse_concrete.
Qed.

(** C6.  After a sequence of adds and removes with valid types that all
    returned, starting from the empty registry, traversal with the
    wildcard visits the devices in insertion order, each once, and
    traversal with a type T visits the devices of type T, in their
    relative insertion order; what a traversal by type visits is a
    sublist of what the traversal by wildcard visits. *)
Theorem traversal_in_insertion_order ops listhead h :
  Forall (fun o => valid_type (op_type o)) ops ->
  run_ops ops None ∅ = (Ret tt, (listhead, h)) ->
  exists locs,
    traverse h listhead DEVICE_TYPE_WILDCARD = Ret locs /\
    NoDup locs /\
    key_at h <$> locs = Some <$> insertion_order ops [] /\
    forall T, T <> DEVICE_TYPE_WILDCARD ->
      exists locsT,
        traverse h listhead T = Ret locsT /\
        locsT `sublist_of` locs /\
        key_at h <$> locsT =
          Some <$> filter (fun k => k.1 = T) (insertion_order ops []).
Proof.
  intros Hvalid Hrun.
  destruct (run_ops_registry_ok ops None ∅ [] listhead h Hvalid registry_ok_empty Hrun)
    as (l & Hok & Hkeys).
  simpl in Hkeys. pose proof Hok as [Hv Hl Ht Hnd].
  exists l.*1. split; [by apply traverse_wildcard|]. split; [done|].
  split; [by rewrite key_at_view, Hkeys|].
  intros T HT. exists (filter (of_type T) l).*1.
  split; [by apply traverse_concrete|]. split.
  - apply fmap_sublist, sublist_filter.
  - rewrite key_at_view by (by apply heap_view_filter).
    by rewrite key_of_filter, Hkeys.
Qed.

(** ** The lifecycle loops on a chain *)

Lemma chain_of_view h cur (l : view) :
  heap_view h l -> linked_by next cur l -> chain h cur l.*1.
Proof.
  revert cur. induction l as [|x l IH]; intros cur Hv Hl; [done|].
  destruct Hl as [-> Hl]. apply heap_view_cons in Hv as [Hx Hv].
  simpl. split; [done|]. exists x.2. split; [done|]. by apply IH.
Qed.

Lemma registry_machine_ok s l :
  registry_ok (devices s) (devicelist s) l -> machine_ok s l.*1.
Proof. intros [Hv Hl _ Hnd]. split; [by apply chain_of_view|done]. Qed.

Lemma chain_live h cur locs p : chain h cur locs -> p ∈ locs -> is_Some (h !! p).
Proof.
  revert cur. induction locs as [|q locs IH]; intros cur Hc Hp; [by apply elem_of_nil in Hp|].
  destruct Hc as [-> (d & Hd & Hc)].
  apply elem_of_cons in Hp as [->|Hp]; [by exists d|]. by apply (IH (next d)).
Qed.

Lemma chain_length h cur locs :
  chain h cur locs -> NoDup locs -> (length locs < fuel_of h)%nat.
Proof.
  intros Hc Hnd. unfold fuel_of.
  rewrite <- (size_dom h), <- (size_list_to_set (C := gset loc) locs) by done.
  apply Nat.lt_succ_r, subseteq_size. intros p Hp.
  apply elem_of_list_to_set in Hp. apply elem_of_dom. by apply (chain_live h cur locs).
Qed.

(** A write that keeps the [next] field of a record keeps the chains. *)
Lemma chain_update h cur locs p d d' :
  h !! p = Some d -> next d' = next d ->
  chain h cur locs -> chain (<[p := d']> h) cur locs.
Proof.
  intros Hp Hnext. revert cur. induction locs as [|q locs IH]; intros cur Hc; [done|].
  destruct Hc as [-> (dq & Hq & Hc)]. simpl. split; [done|].
  destruct (decide (p = q)) as [->|Hne].
  - exists d'. rewrite lookup_insert_eq. split; [done|].
    rewrite Hnext. rewrite Hp in Hq. injection Hq as ->. by apply IH.
  - exists dq. rewrite lookup_insert_ne by done. split; [done|]. by apply IH.
Qed.

Lemma start_alloc_loop_locs locs : forall fuel s cur devcount,
  chain (devices s) cur locs -> (length locs < fuel)%nat ->
  start_alloc_loop fuel s cur devcount = alloc_locs s locs devcount.
Proof.
  induction locs as [|p locs IH]; intros fuel s cur devcount Hc Hf.
  - simpl in Hc. subst cur. by destruct fuel.
  - destruct Hc as [-> (d & Hd & Hc)].
    destruct fuel as [|fuel]; [simpl in Hf; lia|].
    simpl. rewrite Hd. unfold alloc_step.
    destruct (do _ <- start_asserts s d; call_type (type d) DEVINFO_INT_TOKEN_BYTES)
      as [info_i| | |]; try done.
    destruct (to_UINT32 info_i =? 0); [done|].
    apply IH; [|simpl in Hf; lia].
    simpl. by apply (chain_update _ _ _ p d).
Qed.

Lemma start_sweep_locs locs : forall fuel s cur numstarted,
  chain (devices s) cur locs -> (length locs < fuel)%nat ->
  start_sweep fuel s cur numstarted = sweep_locs s locs numstarted.
Proof.
  induction locs as [|p locs IH]; intros fuel s cur numstarted Hc Hf.
  - simpl in Hc. subst cur. by destruct fuel.
  - destruct Hc as [-> (d & Hd & Hc)].
    destruct fuel as [|fuel]; [simpl in Hf; lia|].
    simpl. rewrite Hd. unfold sweep_step.
    match goal with |- context [match ?e with Ret _ => _ | _ => _ end] =>
      destruct e as [ok| | |] end; try done.
    destruct ok.
    + apply IH; [|simpl in Hf; lia].
      simpl. by apply (chain_update _ _ _ p d).
    + apply IH; [done|simpl in Hf; lia].
Qed.

Lemma stop_loop_locs locs : forall fuel s cur,
  chain (devices s) cur locs -> (length locs < fuel)%nat ->
  stop_loop fuel s cur = stop_locs s locs.
Proof.
  induction locs as [|p locs IH]; intros fuel s cur Hc Hf.
  - simpl in Hc. subst cur. by destruct fuel.
  - destruct Hc as [-> (d & Hd & Hc)].
    destruct fuel as [|fuel]; [simpl in Hf; lia|].
    simpl. rewrite Hd. unfold stop_step.
    match goal with |- context [match ?e with Ret _ => _ | _ => _ end] =>
      destruct e as [stop| | |] end; try done.
    assert (Hev : forall s0 e, devices (with_event s0 e) = devices s0) by done.
    destruct (token d) as [tok|].
    + unfold free.
      destruct stop; simpl; destruct (tokens s !! tok); try done;
        (apply IH; [|simpl in Hf; lia]); simpl; by apply (chain_update _ _ _ p d).
    + destruct stop; simpl;
        (apply IH; [|simpl in Hf; lia]); simpl; by apply (chain_update _ _ _ p d).
Qed.

(** ** What the lifecycle loops keep *)

Lemma fields_kept_refl erase h : fields_kept erase h h.
Proof. done. Qed.

Lemma fields_kept_trans erase h1 h2 h3 :
  fields_kept erase h1 h2 -> fields_kept erase h2 h3 -> fields_kept erase h1 h3.
Proof. intros H12 H23 p. by rewrite H12. Qed.

Lemma fields_kept_insert erase (h : heap) p d d' :
  h !! p = Some d -> erase d' = erase d -> fields_kept erase h (<[p := d']> h).
Proof.
  intros Hp He q. destruct (decide (p = q)) as [->|Hne].
  - rewrite lookup_insert_eq, Hp. simpl. by rewrite He.
  - by rewrite lookup_insert_ne.
Qed.

Lemma fields_kept_lookup erase h h' p d :
  fields_kept erase h h' -> h !! p = Some d ->
  exists d', h' !! p = Some d' /\ erase d' = erase d.
Proof.
  intros Hk Hp. specialize (Hk p). rewrite Hp in Hk. simpl in Hk.
  destruct (h' !! p) as [d'|]; [|done]. exists d'. split; [done|].
  by injection Hk.
Qed.

Lemma fields_kept_lookup_None erase h h' p :
  fields_kept erase h h' -> h !! p = None -> h' !! p = None.
Proof.
  intros Hk Hp. specialize (Hk p). rewrite Hp in Hk. simpl in Hk.
  by destruct (h' !! p).
Qed.

Lemma chain_kept erase h h' cur locs :
  (forall d d', erase d' = erase d -> next d' = next d) ->
  fields_kept erase h h' -> chain h cur locs -> chain h' cur locs.
Proof.
  intros Hnext Hk. revert cur. induction locs as [|p locs IH]; intros cur Hc; [done|].
  destruct Hc as [-> (d & Hd & Hc)]. simpl. split; [done|].
  destruct (fields_kept_lookup erase h h' p d Hk Hd) as (d' & Hd' & He).
  exists d'. split; [done|]. rewrite (Hnext d d' He). by apply IH.
Qed.

Lemma unstarted_next d d' : unstarted d' = unstarted d -> next d' = next d.
Proof. intros E. apply (f_equal next) in E. done. Qed.

Lemma no_runtime_next d d' : no_runtime d' = no_runtime d -> next d' = next d.
Proof. intros E. apply (f_equal next) in E. done. Qed.

(** A machine with other device records and nothing else changed. *)
Lemma sweep_step_kept s p d n r s' :
  devices s !! p = Some d -> sweep_step s p d n = (r, s') ->
  s' = with_devices s (devices s') /\
  fields_kept unstarted (devices s) (devices s').
Proof.
  intros Hp. unfold sweep_step.
  match goal with |- context [match ?e with Ret _ => _ | _ => _ end] =>
    destruct e as [ok| | |] end;
    try (intros [= <- <-]; split; [by destruct s|done]).
  destruct ok; intros [= <- <-].
  - simpl. split; [done|]. by apply (fields_kept_insert _ _ p d).
  - split; [by destruct s|done].
Qed.

Lemma with_devices_id s : with_devices s (devices s) = s.
Proof. by destruct s. Qed.

Lemma with_devices_trans s s1 s2 :
  s1 = with_devices s (devices s1) -> s2 = with_devices s1 (devices s2) ->
  s2 = with_devices s (devices s2).
Proof. intros -> ->. done. Qed.

Lemma start_sweep_kept fuel : forall s cur n r s',
  start_sweep fuel s cur n = (r, s') ->
  s' = with_devices s (devices s') /\
  fields_kept unstarted (devices s) (devices s').
Proof.
  induction fuel as [|fuel IH]; intros s cur n r s' Hrun.
  - simpl in Hrun. destruct cur; injection Hrun as <- <-;
      by rewrite with_devices_id.
  - simpl in Hrun.
    destruct cur as [p|]; [|injection Hrun as <- <-; by rewrite with_devices_id].
    destruct (devices s !! p) as [d|] eqn:Hd;
      [|injection Hrun as <- <-; by rewrite with_devices_id].
    destruct (sweep_step s p d n) as [r1 s1] eqn:Hstep.
    destruct (sweep_step_kept s p d n r1 s1 Hd Hstep) as [Hs1 Hk1].
    destruct r1 as [n1| | |]; try (injection Hrun as <- <-; done).
    destruct (IH _ _ _ _ _ Hrun) as [Hs' Hk'].
    split; [by apply (with_devices_trans s s1)|by apply (fields_kept_trans _ _ (devices s1))].
Qed.

Lemma start_while_kept fuel : forall s n devcount k r s' k',
  start_while fuel s n devcount k = (r, s', k') ->
  s' = with_devices s (devices s') /\
  fields_kept unstarted (devices s) (devices s').
Proof.
  induction fuel as [|fuel IH]; intros s n devcount k r s' k' Hrun.
  - simpl in Hrun. destruct (n <? devcount); injection Hrun as <- <- <-;
      by rewrite with_devices_id.
  - cbn [start_while] in Hrun.
    destruct (n <? devcount); [|injection Hrun as <- <- <-; by rewrite with_devices_id].
    destruct (start_sweep (fuel_of (devices s)) s (devicelist s) 0) as [r1 s1] eqn:Hsweep.
    destruct (start_sweep_kept _ _ _ _ _ _ Hsweep) as [Hs1 Hk1].
    destruct r1 as [n1| | |]; try (injection Hrun as <- <- <-; done).
    destruct (n1 =? n); [injection Hrun as <- <- <-; done|].
    destruct (IH _ _ _ _ _ _ _ Hrun) as [Hs' Hk'].
    split; [by apply (with_devices_trans s s1)|by apply (fields_kept_trans _ _ (devices s1))].
Qed.

(** ** The first loop of [device_list_start] *)

(** The token length of the type of a record, as the loop reads it. *)
Definition tb_of (d : device_config) : Z :=
  to_UINT32 (DEVINFO_INT_TOKEN_BYTES (device_get_info (type d))).

(** The record the first loop leaves for a device that got token [tok]. *)
Definition allocated (s : running_machine) (d : device_config) (tok : loc)
    : device_config :=
  set_runtime d (Some tok) (tb_of d) (Some (machine_addr s))
    (memory_region (tag d)) (memory_region_length (tag d)).

Lemma start_asserts_Ret s d (u : unit) : start_asserts s d = Ret u -> start_asserts s d = Ret tt.
Proof. by destruct u. Qed.

Lemma bind_Ret_inv {A B : Type} (m : result A) (k : A -> result B) b :
  bind m k = Ret b -> exists a, m = Ret a /\ k a = Ret b.
Proof. destruct m as [a| | |]; try done. intros Hk. by exists a. Qed.

Lemma call_type_Ret_inv {A : Type} ty (state : device_info -> A) a :
  call_type ty state = Ret a -> ty <> NULL_TYPE /\ a = state (device_get_info ty).
Proof.
  unfold call_type. destruct (decide (ty = NULL_TYPE)); [done|].
  intros [= <-]. done.
Qed.

Lemma alloc_step_Ret s p d n n' s' :
  alloc_step s p d n = (Ret n', s') ->
  start_asserts s d = Ret tt /\ type d <> NULL_TYPE /\ tb_of d <> 0 /\
  n' = int_add n 1 /\
  s' = with_devices
         (with_tokens s (<[malloc_or_die (dom (tokens s)) :=
                             replicate (Z.to_nat (tb_of d)) 0]> (tokens s)))
         (<[p := allocated s d (malloc_or_die (dom (tokens s)))]> (devices s)).
Proof.
  unfold alloc_step.
  destruct (do _ <- start_asserts s d; call_type (type d) DEVINFO_INT_TOKEN_BYTES)
    as [info_i| | |] eqn:E; try done.
  apply bind_Ret_inv in E as ([] & Hassert & Hcall).
  apply call_type_Ret_inv in Hcall as [Hty ->].
  fold (tb_of d). destruct (tb_of d =? 0) eqn:Htb; [done|].
  apply Z.eqb_neq in Htb. intros [= <- <-]. done.
Qed.

Lemma alloc_step_ok s p d n :
  start_asserts s d = Ret tt -> type d <> NULL_TYPE -> tb_of d <> 0 ->
  alloc_step s p d n =
  (Ret (int_add n 1),
   with_devices
     (with_tokens s (<[malloc_or_die (dom (tokens s)) :=
                         replicate (Z.to_nat (tb_of d)) 0]> (tokens s)))
     (<[p := allocated s d (malloc_or_die (dom (tokens s)))]> (devices s))).
Proof.
  intros Hassert Hty Htb. unfold alloc_step. rewrite Hassert. cbn [bind].
  rewrite call_type_ok by done. fold (tb_of d).
  apply Z.eqb_neq in Htb. by rewrite Htb.
Qed.

(** What the first loop has done when it returns. *)
Record alloc_post (s s' : running_machine) (locs : list loc) : Prop := mk_alloc_post {
  ap_frame : forall q, q ∉ locs -> devices s' !! q = devices s !! q;
  ap_tokens : forall t b, tokens s !! t = Some b -> tokens s' !! t = Some b;
  ap_device : forall p, p ∈ locs ->
    exists d tok,
      devices s !! p = Some d /\ devices s' !! p = Some (allocated s d tok) /\
      start_asserts s d = Ret tt /\ tb_of d <> 0 /\ type d <> NULL_TYPE /\
      tokens s !! tok = None /\ is_Some (tokens s' !! tok);
  ap_inj : forall p1 p2 d1 d2,
    p1 ∈ locs -> p2 ∈ locs ->
    devices s' !! p1 = Some d1 -> devices s' !! p2 = Some d2 ->
    token d1 = token d2 -> p1 = p2;
  ap_machine_addr : machine_addr s' = machine_addr s;
  ap_devicelist : devicelist s' = devicelist s;
  ap_events : events s' = events s;
  ap_reset_callbacks : reset_callbacks s' = reset_callbacks s;
  ap_exit_callbacks : exit_callbacks s' = exit_callbacks s
}.

Lemma alloc_locs_Ret locs : forall s n n' s',
  NoDup locs -> alloc_locs s locs n = (Ret n', s') -> alloc_post s s' locs.
Proof.
  induction locs as [|p locs IH]; intros s n n' s' Hnd Hrun.
  - simpl in Hrun. injection Hrun as <- <-.
    split; try done. intros p Hp. by apply elem_of_nil in Hp.
    intros p1 p2 d1 d2 Hp. by apply elem_of_nil in Hp.
  - apply NoDup_cons in Hnd as [Hp Hnd]. simpl in Hrun.
    destruct (devices s !! p) as [d|] eqn:Hd; [|done].
    destruct (alloc_step s p d n) as [r1 s1] eqn:Hstep.
    destruct r1 as [n1| | |]; try done.
    apply alloc_step_Ret in Hstep as (Hassert & Hty & Htb & -> & Hs1).
    set (tok := malloc_or_die (dom (tokens s))) in *.
    assert (Hfresh : tokens s !! tok = None).
    { apply not_elem_of_dom. apply malloc_or_die_fresh. }
    destruct (IH _ _ _ _ Hnd Hrun) as [F T D I M L E R X].
    assert (Hdev1 : forall q, q <> p -> devices s1 !! q = devices s !! q).
    { intros q Hq. rewrite Hs1. simpl. by rewrite lookup_insert_ne. }
    assert (Hdevp : devices s1 !! p = Some (allocated s d tok)).
    { rewrite Hs1. simpl. by rewrite lookup_insert_eq. }
    assert (Htok1 : forall t b, tokens s !! t = Some b -> tokens s1 !! t = Some b).
    { intros t b Ht. rewrite Hs1. simpl. rewrite lookup_insert_ne; [done|].
      intros <-. by rewrite Hfresh in Ht. }
    assert (Htokp : is_Some (tokens s1 !! tok)).
    { rewrite Hs1. simpl. rewrite lookup_insert_eq. by eexists. }
    assert (Hm1 : machine_addr s1 = machine_addr s) by (by rewrite Hs1).
    split.
    + intros q Hq. apply not_elem_of_cons in Hq as [Hq1 Hq2].
      rewrite F by done. by apply Hdev1.
    + intros t b Ht. by apply T, Htok1.
    + intros q Hq. apply elem_of_cons in Hq as [->|Hq].
      * exists d, tok. rewrite F by done.
        destruct Htokp as [b Hb]. repeat split; try done. exists b. by apply T.
      * destruct (D q Hq) as (dq & tq & Hq1 & Hq' & Ha & Htbq & Htyq & Htq & Htq').
        assert (q <> p) by (by intros ->).
        exists dq, tq. rewrite <- Hdev1 by done.
        assert (Hal : allocated s1 dq tq = allocated s dq tq).
        { unfold allocated. by rewrite Hm1. }
        rewrite <- Hal. repeat split; try done.
        -- unfold start_asserts in *. by rewrite <- Hm1.
        -- destruct (tokens s !! tq) as [b|] eqn:Hb; [|done].
           apply Htok1 in Hb. by rewrite Hb in Htq.
    + intros p1 p2 d1 d2 Hp1 Hp2 H1 H2 Htok.
      apply elem_of_cons in Hp1 as [->|Hp1]; apply elem_of_cons in Hp2 as [->|Hp2].
      * done.
      * exfalso. rewrite F in H1 by done. rewrite Hdevp in H1. injection H1 as <-.
        destruct (D p2 Hp2) as (dq & tq & _ & Hq' & _ & _ & _ & Htq & _).
        rewrite Hq' in H2. injection H2 as <-. simpl in Htok.
        injection Htok as ->. destruct Htokp as [b Hb]. by rewrite Hb in Htq.
      * exfalso. rewrite F in H2 by done. rewrite Hdevp in H2. injection H2 as <-.
        destruct (D p1 Hp1) as (dq & tq & _ & Hq' & _ & _ & _ & Htq & _).
        rewrite Hq' in H1. injection H1 as <-. simpl in Htok.
        injection Htok as <-. destruct Htokp as [b Hb]. by rewrite Hb in Htq.
      * by apply (I p1 p2 d1 d2).
    + by rewrite M.
    + rewrite L. by rewrite Hs1.
    + rewrite E. by rewrite Hs1.
    + rewrite R. by rewrite Hs1.
    + rewrite X. by rewrite Hs1.
Qed.

Lemma alloc_post_kept s s' locs :
  alloc_post s s' locs -> fields_kept no_runtime (devices s) (devices s').
Proof.
  intros [F T D I M L E R X] p. destruct (decide (p ∈ locs)) as [Hp|Hp].
  - destruct (D p Hp) as (d & tok & Hd & Hd' & _). by rewrite Hd, Hd'.
  - by rewrite F.
Qed.

(** What every device must satisfy for the first loop to pass it. *)
Definition alloc_ready (s : running_machine) (p : loc) : Prop :=
  exists d, devices s !! p = Some d /\ start_asserts s d = Ret tt /\
            type d <> NULL_TYPE /\ tb_of d <> 0.

Lemma alloc_locs_ok locs : forall s n,
  NoDup locs -> (forall p, p ∈ locs -> alloc_ready s p) ->
  INT_MIN <= n -> n + Z.of_nat (length locs) <= INT_MAX ->
  exists s', alloc_locs s locs n = (Ret (n + Z.of_nat (length locs)), s').
Proof.
  induction locs as [|p locs IH]; intros s n Hnd Hready Hlo Hhi.
  - exists s. simpl. do 2 f_equal. lia.
  - apply NoDup_cons in Hnd as [Hp Hnd].
    destruct (Hready p) as (d & Hd & Hassert & Hty & Htb); [by left|].
    simpl. rewrite Hd. rewrite alloc_step_ok by done.
    match goal with |- context [alloc_locs ?s1 locs ?n1] =>
      destruct (IH s1 n1) as [s' Hs'] end.
    + done.
    + intros q Hq. destruct (Hready q) as (dq & Hdq & Haq & Htyq & Htbq); [by right|].
      exists dq. simpl. rewrite lookup_insert_ne by (by intros ->). done.
    + simpl in Hhi. rewrite int_add_small by lia. lia.
    + simpl in Hhi. rewrite int_add_small by lia. lia.
    + exists s'. rewrite Hs'. simpl in Hhi. rewrite int_add_small by lia.
      do 2 f_equal. lia.
Qed.

Lemma device_list_start_alloc_locs s locs :
  machine_ok s locs ->
  device_list_start_alloc s =
  alloc_locs (add_exit_callback (add_reset_callback s Cb_device_list_reset)
                Cb_device_list_stop) locs 0.
Proof.
  intros [Hc Hnd]. unfold device_list_start_alloc.
  apply start_alloc_loop_locs; [done|]. simpl. by apply (chain_length _ (devicelist s)).
Qed.

Lemma device_list_stop_locs s locs :
  machine_ok s locs -> device_list_stop s = stop_locs s locs.
Proof.
  intros [Hc Hnd]. unfold device_list_stop.
  apply stop_loop_locs; [done|]. by apply (chain_length _ (devicelist s)).
Qed.

Lemma start_sweep_machine s locs n :
  machine_ok s locs ->
  start_sweep (fuel_of (devices s)) s (devicelist s) n = sweep_locs s locs n.
Proof.
  intros [Hc Hnd]. apply start_sweep_locs; [done|].
  by apply (chain_length _ (devicelist s)).
Qed.

(** ** The sweeps *)

Lemma sweep_step_started s p d n f :
  type d <> NULL_TYPE -> DEVINFO_FCT_START (device_get_info (type d)) = Some f ->
  started d = true ->
  sweep_step s p d n = (Ret (int_add n 1), s).
Proof.
  intros Hty Hf Hs. unfold sweep_step, device_get_info_fct.
  rewrite assert_true by (by apply bool_decide_eq_true_2). cbn [bind].
  rewrite call_type_ok by done. cbn [bind]. rewrite Hf.
  rewrite assert_true by (by apply bool_decide_eq_true_2). cbn [bind].
  rewrite Hs. simpl. by rewrite Hs.
Qed.

Lemma sweep_step_deferred s p d n f :
  type d <> NULL_TYPE -> DEVINFO_FCT_START (device_get_info (type d)) = Some f ->
  started d = false ->
  f (devicelist s) (devices s) p = DEVICE_START_MISSING_DEPENDENCIES ->
  sweep_step s p d n = (Ret (int_add n 0), s).
Proof.
  intros Hty Hf Hs Hcall. unfold sweep_step, device_get_info_fct.
  rewrite assert_true by (by apply bool_decide_eq_true_2). cbn [bind].
  rewrite call_type_ok by done. cbn [bind]. rewrite Hf.
  rewrite assert_true by (by apply bool_decide_eq_true_2). cbn [bind].
  rewrite Hs, Hcall. simpl. by rewrite Hs.
Qed.

Lemma sweep_step_ok s p d n f :
  type d <> NULL_TYPE -> DEVINFO_FCT_START (device_get_info (type d)) = Some f ->
  started d = false ->
  f (devicelist s) (devices s) p = DEVICE_START_OK ->
  sweep_step s p d n =
  (Ret (int_add n 1), with_devices s (<[p := set_started d true]> (devices s))).
Proof.
  intros Hty Hf Hs Hcall. unfold sweep_step, device_get_info_fct.
  rewrite assert_true by (by apply bool_decide_eq_true_2). cbn [bind].
  rewrite call_type_ok by done. cbn [bind]. rewrite Hf.
  rewrite assert_true by (by apply bool_decide_eq_true_2). cbn [bind].
  rewrite Hs, Hcall. done.
Qed.

Lemma sweep_locs_app l1 l2 : forall s n,
  sweep_locs s (l1 ++ l2) n =
  match sweep_locs s l1 n with
  | (Ret n', s') => sweep_locs s' l2 n'
  | (Fatal e, s') => (Fatal e, s')
  | (Fault, s') => (Fault, s')
  | (OutOfFuel, s') => (OutOfFuel, s')
  end.
Proof.
  induction l1 as [|p l1 IH]; intros s n; [done|].
  simpl. destruct (devices s !! p) as [d|]; [|done].
  destruct (sweep_step s p d n) as [[n1| | |] s1]; try done.
Qed.

(** A device with a start function that a sweep can pass over: it is
    started already, or its start function defers in this state. *)
Definition passes (s : running_machine) (p : loc) (b : bool) : Prop :=
  exists d f, devices s !! p = Some d /\ type d <> NULL_TYPE /\
    DEVINFO_FCT_START (device_get_info (type d)) = Some f /\
    started d = b /\
    (b = false -> f (devicelist s) (devices s) p = DEVICE_START_MISSING_DEPENDENCIES).

(** A sweep over devices that are all started, or all unstarted and
    deferring, changes nothing and counts the started ones. *)
Lemma sweep_locs_pass b locs : forall s n,
  (forall p, p ∈ locs -> passes s p b) ->
  INT_MIN <= n -> n + Z.of_nat (length locs) <= INT_MAX ->
  sweep_locs s locs n = (Ret (n + Z.b2z b * Z.of_nat (length locs)), s).
Proof.
  induction locs as [|p locs IH]; intros s n Hpass Hlo Hhi.
  - simpl. do 2 f_equal. lia.
  - destruct (Hpass p) as (d & f & Hd & Hty & Hf & Hs & Hcall); [by left|].
    simpl. rewrite Hd. simpl in Hhi. destruct b.
    + rewrite (sweep_step_started s p d n f) by done.
      rewrite int_add_small by lia.
      rewrite IH; [|intros q Hq; apply Hpass; by right|lia|lia].
      do 2 f_equal. simpl. lia.
    + rewrite (sweep_step_deferred s p d n f) by (done || by apply Hcall).
      rewrite int_add_small by lia.
      rewrite IH; [|intros q Hq; apply Hpass; by right|lia|lia].
      do 2 f_equal. simpl. lia.
Qed.

(** ** Starting a machine *)

(** The state the asserts of [device_list_start] ask of a device, and a
    token length that is not zero. *)
Definition start_ready (s : running_machine) (p : loc) : Prop :=
  exists d, devices s !! p = Some d /\ started d = false /\
            machine d = Some (machine_addr s) /\ token d = None /\
            type d <> NULL_TYPE /\ tb_of d <> 0.

Lemma start_ready_alloc_ready s s0 p :
  machine_addr s0 = machine_addr s -> devices s0 = devices s ->
  start_ready s p -> alloc_ready s0 p.
Proof.
  intros Hm Hdev (d & Hd & Hs & Hmach & Htok & Hty & Htb).
  exists d. rewrite Hdev. split; [done|]. split; [|done].
  unfold start_asserts. rewrite Hm.
  rewrite !assert_true; try done.
  - by apply bool_decide_eq_true_2.
  - by apply bool_decide_eq_true_2.
  - by apply bool_decide_eq_true_2.
  - by rewrite Hs.
Qed.

Lemma machine_ok_kept erase s s' locs :
  (forall d d', erase d' = erase d -> next d' = next d) ->
  fields_kept erase (devices s) (devices s') -> devicelist s' = devicelist s ->
  machine_ok s locs -> machine_ok s' locs.
Proof.
  intros Hnext Hk Hl [Hc Hnd]. split; [|done]. rewrite Hl.
  by apply (chain_kept erase (devices s)).
Qed.

(** The first loop on a machine whose devices are all ready. *)
Lemma start_alloc_ready s locs :
  machine_ok s locs -> Z.of_nat (length locs) <= INT_MAX ->
  (forall p, p ∈ locs -> start_ready s p) ->
  exists s1,
    device_list_start_alloc s = (Ret (Z.of_nat (length locs)), s1) /\
    machine_ok s1 locs /\
    alloc_post (add_exit_callback (add_reset_callback s Cb_device_list_reset)
                  Cb_device_list_stop) s1 locs.
Proof.
  intros Hok Hlen Hready. pose proof Hok as [Hc Hnd].
  rewrite (device_list_start_alloc_locs s locs Hok).
  set (s0 := add_exit_callback (add_reset_callback s Cb_device_list_reset)
               Cb_device_list_stop).
  destruct (alloc_locs_ok locs s0 0 Hnd) as [s1 Hs1].
  - intros p Hp. by apply (start_ready_alloc_ready s), Hready.
  - unfold INT_MIN. lia.
  - lia.
  - exists s1. rewrite Hs1. split; [done|].
    pose proof (alloc_locs_Ret locs s0 _ _ s1 Hnd Hs1) as Hpost.
    split; [|done].
    apply (machine_ok_kept no_runtime s0); [apply no_runtime_next| |by apply Hpost|done].
    by apply (alloc_post_kept s0 s1 locs).
Qed.

(** C10.  On a machine whose device list is empty, [device_list_start]
    returns normally: it registers its two callbacks, enters neither
    loop and raises no error. *)
Theorem start_empty_list_returns s :
  devicelist s = None ->
  device_list_start_counted s =
    (Ret tt,
     add_exit_callback (add_reset_callback s Cb_device_list_reset) Cb_device_list_stop,
     0%nat) /\
  device_list_start s =
    (Ret tt,
     add_exit_callback (add_reset_callback s Cb_device_list_reset) Cb_device_list_stop).
Proof.
  intros Hnil.
  assert (Hrun : device_list_start_counted s =
    (Ret tt,
     add_exit_callback (add_reset_callback s Cb_device_list_reset) Cb_device_list_stop,
     0%nat)).
  { unfold device_list_start_counted, device_list_start_alloc, fuel_of.
    cbn [add_exit_callback add_reset_callback devicelist devices].
    rewrite Hnil. reflexivity. }
  split; [done|]. unfold device_list_start. by rewrite Hrun.
Qed.

(** C1 (as amended).  On a machine with at least one device, all of
    them in the state the asserts of [device_list_start] ask for and of
    types with a token length that is not zero, whose start functions
    never succeed, [device_list_start] ends after one sweep in the fatal
    circular-dependency error that names all the devices as not started,
    out of all the devices. *)
Theorem start_never_succeeding_is_circular s locs :
  machine_ok s locs -> locs <> [] -> Z.of_nat (length locs) <= INT_MAX ->
  (forall p, p ∈ locs -> start_ready s p) ->
  (forall p, p ∈ locs ->
     exists d f, devices s !! p = Some d /\
       DEVINFO_FCT_START (device_get_info (type d)) = Some f /\
       forall lh h q, f lh h q = DEVICE_START_MISSING_DEPENDENCIES) ->
  exists s',
    device_list_start_counted s =
      (Fatal (Circular_dependency (Z.of_nat (length locs)) (Z.of_nat (length locs))),
       s', 1%nat) /\
    device_list_start s =
      (Fatal (Circular_dependency (Z.of_nat (length locs)) (Z.of_nat (length locs))),
       s').
Proof.
  intros Hok Hne Hlen Hready Hnever.
  destruct (start_alloc_ready s locs Hok Hlen Hready) as (s1 & Halloc & Hok1 & Hpost).
  assert (Hlen0 : 0 < Z.of_nat (length locs)) by (destruct locs; [done|simpl; lia]).
  assert (Hrun : device_list_start_counted s =
      (Fatal (Circular_dependency (Z.of_nat (length locs)) (Z.of_nat (length locs))),
       s1, 1%nat)).
  { unfold device_list_start_counted. rewrite Halloc.
    unfold fuel_of at 1. cbn [start_while].
    apply Z.ltb_lt in Hlen0 as Hlt. rewrite Hlt.
    rewrite (start_sweep_machine s1 locs 0 Hok1).
    rewrite (sweep_locs_pass false locs s1 0).
    - simpl. rewrite int_sub_small by (unfold INT_MIN, INT_MAX in *; lia).
      by rewrite Z.sub_0_r.
    - intros p Hp.
      destruct (ap_device _ _ _ Hpost p Hp) as (d & tok & Hd & Hd1 & _ & _ & Hty & _).
      destruct (Hready p Hp) as (d' & Hd' & Hs & _).
      destruct (Hnever p Hp) as (d'' & f & Hd'' & Hf & Hcall).
      simpl in Hd. rewrite Hd in Hd', Hd''. injection Hd' as <-. injection Hd'' as <-.
      exists (allocated (add_exit_callback (add_reset_callback s Cb_device_list_reset)
                Cb_device_list_stop) d tok), f.
      repeat split; try done.
    - unfold INT_MIN. lia.
    - lia. }
  exists s1. split; [done|]. unfold device_list_start. by rewrite Hrun.
Qed.

(** ** Chains of dependent devices *)

(** The devices of a list have start functions, and the start function
    of a device succeeds exactly when the device [dep] names for it is
    in the STARTED state, or when [dep] names none.  [dep] sees the
    devices before and the devices after the device in the list. *)
Definition start_depends (dep : list loc -> list loc -> option loc)
    (s : running_machine) (locs : list loc) : Prop :=
  forall pre p post, locs = pre ++ p :: post ->
    exists d f, devices s !! p = Some d /\ type d <> NULL_TYPE /\
      DEVINFO_FCT_START (device_get_info (type d)) = Some f /\
      forall lh h, f lh h p = DEVICE_START_OK <->
        match dep pre post with
        | None => True
        | Some q => is_started h q = true
        end.

(** Each device waits for the one before it in the list; the first
    waits for none. *)
Definition on_previous (pre post : list loc) : option loc := last pre.

(** Each device waits for the one after it in the list; the last waits
    for none. *)
Definition on_next (pre post : list loc) : option loc := head post.

Lemma start_depends_kept erase dep s s' locs :
  (forall d d', erase d' = erase d -> type d' = type d) ->
  fields_kept erase (devices s) (devices s') ->
  start_depends dep s locs -> start_depends dep s' locs.
Proof.
  intros Hty Hk Hdep pre p post Hsplit.
  destruct (Hdep pre p post Hsplit) as (d & f & Hd & Hnull & Hf & Hspec).
  destruct (fields_kept_lookup erase _ _ p d Hk Hd) as (d' & Hd' & He).
  exists d', f. rewrite (Hty d d' He). done.
Qed.

Lemma unstarted_type d d' : unstarted d' = unstarted d -> type d' = type d.
Proof. intros E. apply (f_equal type) in E. done. Qed.

Lemma no_runtime_type d d' : no_runtime d' = no_runtime d -> type d' = type d.
Proof. intros E. apply (f_equal type) in E. done. Qed.

Lemma no_runtime_started d d' : no_runtime d' = no_runtime d -> started d' = started d.
Proof. intros E. apply (f_equal started) in E. done. Qed.

Lemma is_started_insert (h : heap) p d q :
  is_started (<[p := d]> h) q = if decide (p = q) then started d else is_started h q.
Proof.
  unfold is_started. rewrite lookup_insert.
  by destruct (decide (p = q)).
Qed.

Lemma start_not_ok (r : device_start_err) :
  r <> DEVICE_START_OK -> r = DEVICE_START_MISSING_DEPENDENCIES.
Proof. by destruct r. Qed.

(** A sweep over a list in which each device waits for the one before:
    they all start, one after the other, in this one sweep. *)
Lemma sweep_on_previous suf : forall pre s n,
  NoDup (pre ++ suf) ->
  start_depends on_previous s (pre ++ suf) ->
  (forall p, p ∈ pre -> is_started (devices s) p = true) ->
  (forall p, p ∈ suf -> is_started (devices s) p = false) ->
  INT_MIN <= n -> n + Z.of_nat (length suf) <= INT_MAX ->
  exists s',
    sweep_locs s suf n = (Ret (n + Z.of_nat (length suf)), s') /\
    forall p, p ∈ pre ++ suf -> is_started (devices s') p = true.
Proof.
  induction suf as [|p suf IH]; intros pre s n Hnd Hdep Hpre Hsuf Hlo Hhi.
  - exists s. split; [simpl; do 2 f_equal; lia|].
    intros p Hp. rewrite app_nil_r in Hp. by apply Hpre.
  - destruct (Hdep pre p suf eq_refl) as (d & f & Hd & Hty & Hf & Hspec).
    assert (Hs : started d = false).
    { specialize (Hsuf p). unfold is_started in Hsuf. rewrite Hd in Hsuf.
      apply Hsuf. by left. }
    assert (Hcall : f (devicelist s) (devices s) p = DEVICE_START_OK).
    { apply Hspec. unfold on_previous. destruct (last pre) as [q|] eqn:Hq; [|done].
      apply Hpre. by apply last_elem. }
    simpl. rewrite Hd. rewrite (sweep_step_ok s p d n f) by done.
    simpl in Hhi. rewrite int_add_small by lia.
    apply NoDup_app in Hnd as Hnd'. destruct Hnd' as (Hnd1 & Hnd12 & Hnd2).
    apply NoDup_cons in Hnd2 as [Hp Hnd2].
    set (s1 := with_devices s (<[p := set_started d true]> (devices s))).
    destruct (IH (pre ++ [p]) s1 (n + 1)) as (s' & Hrun & Hall).
    + by rewrite <- app_assoc.
    + rewrite <- app_assoc. simpl.
      apply (start_depends_kept unstarted on_previous s); [apply unstarted_type| |done].
      by apply (fields_kept_insert _ _ p d).
    + intros q Hq. simpl. rewrite is_started_insert.
      apply elem_of_app in Hq as [Hq|Hq].
      * rewrite decide_False; [by apply Hpre|]. intros <-. apply (Hnd12 p Hq). by left.
      * apply list_elem_of_singleton in Hq as ->. by rewrite decide_True.
    + intros q Hq. simpl. rewrite is_started_insert.
      rewrite decide_False; [apply Hsuf; by right|]. by intros <-.
    + lia.
    + lia.
    + exists s'. split.
      * rewrite Hrun. do 2 f_equal. lia.
      * intros q Hq. apply Hall. rewrite <- app_assoc. done.
Qed.

(** A sweep over a list in which each device waits for the one after,
    when the devices behind [x] are started and no other: [x] starts,
    and it alone. *)
Lemma sweep_on_next a x b s :
  NoDup (a ++ x :: b) ->
  start_depends on_next s (a ++ x :: b) ->
  (forall p, p ∈ a -> is_started (devices s) p = false) ->
  is_started (devices s) x = false ->
  (forall p, p ∈ b -> is_started (devices s) p = true) ->
  Z.of_nat (length (a ++ x :: b)) <= INT_MAX ->
  exists d,
    devices s !! x = Some d /\
    sweep_locs s (a ++ x :: b) 0 =
    (Ret (Z.of_nat (length b) + 1),
     with_devices s (<[x := set_started d true]> (devices s))).
Proof.
  intros Hnd Hdep Ha Hx Hb Hlen.
  rewrite length_app in Hlen. simpl in Hlen.
  assert (Hmin : INT_MIN <= 0) by (unfold INT_MIN; lia).
  destruct (Hdep a x b eq_refl) as (d & f & Hd & Hty & Hf & Hspec).
  exists d. split; [done|].
  apply NoDup_app in Hnd as Hnd'. destruct Hnd' as (Hnd1 & Hnd12 & Hnd2).
  apply NoDup_cons in Hnd2 as [Hxb Hnd2].
  rewrite sweep_locs_app.
  rewrite (sweep_locs_pass false a s 0); [|intros p Hp|done|lia].
  - rewrite Z.mul_0_l, Z.add_0_r.
    assert (Hs : started d = false).
    { unfold is_started in Hx. by rewrite Hd in Hx. }
    assert (Hcall : f (devicelist s) (devices s) x = DEVICE_START_OK).
    { apply Hspec. unfold on_next. destruct b as [|q b]; [done|]. simpl.
      apply Hb. by left. }
    simpl. rewrite Hd. rewrite (sweep_step_ok s x d 0 f) by done.
    rewrite int_add_small by (unfold INT_MAX in *; lia).
    rewrite (sweep_locs_pass true b); [do 2 f_equal; simpl; lia| |lia|lia].
    intros p Hp.
    destruct (list_elem_of_split b p Hp) as (b1 & b2 & ->).
    destruct (Hdep (a ++ x :: b1) p b2) as (dp & fp & Hdp & Htyp & Hfp & _).
    { by rewrite <- app_assoc. }
    exists dp, fp. simpl. rewrite lookup_insert_ne by (by intros ->).
    repeat split; try done.
    specialize (Hb p Hp). unfold is_started in Hb. by rewrite Hdp in Hb.
  - destruct (list_elem_of_split a p Hp) as (a1 & a2 & ->).
    destruct (Hdep a1 p (a2 ++ x :: b)) as (dp & fp & Hdp & Htyp & Hfp & Hspecp).
    { by rewrite <- app_assoc. }
    exists dp, fp. repeat split; try done.
    + specialize (Ha p Hp). unfold is_started in Ha. by rewrite Hdp in Ha.
    + intros _. apply start_not_ok. intros Hok. apply Hspecp in Hok.
      unfold on_next in Hok. destruct a2 as [|q a2]; simpl in Hok.
      * by rewrite Hx in Hok.
      * rewrite Ha in Hok; [done|]. apply elem_of_app. right. right. by left.
Qed.

Lemma start_while_done fuel s n k : start_while fuel s n n k = (Ret tt, s, k).
Proof. destruct fuel; simpl; by rewrite Z.ltb_irrefl. Qed.

(** The sweeps over a list in which each device waits for the one
    after: with the devices of [b] started and those of [a] not, the
    loop makes one sweep for each device of [a]. *)
Lemma start_while_on_next a : forall b s fuel k,
  machine_ok s (a ++ b) -> start_depends on_next s (a ++ b) ->
  (forall p, p ∈ a -> is_started (devices s) p = false) ->
  (forall p, p ∈ b -> is_started (devices s) p = true) ->
  (length a < fuel)%nat -> Z.of_nat (length (a ++ b)) <= INT_MAX ->
  exists s',
    start_while fuel s (Z.of_nat (length b)) (Z.of_nat (length (a ++ b))) k =
      (Ret tt, s', (k + length a)%nat) /\
    forall p, p ∈ a ++ b -> is_started (devices s') p = true.
Proof.
  induction a as [|x a IH] using rev_ind; intros b s fuel k Hok Hdep Ha Hb Hf Hlen.
  - exists s. simpl. rewrite start_while_done. split; [f_equal; lia|done].
  - rewrite <- app_assoc in Hok, Hdep, Hlen |- *. simpl in Hok, Hdep, Hlen |- *.
    destruct fuel as [|fuel]; [lia|].
    cbn [start_while].
    assert (Hlt : (Z.of_nat (length b) <? Z.of_nat (length (a ++ x :: b))) = true).
    { apply Z.ltb_lt. rewrite length_app. simpl. lia. }
    rewrite Hlt. rewrite (start_sweep_machine s _ 0 Hok).
    pose proof Hok as [Hc Hnd].
    destruct (sweep_on_next a x b s Hnd Hdep) as (d & Hd & Hsweep).
    { intros p Hp. apply Ha. apply elem_of_app. by left. }
    { apply Ha. apply elem_of_app. right. by left. }
    { done. }
    { done. }
    rewrite Hsweep.
    assert (Hne : (Z.of_nat (length b) + 1 =? Z.of_nat (length b)) = false)
      by (apply Z.eqb_neq; lia).
    rewrite Hne.
    set (s1 := with_devices s (<[x := set_started d true]> (devices s))).
    assert (Hk1 : fields_kept unstarted (devices s) (devices s1))
      by (by apply (fields_kept_insert _ _ x d)).
    apply NoDup_app in Hnd as Hnd'. destruct Hnd' as (Hnd1 & Hnd12 & Hnd2).
    apply NoDup_cons in Hnd2 as [Hxb Hnd2].
    destruct (IH (x :: b) s1 fuel (S k)) as (s' & Hrun & Hall).
    + apply (machine_ok_kept unstarted s); [apply unstarted_next|done|done|done].
    + apply (start_depends_kept unstarted on_next s); [apply unstarted_type|done|done].
    + intros p Hp. simpl. rewrite is_started_insert.
      rewrite decide_False; [apply Ha; apply elem_of_app; by left|].
      intros <-. apply (Hnd12 x Hp). by left.
    + intros p Hp. simpl. rewrite is_started_insert.
      apply elem_of_cons in Hp as [->|Hp]; [by rewrite decide_True|].
      rewrite decide_False; [by apply Hb|]. by intros <-.
    + rewrite length_app in Hf. simpl in Hf. lia.
    + done.
    + exists s'. split; [|done].
      replace (Z.of_nat (length b) + 1) with (Z.of_nat (length (x :: b)))
        by (simpl; lia).
      rewrite Hrun. f_equal. rewrite length_app. simpl. lia.
Qed.

(** After the first loop no device is started yet. *)
Lemma alloc_post_unstarted s0 s1 locs p :
  alloc_post s0 s1 locs -> p ∈ locs ->
  is_started (devices s0) p = false -> is_started (devices s1) p = false.
Proof.
  intros Hpost Hp Hs.
  destruct (ap_device _ _ _ Hpost p Hp) as (d & tok & Hd & Hd1 & _).
  unfold is_started in *. by rewrite Hd1; rewrite Hd in Hs.
Qed.

Lemma start_ready_unstarted s p : start_ready s p -> is_started (devices s) p = false.
Proof. intros (d & Hd & Hs & _). unfold is_started. by rewrite Hd. Qed.

(** C3 (as amended).  On a machine with N >= 1 devices, all of them in
    the state the asserts of [device_list_start] ask for and of types
    with a token length that is not zero:
    when the start function of each device succeeds exactly once the
    device before it in the list is started (the first always), the
    while loop makes exactly one sweep;
    when the start function of each device succeeds exactly once the
    device after it in the list is started (the last always), the while
    loop makes exactly N sweeps;
    in both cases [device_list_start] returns and all N devices are
    started. *)
Theorem chain_start_sweeps s locs :
  machine_ok s locs -> locs <> [] -> Z.of_nat (length locs) <= INT_MAX ->
  (forall p, p ∈ locs -> start_ready s p) ->
  (start_depends on_previous s locs ->
   exists s', device_list_start_counted s = (Ret tt, s', 1%nat) /\
     forall p, p ∈ locs -> is_started (devices s') p = true) /\
  (start_depends on_next s locs ->
   exists s', device_list_start_counted s = (Ret tt, s', length locs) /\
     forall p, p ∈ locs -> is_started (devices s') p = true).
Proof.
  intros Hok Hne Hlen Hready.
  destruct (start_alloc_ready s locs Hok Hlen Hready) as (s1 & Halloc & Hok1 & Hpost).
  set (s0 := add_exit_callback (add_reset_callback s Cb_device_list_reset)
               Cb_device_list_stop) in *.
  assert (Hk : fields_kept no_runtime (devices s) (devices s1))
    by (by apply (alloc_post_kept s0 s1 locs)).
  assert (Hun : forall p, p ∈ locs -> is_started (devices s1) p = false).
  { intros p Hp. apply (alloc_post_unstarted s0 s1 locs); [done|done|].
    by apply start_ready_unstarted, Hready. }
  assert (Hlen0 : 0 < Z.of_nat (length locs)) by (destruct locs; [done|simpl; lia]).
  pose proof Hok1 as [Hc1 Hnd1].
  split; intros Hdep.
  - assert (Hdep1 : start_depends on_previous s1 locs)
      by (apply (start_depends_kept no_runtime on_previous s); [apply no_runtime_type|done|done]).
    destruct (sweep_on_previous locs [] s1 0) as (s2 & Hsweep & Hall);
      [done|done|by intros p Hp; apply elem_of_nil in Hp|done|unfold INT_MIN; lia|lia|].
    exists s2. split; [|done].
    unfold device_list_start_counted. rewrite Halloc.
    unfold fuel_of at 1. cbn [start_while].
    apply Z.ltb_lt in Hlen0 as Hlt. rewrite Hlt.
    rewrite Z.add_0_l in Hsweep.
    rewrite (start_sweep_machine s1 locs 0 Hok1), Hsweep.
    assert (Hne0 : (Z.of_nat (length locs) =? 0) = false) by (apply Z.eqb_neq; lia).
    rewrite Hne0. apply start_while_done.
  - assert (Hdep1 : start_depends on_next s1 locs)
      by (apply (start_depends_kept no_runtime on_next s); [apply no_runtime_type|done|done]).
    destruct (start_while_on_next locs [] s1 (fuel_of (devices s1)) 0) as (s2 & Hrun & Hall).
    + by rewrite app_nil_r.
    + by rewrite app_nil_r.
    + done.
    + intros p Hp. by apply elem_of_nil in Hp.
    + by apply (chain_length _ (devicelist s1)).
    + by rewrite app_nil_r.
    + rewrite app_nil_r in Hrun, Hall. exists s2. split; [|done].
      unfold device_list_start_counted. rewrite Halloc. exact Hrun.
Qed.

(** ** Stopping a machine *)

(** The record [device_list_stop] leaves for a device. *)
Definition stopped (d : device_config) : device_config :=
  set_runtime d None 0 None None 0.

Lemma device_get_info_fct_Ret_inv {A : Type} d (state : device_info -> A) a :
  device_get_info_fct d state = Ret a ->
  type d <> NULL_TYPE /\ a = state (device_get_info (type d)).
Proof.
  unfold device_get_info_fct. intros H.
  apply bind_Ret_inv in H as ([] & _ & H). by apply call_type_Ret_inv in H.
Qed.

Lemma stop_step_Ret s p d u s' :
  stop_step s p d = (Ret u, s') ->
  type d <> NULL_TYPE /\
  devices s' = <[p := stopped d]> (devices s) /\
  machine_addr s' = machine_addr s /\ devicelist s' = devicelist s /\
  tokens s' = match token d with
              | Some tok => delete tok (tokens s)
              | None => tokens s
              end.
Proof.
  unfold stop_step.
  match goal with |- context [match ?e with Ret _ => _ | _ => _ end] =>
    destruct e as [stop| | |] eqn:E end; try done.
  apply bind_Ret_inv in E as (stop' & Hget & _).
  apply device_get_info_fct_Ret_inv in Hget as [Hty _].
  destruct (token d) as [tok|].
  - unfold free. destruct stop; simpl; destruct (tokens s !! tok); try done;
      intros [= <- <-]; done.
  - destruct stop; intros [= <- <-]; done.
Qed.

(** What [device_list_stop] has done when it returns. *)
Lemma stop_locs_Ret locs : forall s u s',
  NoDup locs -> stop_locs s locs = (Ret u, s') ->
  (forall q, q ∉ locs -> devices s' !! q = devices s !! q) /\
  (forall p, p ∈ locs ->
     exists d, devices s !! p = Some d /\ devices s' !! p = Some (stopped d) /\
       type d <> NULL_TYPE /\
       forall tok, token d = Some tok -> tokens s' !! tok = None) /\
  (forall t, tokens s !! t = None -> tokens s' !! t = None) /\
  machine_addr s' = machine_addr s /\ devicelist s' = devicelist s.
Proof.
  induction locs as [|p locs IH]; intros s u s' Hnd Hrun.
  - simpl in Hrun. injection Hrun as _ <-. repeat split; try done.
    intros p Hp. by apply elem_of_nil in Hp.
  - apply NoDup_cons in Hnd as [Hp Hnd]. simpl in Hrun.
    destruct (devices s !! p) as [d|] eqn:Hd; [|done].
    destruct (stop_step s p d) as [r1 s1] eqn:Hstep.
    destruct r1 as [u1| | |]; try done.
    apply stop_step_Ret in Hstep as (Hty & Hdev1 & Hm1 & Hl1 & Htok1).
    destruct (IH _ _ _ Hnd Hrun) as (F & D & T & M & L).
    assert (Htok1' : forall t, tokens s !! t = None -> tokens s1 !! t = None).
    { intros t Ht. rewrite Htok1. destruct (token d) as [tok|]; [|done].
      rewrite lookup_delete. by destruct (decide (tok = t)). }
    repeat split.
    + intros q Hq. apply not_elem_of_cons in Hq as [Hq1 Hq2].
      rewrite F by done. rewrite Hdev1. by rewrite lookup_insert_ne.
    + intros q Hq. apply elem_of_cons in Hq as [->|Hq].
      * exists d. rewrite F by done. rewrite Hdev1, lookup_insert_eq.
        repeat split; try done. intros tok Htok. apply T. rewrite Htok1, Htok.
        by rewrite lookup_delete_eq.
      * destruct (D q Hq) as (dq & Hq1 & Hq' & Htyq & Htq).
        exists dq. rewrite Hdev1 in Hq1. rewrite lookup_insert_ne in Hq1 by (by intros ->).
        done.
    + intros t Ht. by apply T, Htok1'.
    + by rewrite M.
    + by rewrite L.
Qed.

(** A device whose token [device_list_stop] can release. *)
Definition holds_token (s : running_machine) (p : loc) : Prop :=
  exists d tok, devices s !! p = Some d /\ type d <> NULL_TYPE /\
    token d = Some tok /\ is_Some (tokens s !! tok).

Definition tokens_apart (s : running_machine) (locs : list loc) : Prop :=
  forall p1 p2 d1 d2, p1 ∈ locs -> p2 ∈ locs ->
    devices s !! p1 = Some d1 -> devices s !! p2 = Some d2 ->
    token d1 = token d2 -> p1 = p2.

Lemma stop_step_ok s p d tok :
  type d <> NULL_TYPE -> token d = Some tok -> is_Some (tokens s !! tok) ->
  exists s', stop_step s p d = (Ret tt, s').
Proof.
  intros Hty Htok [b Hb]. unfold stop_step, device_get_info_fct.
  rewrite assert_true by (by apply bool_decide_eq_true_2). cbn [bind].
  rewrite call_type_ok by done. cbn [bind].
  rewrite assert_true by (apply bool_decide_eq_true_2; by rewrite Htok). cbn [bind].
  rewrite Htok. unfold free.
  destruct (DEVINFO_FCT_STOP (device_get_info (type d))); simpl; rewrite Hb; by eexists.
Qed.

Lemma stop_locs_ok locs : forall s,
  NoDup locs -> (forall p, p ∈ locs -> holds_token s p) -> tokens_apart s locs ->
  exists s', stop_locs s locs = (Ret tt, s').
Proof.
  induction locs as [|p locs IH]; intros s Hnd Hhold Hapart.
  - by exists s.
  - apply NoDup_cons in Hnd as [Hp Hnd].
    destruct (Hhold p) as (d & tok & Hd & Hty & Htok & Hlive); [by left|].
    simpl. rewrite Hd.
    destruct (stop_step_ok s p d tok Hty Htok Hlive) as [s1 Hstep]. rewrite Hstep.
    apply stop_step_Ret in Hstep as (_ & Hdev1 & Hm1 & Hl1 & Htok1).
    rewrite Htok in Htok1.
    assert (Hq1 : forall q, q ∈ locs -> devices s1 !! q = devices s !! q).
    { intros q Hq. rewrite Hdev1. rewrite lookup_insert_ne; [done|]. by intros ->. }
    apply IH; [done| |].
    + intros q Hq. destruct (Hhold q) as (dq & tq & Hdq & Htyq & Htq & Hlq); [by right|].
      exists dq, tq. rewrite Hq1 by done. repeat split; try done.
      rewrite Htok1. rewrite lookup_delete_ne; [done|].
      intros <-. apply Hp.
      rewrite (Hapart p q d dq); [done|by left|by right|done|done|by rewrite Htok, Htq].
    + intros p1 p2 d1 d2 Hp1 Hp2 H1 H2 Ht.
      rewrite Hq1 in H1, H2 by done.
      apply (Hapart p1 p2 d1 d2); [by right|by right|done|done|done].
Qed.

Lemma stopped_idem d : stopped (stopped d) = stopped d.
Proof. done. Qed.

Lemma stopped_no_runtime d : no_runtime (stopped d) = no_runtime d.
Proof. done. Qed.

Lemma stop_locs_kept locs s u s' :
  NoDup locs -> stop_locs s locs = (Ret u, s') ->
  fields_kept no_runtime (devices s) (devices s').
Proof.
  intros Hnd Hrun p.
  destruct (stop_locs_Ret locs s u s' Hnd Hrun) as (F & D & _).
  destruct (decide (p ∈ locs)) as [Hp|Hp].
  - destruct (D p Hp) as (d & Hd & Hd' & _). by rewrite Hd, Hd'.
  - by rewrite F.
Qed.

(** A second [device_list_stop], over devices whose runtime fields are
    null already: in a debug build the assert on the token stops it at
    the first device; otherwise it calls the stop functions again and
    releases nothing. *)
Lemma stop_locs_again locs : forall s,
  (forall p, p ∈ locs ->
     exists d, devices s !! p = Some d /\ type d <> NULL_TYPE /\ stopped d = d) ->
  exists r s' evs,
    stop_locs s locs = (r, s') /\
    (r = Ret tt \/ r = Fatal Assertion_failed) /\
    (MAME_DEBUG = false -> r = Ret tt) /\
    devices s' = devices s /\ tokens s' = tokens s /\
    events s' = events s ++ evs /\
    Forall (fun e => exists q, e = Ev_stop q) evs.
Proof.
  induction locs as [|p locs IH]; intros s Hnull.
  - exists (Ret tt), s, []. rewrite app_nil_r. repeat split; try done. by left.
  - destruct (Hnull p) as (d & Hd & Hty & Hstopped); [by left|].
    assert (Htok : token d = None) by (by rewrite <- Hstopped).
    simpl. rewrite Hd. unfold stop_step, device_get_info_fct.
    rewrite assert_true by (by apply bool_decide_eq_true_2). cbn [bind].
    rewrite call_type_ok by done. cbn [bind].
    rewrite Htok. unfold assert at 1.
    rewrite bool_decide_eq_false_2 by (by intros H). simpl.
    destruct MAME_DEBUG eqn:Hdebug; simpl.
    + exists (Fatal Assertion_failed), s, []. rewrite app_nil_r.
      repeat split; try done. by right.
    + change (set_runtime d None 0 None None 0) with (stopped d).
      rewrite Hstopped.
      set (s1 := if DEVINFO_FCT_STOP (device_get_info (type d)) is Some _
                 then with_event s (Ev_stop p) else s).
      assert (Hdev1 : devices s1 = devices s).
      { unfold s1. by destruct (DEVINFO_FCT_STOP (device_get_info (type d))). }
      assert (Htok1 : tokens s1 = tokens s).
      { unfold s1. by destruct (DEVINFO_FCT_STOP (device_get_info (type d))). }
      assert (Hev1 : exists evs1, events s1 = events s ++ evs1 /\
                       Forall (fun e => exists q, e = Ev_stop q) evs1).
      { unfold s1. destruct (DEVINFO_FCT_STOP (device_get_info (type d))).
        - exists [Ev_stop p]. split; [done|]. apply Forall_singleton. by exists p.
        - exists []. by rewrite app_nil_r. }
      assert (Hid : with_devices s1 (<[p := d]> (devices s1)) = s1).
      { rewrite insert_id by (by rewrite Hdev1). by destruct s1. }
      rewrite Hid.
      destruct (IH s1) as (r & s' & evs & Hrun & Hr & Hrel & Hdev & Htoks & Hev & Hall).
      { intros q Hq. rewrite Hdev1. apply Hnull. by right. }
      destruct Hev1 as (evs1 & Hev1 & Hall1).
      exists r, s', (evs1 ++ evs). rewrite Hrun.
      repeat split; try done.
      * by rewrite Hdev, Hdev1.
      * by rewrite Htoks, Htok1.
      * by rewrite Hev, Hev1, app_assoc.
      * by apply Forall_app.
Qed.

(** The devices of a machine after [device_list_start] returned. *)
Lemma start_Ret_tokens s locs s1 :
  machine_ok s locs -> device_list_start s = (Ret tt, s1) ->
  machine_ok s1 locs /\
  (forall p, p ∈ locs -> holds_token s1 p) /\
  tokens_apart s1 locs.
Proof.
  intros Hok Hrun. pose proof Hok as [Hc Hnd].
  unfold device_list_start, device_list_start_counted in Hrun.
  destruct (device_list_start_alloc s) as [r0 sa] eqn:Halloc.
  destruct r0 as [n| | |]; try done.
  destruct (start_while (fuel_of (devices sa)) sa 0 n 0) as [[r s1'] k] eqn:Hwhile.
  simpl in Hrun. injection Hrun as -> ->.
  rewrite (device_list_start_alloc_locs s locs Hok) in Halloc.
  set (s0 := add_exit_callback (add_reset_callback s Cb_device_list_reset)
               Cb_device_list_stop) in *.
  pose proof (alloc_locs_Ret locs s0 _ _ sa Hnd Halloc) as Hpost.
  destruct (start_while_kept _ _ _ _ _ _ _ _ Hwhile) as [Hs1 Hk].
  assert (Htok : tokens s1 = tokens sa) by (by rewrite Hs1).
  assert (Hrec : forall p d1, p ∈ locs -> devices s1 !! p = Some d1 ->
            exists d tok, devices sa !! p = Some (allocated s0 d tok) /\
              type d <> NULL_TYPE /\ is_Some (tokens sa !! tok) /\
              token d1 = Some tok /\ type d1 = type d).
  { intros p d1 Hp Hd1.
    destruct (ap_device _ _ _ Hpost p Hp) as (d & tok & Hd & Hda & _ & _ & Hty & _ & Hlive).
    destruct (fields_kept_lookup unstarted _ _ p _ Hk Hda) as (d1' & Hd1' & He).
    rewrite Hd1 in Hd1'. injection Hd1' as <-.
    exists d, tok. repeat split; try done.
    - by apply (f_equal token) in He.
    - by apply (f_equal type) in He. }
  split; [|split].
  - apply (machine_ok_kept unstarted sa); [apply unstarted_next|done|by rewrite Hs1|].
    apply (machine_ok_kept no_runtime s0); [apply no_runtime_next| |by apply Hpost|done].
    by apply (alloc_post_kept s0 sa locs).
  - intros p Hp.
    destruct (ap_device _ _ _ Hpost p Hp) as (d & tok & Hd & Hda & _).
    destruct (fields_kept_lookup unstarted _ _ p _ Hk Hda) as (d1 & Hd1 & _).
    destruct (Hrec p d1 Hp Hd1) as (d' & tok' & _ & Hty & Hlive & Htok' & Hty').
    exists d1, tok'. rewrite Htok, Hty'. done.
  - intros p1 p2 d1 d2 Hp1 Hp2 H1 H2 Ht.
    destruct (Hrec p1 d1 Hp1 H1) as (d1' & tok1 & Ha1 & _ & _ & Ht1 & _).
    destruct (Hrec p2 d2 Hp2 H2) as (d2' & tok2 & Ha2 & _ & _ & Ht2 & _).
    apply (ap_inj _ _ _ Hpost p1 p2 _ _ Hp1 Hp2 Ha1 Ha2). simpl. congruence.
Qed.

(** C7.  On a machine whose device list is a chain, after
    [device_list_start] returned, [device_list_stop] returns, and then
    every device of the list has a null token, token length 0, a null
    machine reference, a null region pointer and region length 0, and
    the token it had is no longer live.  A second [device_list_stop]
    returns or stops at an assert (a debug build; a build without
    asserts returns); it leaves the device records and the live tokens
    as they were and calls free on no token: every event it adds is a
    call of a stop function. *)
Theorem stop_after_start_releases_once s locs s1 :
  machine_ok s locs -> device_list_start s = (Ret tt, s1) ->
  exists s2,
    device_list_stop s1 = (Ret tt, s2) /\
    (forall p, p ∈ locs ->
       exists d1 d2, devices s1 !! p = Some d1 /\ devices s2 !! p = Some d2 /\
         token d2 = None /\ tokenbytes d2 = Val 0 /\ machine d2 = None /\
         region d2 = None /\ regionbytes d2 = 0 /\
         forall tok, token d1 = Some tok -> tokens s2 !! tok = None) /\
    exists r s3 evs,
      device_list_stop s2 = (r, s3) /\
      (r = Ret tt \/ r = Fatal Assertion_failed) /\
      (MAME_DEBUG = false -> r = Ret tt) /\
      devices s3 = devices s2 /\ tokens s3 = tokens s2 /\
      events s3 = events s2 ++ evs /\
      Forall (fun e => exists q, e = Ev_stop q) evs.
Proof.
  intros Hok Hstart.
  destruct (start_Ret_tokens s locs s1 Hok Hstart) as (Hok1 & Hhold & Hapart).
  pose proof Hok1 as [Hc1 Hnd].
  rewrite (device_list_stop_locs s1 locs Hok1).
  destruct (stop_locs_ok locs s1 Hnd Hhold Hapart) as [s2 Hstop].
  exists s2. split; [done|].
  destruct (stop_locs_Ret locs s1 tt s2 Hnd Hstop) as (F & D & T & M & L).
  split.
  - intros p Hp. destruct (D p Hp) as (d1 & Hd1 & Hd2 & Hty & Htok).
    exists d1, (stopped d1). repeat split; done.
  - assert (Hok2 : machine_ok s2 locs).
    { apply (machine_ok_kept no_runtime s1); [apply no_runtime_next| |done|done].
      by apply (stop_locs_kept locs s1 tt s2). }
    rewrite (device_list_stop_locs s2 locs Hok2).
    apply stop_locs_again. intros p Hp.
    destruct (D p Hp) as (d1 & Hd1 & Hd2 & Hty & _).
    exists (stopped d1). repeat split; done.
Qed.

(** ** The runtime fields over the life of a device *)

Lemma store_kept vs h lv v vs' h' :
  store vs h lv v = Ret (vs', h') -> fields_kept unlinked h h'.
Proof.
  destruct lv as [| |p|p]; simpl.
  - by intros [= _ <-].
  - by intros [= _ <-].
  - unfold deref. destruct (h !! p) as [d|] eqn:Hd; [|done]. simpl.
    intros [= _ <-]. by apply (fields_kept_insert _ _ p d).
  - unfold deref. destruct (h !! p) as [d|] eqn:Hd; [|done]. simpl.
    intros [= _ <-]. by apply (fields_kept_insert _ _ p d).
Qed.

Lemma add_link_kept vs h1 devptr device ty vs3 h3 :
  add_link vs h1 devptr device ty = Ret (vs3, h3) -> fields_kept unlinked h1 h3.
Proof.
  unfold add_link. intros H.
  apply bind_Ret_inv in H as (typedevice & _ & H).
  apply bind_Ret_inv in H as (typedevptr & _ & H).
  apply bind_Ret_inv in H as ([vs2 h2] & Hst2 & H). simpl in H.
  apply store_kept in Hst2. apply store_kept in H.
  by apply (fields_kept_trans _ _ h2).
Qed.

Lemma add_queries_Ret_inv ty tg nd :
  add_queries ty tg = Ret nd ->
  exists configlen cls setinfo, nd = new_device ty tg configlen cls setinfo.
Proof.
  unfold add_queries. intros H.
  apply bind_Ret_inv in H as (configlen & _ & H).
  apply bind_Ret_inv in H as (cls & _ & H).
  apply bind_Ret_inv in H as (setinfo & _ & H).
  injection H as <-. by eexists _, _, _.
Qed.

(** The record of a device that [device_list_add] returned. *)
Lemma device_list_add_Ret_inv listhead h ty tg device listhead' h' :
  device_list_add listhead h ty tg = (Ret device, (listhead', h')) ->
  exists d configlen cls setinfo,
    h' !! device = Some d /\
    unlinked d = unlinked (new_device ty tg configlen cls setinfo).
Proof.
  unfold device_list_add.
  match goal with |- context [match ?e with Ret _ => _ | _ => _ end] =>
    destruct e as [[devptr nd]| | |] eqn:E end; try done.
  apply bind_Ret_inv in E as (? & _ & E).
  apply bind_Ret_inv in E as (devptr' & _ & E).
  apply bind_Ret_inv in E as (nd' & Hq & E). injection E as -> ->.
  apply add_queries_Ret_inv in Hq as (configlen & cls & setinfo & ->).
  destruct (add_link _ _ devptr _ ty) as [[vs3 h3]| | |] eqn:Hlink; try done.
  intros [= <- <- <-].
  apply add_link_kept in Hlink.
  destruct (fields_kept_lookup unlinked _ _ (malloc_or_die (dom h)) _ Hlink
              (lookup_insert_eq _ _ _)) as (d & Hd & He).
  by exists d, configlen, cls, setinfo.
Qed.

(** C2 (as amended).  For a machine whose device list is a well-formed
    registry:
    (a) the record [device_list_add] returns is not started and has a
    null token, a null machine reference, a null region pointer and
    region length 0 (the add does not write the token length);
    (b) when the first loop of [device_list_start] has run, before any
    start function is called, every device of the list has a token that
    is not null, a token length that is not 0 and the machine reference,
    and its [started] flag is as it was;
    (c) when [device_list_stop] has returned, every device of the list
    has a null token, token length 0, a null machine reference, a null
    region pointer and region length 0. *)
Theorem runtime_fields_over_lifecycle s l :
  registry_ok (devices s) (devicelist s) l ->
  (forall ty tg device listhead' h',
     device_list_add (devicelist s) (devices s) ty tg = (Ret device, (listhead', h')) ->
     exists d, h' !! device = Some d /\ started d = false /\ token d = None /\
       machine d = None /\ region d = None /\ regionbytes d = 0) /\
  (forall n s1,
     device_list_start_alloc s = (Ret n, s1) ->
     forall p, p ∈ l.*1 ->
       exists d d1 tok tb, devices s !! p = Some d /\ devices s1 !! p = Some d1 /\
         started d1 = started d /\ token d1 = Some tok /\
         tokenbytes d1 = Val tb /\ tb <> 0 /\ machine d1 = Some (machine_addr s)) /\
  (forall s',
     device_list_stop s = (Ret tt, s') ->
     forall p, p ∈ l.*1 ->
       exists d', devices s' !! p = Some d' /\ token d' = None /\
         tokenbytes d' = Val 0 /\ machine d' = None /\ region d' = None /\
         regionbytes d' = 0).
Proof.
  intros Hreg. pose proof (registry_machine_ok s l Hreg) as Hok.
  pose proof Hok as [Hc Hnd].
  split; [|split].
  - intros ty tg device lh' h' Hadd.
    destruct (device_list_add_Ret_inv _ _ _ _ _ _ _ Hadd)
      as (d & configlen & cls & setinfo & Hd & He).
    exists d. split; [done|].
    pose proof (f_equal started He) as E1. pose proof (f_equal token He) as E2.
    pose proof (f_equal machine He) as E3. pose proof (f_equal region He) as E4.
    pose proof (f_equal regionbytes He) as E5.
    simpl in E1, E2, E3, E4, E5. done.
  - intros n s1 Halloc p Hp.
    rewrite (device_list_start_alloc_locs s _ Hok) in Halloc.
    pose proof (alloc_locs_Ret _ _ _ _ _ Hnd Halloc) as Hpost.
    destruct (ap_device _ _ _ Hpost p Hp) as (d & tok & Hd & Hd1 & _ & Htb & _).
    exists d, (allocated (add_exit_callback (add_reset_callback s Cb_device_list_reset)
                 Cb_device_list_stop) d tok), tok, (tb_of d).
    repeat split; done.
  - intros s' Hstop p Hp.
    rewrite (device_list_stop_locs s _ Hok) in Hstop.
    destruct (stop_locs_Ret _ _ _ _ Hnd Hstop) as (_ & D & _).
    destruct (D p Hp) as (d & Hd & Hd' & _).
    exists (stopped d). repeat split; done.
Qed.

(** ** The tag helpers *)

#[local] Arguments String.append !_ _ / : simpl nomatch.

Definition has_char (c : Ascii.ascii) (s : string) : Prop :=
  In c (String.list_ascii_of_string s).

Lemma strrchr_None s c : strrchr s c = None <-> ~ has_char c s.
Proof.
  unfold has_char. induction s as [|a s IH]; simpl.
  - split; [by intros _ []|done].
  - destruct (strrchr s c) as [i|].
    + split; [done|]. intros Hno. exfalso. destruct IH as [_ IH].
      assert (Hs : ~ In c (String.list_ascii_of_string s)) by (intros H; apply Hno; by right).
      by specialize (IH Hs).
    + destruct (Ascii.eqb a c) eqn:E.
      * apply Ascii.eqb_eq in E. split; [done|]. intros Hno. exfalso. apply Hno. by left.
      * apply Ascii.eqb_neq in E. split; [|done]. intros _ [H|H]; [done|].
        destruct IH as [IH _]. by apply IH.
Qed.

Lemma string_append_assoc (a b c : string) :
  String.append (String.append a b) c = String.append a (String.append b c).
Proof. induction a as [|x a IH]; simpl; [done|]. by rewrite IH. Qed.

Lemma strrchr_last pre c rest :
  strrchr rest c = None ->
  strrchr (String.append pre (String c rest)) c = Some (String.length pre).
Proof.
  intros Hrest. induction pre as [|a pre IH]; simpl.
  - by rewrite Hrest, Ascii.eqb_refl.
  - by rewrite IH.
Qed.

Lemma substring_prefix pre c rest :
  String.substring 0 (String.length pre + 1) (String.append pre (String c rest)) =
  String.append pre (String c EmptyString).
Proof.
  induction pre as [|a pre IH]; simpl.
  - by destruct rest.
  - by rewrite IH.
Qed.

(** C8.  [device_build_tag] returns the tag of the device, a colon and
    the tag when a device is given, and the tag when the device is null;
    [device_inherit_tag] returns the source tag up to and with its last
    colon followed by the tag when the source tag has a colon, and the
    tag when it has none.  Neither result depends on what the
    destination held.  In particular the three results the spec
    names. *)
Theorem tag_helpers_results :
  (forall dest d tg,
     device_build_tag dest (Some d) tg =
     String.append (tag d) (String.append ":" tg)) /\
  (forall dest tg, device_build_tag dest None tg = tg) /\
  (forall dest pre rest tg,
     ~ has_char ":" rest ->
     device_inherit_tag dest (String.append pre (String.append ":" rest)) tg =
     String.append pre (String.append ":" tg)) /\
  (forall dest sourcetag tg,
     ~ has_char ":" sourcetag -> device_inherit_tag dest sourcetag tg = tg) /\
  (forall dest d, tag d = "sound"%string ->
     device_build_tag dest (Some d) "dac" = "sound:dac"%string) /\
  (forall dest, device_inherit_tag dest "sound:fm" "dac" = "sound:dac"%string) /\
  (forall dest, device_inherit_tag dest "dac" "pan" = "pan"%string).
Proof.
  repeat split.
  - intros dest d tg. unfold device_build_tag, astring_catc, astring_cpyc.
    apply string_append_assoc.
  - intros dest pre rest tg Hno. apply strrchr_None in Hno.
    unfold device_inherit_tag. simpl.
    rewrite (strrchr_last pre ":" rest Hno).
    unfold astring_cpych, astring_catc. rewrite substring_prefix.
    apply string_append_assoc.
  - intros dest sourcetag tg Hno. apply strrchr_None in Hno.
    unfold device_inherit_tag. by rewrite Hno.
  - intros dest d Htag. unfold device_build_tag. by rewrite Htag.
Qed.

(** ** The temporary string pool *)

(** The pool has its 16 rows, none of them of length 0. *)
Definition pool_ok (sp : string_pool) : Prop :=
  length (temp_string_pool sp) = Z.to_nat TEMP_STRING_POOL_ENTRIES /\
  Forall (fun row => row <> []) (temp_string_pool sp).

(** The row the call number [k] (from 0) returns, for a cursor that
    stands at [i]. *)
Definition row_of (i : Z) (k : nat) : nat :=
  Z.to_nat ((i + Z.of_nat k) mod TEMP_STRING_POOL_ENTRIES).

Lemma row_of_lt i k : (row_of i k < 16)%nat.
Proof.
  unfold row_of, TEMP_STRING_POOL_ENTRIES.
  pose proof (Z.mod_pos_bound (i + Z.of_nat k) 16). lia.
Qed.

Lemma get_temp_string_buffer_spec sp :
  pool_ok sp -> 0 <= temp_string_pool_index sp < INT_MAX ->
  exists sp' row,
    get_temp_string_buffer sp = (Ret (row_of (temp_string_pool_index sp) 0), sp') /\
    temp_string_pool_index sp' = temp_string_pool_index sp + 1 /\
    pool_ok sp' /\
    temp_string_pool sp' !! row_of (temp_string_pool_index sp) 0 = Some row /\
    c_string row = [] /\
    forall r, r <> row_of (temp_string_pool_index sp) 0 ->
      temp_string_pool sp' !! r = temp_string_pool sp !! r.
Proof.
  intros [Hlen Hrows] Hi. unfold get_temp_string_buffer, int_rem.
  set (i := temp_string_pool_index sp) in *.
  assert (Hrem : Z.rem i TEMP_STRING_POOL_ENTRIES = i mod TEMP_STRING_POOL_ENTRIES).
  { apply Z.rem_mod_nonneg; [lia|]. unfold TEMP_STRING_POOL_ENTRIES. lia. }
  rewrite Hrem.
  assert (Hrow : row_of i 0 = Z.to_nat (i mod TEMP_STRING_POOL_ENTRIES)).
  { unfold row_of. by rewrite Z.add_0_r. }
  pose proof (row_of_lt i 0) as Hlt. rewrite <- Hrow.
  assert (Hpos : (i mod TEMP_STRING_POOL_ENTRIES <? 0) = false).
  { apply Z.ltb_ge. apply Z.mod_pos_bound. unfold TEMP_STRING_POOL_ENTRIES. lia. }
  rewrite Hpos.
  destruct (lookup_lt_is_Some_2 (temp_string_pool sp) (row_of i 0)) as [buf Hbuf].
  { rewrite Hlen. unfold TEMP_STRING_POOL_ENTRIES. lia. }
  rewrite Hbuf.
  assert (Hbuf0 : buf <> []).
  { rewrite Forall_forall in Hrows. apply Hrows. by apply (list_elem_of_lookup_2 _ (row_of i 0)). }
  eexists _, (<[0%nat := 0]> buf). split; [reflexivity|]. simpl.
  repeat split.
  - apply int_add_small. unfold INT_MIN, INT_MAX in *. lia.
  - simpl. by rewrite length_insert.
  - simpl. apply Forall_insert; [done|]. by destruct buf.
  - apply list_lookup_insert_eq. by apply lookup_lt_Some in Hbuf.
  - by destruct buf.
  - intros r Hr. by apply list_lookup_insert_ne.
Qed.

Lemma acquire_spec n : forall sp,
  pool_ok sp -> 0 <= temp_string_pool_index sp ->
  temp_string_pool_index sp + Z.of_nat n <= INT_MAX ->
  exists sp',
    acquire n sp = (Ret (row_of (temp_string_pool_index sp) <$> seq 0 n), sp') /\
    pool_ok sp' /\
    temp_string_pool_index sp' = temp_string_pool_index sp + Z.of_nat n.
Proof.
  induction n as [|n IH]; intros sp Hok Hlo Hhi.
  - exists sp. simpl. split; [done|]. split; [done|lia].
  - destruct (get_temp_string_buffer_spec sp Hok) as (sp1 & row & Hget & Hidx & Hok1 & _);
      [lia|].
    destruct (IH sp1 Hok1) as (sp' & Hrun & Hok' & Hidx'); [lia|lia|].
    exists sp'. cbn [acquire]. rewrite Hget, Hrun.
    split; [|split; [done|lia]].
    do 2 f_equal. cbn [seq fmap list_fmap]. f_equal.
    rewrite <- fmap_S_seq, <- list_fmap_compose.
    apply list_fmap_ext. intros k j _. unfold row_of. simpl. rewrite Hidx.
    do 2 f_equal. lia.
Qed.

(** C9.  For a pool with its 16 rows and a cursor that is not negative
    and will not overflow: a call of [get_temp_string_buffer] returns
    the row at the cursor modulo 16, holding the empty string whatever
    it held before, moves the cursor on by one and leaves the other rows
    alone; and 17 calls in a row return the rows in round-robin order:
    the first and the seventeenth return the same row, the second to the
    seventeenth return 16 rows that differ from each other. *)
Theorem scratch_pool_round_robin sp :
  pool_ok sp -> 0 <= temp_string_pool_index sp ->
  temp_string_pool_index sp + 17 <= INT_MAX ->
  (exists sp' row,
     get_temp_string_buffer sp = (Ret (row_of (temp_string_pool_index sp) 0), sp') /\
     temp_string_pool_index sp' = temp_string_pool_index sp + 1 /\
     temp_string_pool sp' !! row_of (temp_string_pool_index sp) 0 = Some row /\
     c_string row = [] /\
     forall r, r <> row_of (temp_string_pool_index sp) 0 ->
       temp_string_pool sp' !! r = temp_string_pool sp !! r) /\
  (exists rows sp',
     acquire 17 sp = (Ret rows, sp') /\
     rows = row_of (temp_string_pool_index sp) <$> seq 0 17 /\
     rows !! 0%nat = rows !! 16%nat /\
     NoDup (drop 1 rows) /\ length (drop 1 rows) = 16%nat).
Proof.
  intros Hok Hlo Hhi. split.
  - destruct (get_temp_string_buffer_spec sp Hok) as (sp1 & row & H1 & H2 & _ & H3 & H4 & H5);
      [lia|].
    by exists sp1, row.
  - destruct (acquire_spec 17 sp Hok Hlo) as (sp' & Hrun & _); [lia|].
    eexists _, sp'. split; [exact Hrun|]. split; [done|].
    set (i := temp_string_pool_index sp) in *.
    split; [|split].
    + simpl. f_equal. unfold row_of, TEMP_STRING_POOL_ENTRIES. f_equal.
      rewrite Z.add_0_r. change (Z.of_nat 16) with (1 * 16).
      by rewrite Z.mod_add.
    + change (drop 1 (row_of i <$> seq 0 17)) with (row_of i <$> seq 1 16).
      apply NoDup_fmap_2_strong; [|apply NoDup_seq].
      intros x y Hx Hy Hxy. apply elem_of_seq in Hx, Hy.
      unfold row_of, TEMP_STRING_POOL_ENTRIES in Hxy.
      pose proof (Z.mod_pos_bound (i + Z.of_nat x) 16).
      pose proof (Z.mod_pos_bound (i + Z.of_nat y) 16).
      pose proof (Z.div_mod (i + Z.of_nat x) 16).
      pose proof (Z.div_mod (i + Z.of_nat y) 16).
      lia.
    + done.
Qed.

(** ** Lookups and removes that find nothing *)

(** X1.  In a well-formed registry, [device_list_remove] of a type and a
    tag that no record has together ends in the fatal "nonexistent
    device" error and leaves the list head and the heap as they were. *)
Theorem remove_absent_is_fatal h listhead l ty tg :
  registry_ok h listhead l -> ty <> NULL_TYPE ->
  Forall (fun x => ~ has_key ty tg x) l ->
  device_list_remove listhead h ty tg =
    (Fatal (Nonexistent_device ty tg), (listhead, h)) /\
  traverse h listhead DEVICE_TYPE_WILDCARD = Ret l.*1.
Proof.
  intros Hok Hnull Hno. split.
  - by apply (device_list_remove_absent h listhead l).
  - by apply traverse_wildcard.
Qed.

(** X2.  In a well-formed registry, for a tag that no record matching a
    type has, [device_list_index] returns -1 and
    [device_list_find_by_tag] returns NULL. *)
Theorem absent_tag_not_found h listhead l ty tg :
  registry_ok h listhead l -> (MAME_DEBUG = true -> ty <> NULL_TYPE) ->
  Forall (fun y => tag y.2 <> tg) (matching ty l) ->
  device_list_index h listhead ty tg = Ret (-1) /\
  device_list_find_by_tag h listhead ty tg = Ret None.
Proof.
  intros [Hv Hl Ht Hnd] Hdbg Hno.
  pose proof (heap_view_fuel h l Hv Hnd) as Hfuel. split.
  - unfold device_list_index. rewrite assert_not_null by done. cbn [bind].
    by apply (device_list_index_loop_absent ty tg h l).
  - unfold device_list_find_by_tag.
    rewrite (device_list_find_by_tag_loop_spec ty tg h l) by done.
    rewrite filter_nil_intro; [done|].
    rewrite Forall_forall in Hno. intros y Hy. by apply Hno.
Qed.

End Properties.

(** * Further properties

    The class-based accessors, the counts, single adds and removes, the
    attach, the general run of [device_list_start] and the reset. *)

Section Further.

Context {P : platform}.

(** ** Class-based device access *)

Definition of_class (cls : device_class) (x : loc * device_config) : Prop :=
  class x.2 = cls.

#[global] Instance of_class_dec cls x : Decision (of_class cls x).
Proof. unfold of_class. apply _. Defined.

Lemma filter_of_class_cons cls x l :
  filter (of_class cls) (x :: l) =
  if bool_decide (class x.2 = cls) then x :: filter (of_class cls) l
  else filter (of_class cls) l.
Proof.
  rewrite filter_cons. unfold of_class at 1.
  destruct (decide (class x.2 = cls)) as [E|E].
  - by rewrite bool_decide_eq_true_2.
  - by rewrite bool_decide_eq_false_2.
Qed.

Lemma device_list_class_next_loop_first fuel h cls : forall curdev,
  device_list_class_next_loop fuel h curdev cls =
  device_list_class_first_loop fuel h curdev cls.
Proof.
  induction fuel as [|fuel IH]; intros [p|]; simpl; [done|done| |done].
  destruct (deref h p) as [d| | |]; simpl; [|done..].
  by rewrite IH.
Qed.

Lemma device_list_class_first_loop_spec cls h l : forall fuel cur,
  heap_view h l -> linked_by next cur l -> (length l < fuel)%nat ->
  device_list_class_first_loop fuel h cur cls =
  Ret (fst <$> head (filter (of_class cls) l)).
Proof.
  induction l as [|[p d] l IH]; intros fuel cur Hv Hl Hf; simpl in Hl.
  - subst cur. by destruct fuel.
  - destruct Hl as [-> Hl]. apply heap_view_cons in Hv as [Hp Hv].
    destruct fuel as [|fuel]; [simpl in Hf; lia|].
    simpl in *. unfold deref. rewrite Hp. simpl.
    rewrite filter_of_class_cons. simpl.
    destruct (bool_decide (class d = cls)); [done|].
    apply IH; [done|done|lia].
Qed.

Lemma device_list_class_items_loop_spec cls h l : forall fuel cur count,
  heap_view h l -> linked_by next cur l -> (length l < fuel)%nat ->
  INT_MIN <= count -> count + Z.of_nat (length l) <= INT_MAX ->
  device_list_class_items_loop fuel h cur cls count =
  Ret (count + Z.of_nat (length (filter (of_class cls) l))).
Proof.
  induction l as [|[p d] l IH]; intros fuel cur count Hv Hl Hf Hlo Hhi; simpl in Hl.
  - subst cur. destruct fuel; simpl; f_equal; lia.
  - destruct Hl as [-> Hl]. apply heap_view_cons in Hv as [Hp Hv].
    destruct fuel as [|fuel]; [simpl in Hf; lia|].
    simpl in *. unfold deref. rewrite Hp. simpl.
    rewrite filter_of_class_cons. simpl.
    pose proof (filter_length_le (of_class cls) l) as Hm.
    destruct (bool_decide (class d = cls)); simpl.
    + rewrite int_add_small by lia.
      rewrite IH by (done || lia). f_equal. lia.
    + rewrite int_add_small by lia.
      rewrite IH by (done || lia). f_equal. lia.
Qed.

Lemma device_list_class_find_by_tag_loop_spec cls tg h l : forall fuel cur,
  heap_view h l -> linked_by next cur l -> (length l < fuel)%nat ->
  device_list_class_find_by_tag_loop fuel h cur cls tg =
  Ret (fst <$> head (filter (fun x => tag x.2 = tg) (filter (of_class cls) l))).
Proof.
  induction l as [|[p d] l IH]; intros fuel cur Hv Hl Hf; simpl in Hl.
  - subst cur. by destruct fuel.
  - destruct Hl as [-> Hl]. apply heap_view_cons in Hv as [Hp Hv].
    destruct fuel as [|fuel]; [simpl in Hf; lia|].
    simpl in *. unfold deref. rewrite Hp. simpl.
    rewrite filter_of_class_cons. simpl.
    destruct (bool_decide (class d = cls)); simpl.
    + rewrite filter_cons. simpl. unfold strcmp_eq.
      destruct (decide (tag d = tg)) as [E|E].
      * by rewrite bool_decide_eq_true_2.
      * rewrite bool_decide_eq_false_2 by congruence.
        apply IH; [done|done|lia].
    + apply IH; [done|done|lia].
Qed.

Lemma device_list_class_index_loop_found cls tg h pre x post : forall fuel cur index,
  heap_view h (pre ++ x :: post) -> linked_by next cur (pre ++ x :: post) ->
  (length (pre ++ x :: post) < fuel)%nat ->
  class x.2 = cls -> tag x.2 = tg ->
  Forall (fun y => tag y.2 <> tg) (filter (of_class cls) pre) ->
  INT_MIN <= index -> index + Z.of_nat (length pre) <= INT_MAX ->
  device_list_class_index_loop fuel h cur cls tg index =
  Ret (index + Z.of_nat (length (filter (of_class cls) pre))).
Proof.
  induction pre as [|[p d] pre IH]; intros fuel cur index Hv Hl Hf Hx Htg Hpre Hlo Hhi;
    simpl in Hl; destruct Hl as [-> Hl]; apply heap_view_cons in Hv as [Hp Hv];
    (destruct fuel as [|fuel]; [simpl in Hf; lia|]);
    simpl in *; unfold deref; rewrite Hp; simpl.
  - rewrite bool_decide_eq_true_2 by done.
    unfold strcmp_eq. rewrite bool_decide_eq_true_2 by done.
    f_equal. lia.
  - rewrite filter_of_class_cons in Hpre |- *. simpl in *.
    pose proof (filter_length_le (of_class cls) pre) as Hm.
    destruct (bool_decide (class d = cls)); simpl.
    + apply Forall_cons in Hpre as [Hd Hpre]. simpl in Hd.
      unfold strcmp_eq. rewrite bool_decide_eq_false_2 by congruence.
      rewrite int_add_small by lia.
      rewrite (IH fuel (next d) (index + 1)) by (done || lia). f_equal. lia.
    + rewrite (IH fuel (next d) index) by (done || lia). done.
Qed.

Lemma device_list_class_index_loop_absent cls tg h l : forall fuel cur index,
  heap_view h l -> linked_by next cur l -> (length l < fuel)%nat ->
  Forall (fun y => tag y.2 <> tg) (filter (of_class cls) l) ->
  device_list_class_index_loop fuel h cur cls tg index = Ret (-1).
Proof.
  induction l as [|[p d] l IH]; intros fuel cur index Hv Hl Hf Hall; simpl in Hl.
  - subst cur. by destruct fuel.
  - destruct Hl as [-> Hl]. apply heap_view_cons in Hv as [Hp Hv].
    destruct fuel as [|fuel]; [simpl in Hf; lia|].
    simpl in *. unfold deref. rewrite Hp. simpl.
    rewrite filter_of_class_cons in Hall. simpl in Hall.
    destruct (bool_decide (class d = cls)); simpl.
    + apply Forall_cons in Hall as [Hd Hall]. simpl in Hd.
      unfold strcmp_eq. rewrite bool_decide_eq_false_2 by congruence.
      apply IH; [done|done|lia|done].
    + apply IH; [done|done|lia|done].
Qed.

Lemma device_list_class_find_by_index_loop_spec cls h l : forall fuel cur index,
  heap_view h l -> linked_by next cur l -> (length l < fuel)%nat ->
  0 <= index <= INT_MAX ->
  device_list_class_find_by_index_loop fuel h cur cls index =
  Ret (fst <$> filter (of_class cls) l !! Z.to_nat index).
Proof.
  induction l as [|[p d] l IH]; intros fuel cur index Hv Hl Hf Hi; simpl in Hl.
  - subst cur. by destruct fuel.
  - destruct Hl as [-> Hl]. apply heap_view_cons in Hv as [Hp Hv].
    destruct fuel as [|fuel]; [simpl in Hf; lia|].
    simpl in *. unfold deref. rewrite Hp. simpl.
    rewrite filter_of_class_cons. simpl.
    destruct (bool_decide (class d = cls)); simpl.
    + destruct (index =? 0) eqn:E.
      * apply Z.eqb_eq in E. by subst index.
      * apply Z.eqb_neq in E.
        assert (Hlo : INT_MIN <= index - 1 <= INT_MAX)
          by (unfold INT_MIN, INT_MAX in *; lia).
        rewrite int_sub_small by done.
        rewrite IH by (done || lia).
        replace (Z.to_nat index) with (S (Z.to_nat (index - 1))) by lia.
        done.
    + apply IH; [done|done|lia|done].
Qed.

(** The class iteration over a suffix of the chain. *)
Lemma class_traverse_from_spec cls h l : forall fuel cur,
  heap_view h l -> linked_by next cur l ->
  (length l < fuel)%nat -> (length l < fuel_of h)%nat ->
  class_traverse_from fuel h (fst <$> head (filter (of_class cls) l)) cls =
  Ret (filter (of_class cls) l).*1.
Proof.
  induction l as [|[p d] l IH]; intros fuel cur Hv Hl Hf Hh; simpl in Hl.
  - by destruct fuel.
  - destruct Hl as [-> Hl]. apply heap_view_cons in Hv as [Hp Hv].
    simpl in Hp, Hl, Hf, Hh.
    rewrite filter_of_class_cons. simpl.
    destruct (bool_decide (class d = cls)).
    + destruct fuel as [|fuel]; [lia|].
      simpl. unfold device_list_class_next.
      rewrite assert_true by (by apply bool_decide_eq_true_2).
      cbn [bind]. unfold deref. rewrite Hp. cbn [bind].
      rewrite device_list_class_next_loop_first.
      rewrite (device_list_class_first_loop_spec cls h l) by (done || lia).
      cbn [bind]. rewrite (IH fuel (next d)) by (done || lia). done.
    + apply (IH fuel (next d)); [done|done|lia|lia].
Qed.

Lemma class_traverse_spec h listhead l cls :
  registry_ok h listhead l ->
  class_traverse h listhead cls = Ret (filter (of_class cls) l).*1.
Proof.
  intros [Hv Hl Ht Hnd].
  pose proof (heap_view_fuel h l Hv Hnd) as Hfuel.
  unfold class_traverse, device_list_class_first.
  rewrite (device_list_class_first_loop_spec cls h l) by done. cbn [bind].
  by apply (class_traverse_from_spec cls h l _ listhead).
Qed.

(** X3.  In a well-formed registry whose length fits an int, the
    iteration with [device_list_class_first] and
    [device_list_class_next] visits the devices of the class, whatever
    their types, in list order, and [device_list_class_items] returns
    their number. *)
Theorem class_traversal_in_list_order h listhead l cls :
  registry_ok h listhead l -> Z.of_nat (length l) <= INT_MAX ->
  class_traverse h listhead cls = Ret (filter (of_class cls) l).*1 /\
  device_list_class_items h listhead cls =
    Ret (Z.of_nat (length (filter (of_class cls) l).*1)).
Proof.
  intros [Hv Hl Ht Hnd] Hlen.
  pose proof (heap_view_fuel h l Hv Hnd) as Hfuel.
  assert (Hmin : INT_MIN <= 0) by (unfold INT_MIN; lia).
  split.
  - by apply class_traverse_spec.
  - unfold device_list_class_items.
    rewrite (device_list_class_items_loop_spec cls h l) by (done || lia).
    by rewrite length_fmap.
Qed.

(** X4.  In a well-formed registry whose length fits an int:
    for a record [x] that is the first with its tag among the records of
    a class, [device_list_class_index] returns the number of records of
    the class before it, and [device_list_class_find_by_tag] and
    [device_list_class_find_by_index] of that index return [x];
    for a tag that no record of the class has, the index is -1 and the
    record NULL;
    [device_list_class_find_by_index] returns NULL for an index that is
    not below the number of records of the class, and a negative index
    stops at the assert of a debug build. *)
Theorem class_find_index_agree h listhead l cls :
  registry_ok h listhead l -> Z.of_nat (length l) <= INT_MAX ->
  (forall tg pre x post,
     l = pre ++ x :: post -> class x.2 = cls -> tag x.2 = tg ->
     Forall (fun y => tag y.2 <> tg) (filter (of_class cls) pre) ->
     device_list_class_index h listhead cls tg =
       Ret (Z.of_nat (length (filter (of_class cls) pre))) /\
     device_list_class_find_by_tag h listhead cls tg = Ret (Some x.1) /\
     device_list_class_find_by_index h listhead cls
       (Z.of_nat (length (filter (of_class cls) pre))) = Ret (Some x.1)) /\
  (forall tg,
     Forall (fun y => tag y.2 <> tg) (filter (of_class cls) l) ->
     device_list_class_index h listhead cls tg = Ret (-1) /\
     device_list_class_find_by_tag h listhead cls tg = Ret None) /\
  (forall index,
     Z.of_nat (length (filter (of_class cls) l)) <= index <= INT_MAX ->
     device_list_class_find_by_index h listhead cls index = Ret None) /\
  (forall index,
     index < 0 -> MAME_DEBUG = true ->
     device_list_class_find_by_index h listhead cls index = Fatal Assertion_failed).
Proof.
  intros [Hv Hl Ht Hnd] Hlen.
  pose proof (heap_view_fuel h l Hv Hnd) as Hfuel.
  assert (Hmax : 0 <= INT_MAX) by (unfold INT_MAX; lia).
  assert (Hmin : INT_MIN <= 0) by (unfold INT_MIN; lia).
  split; [|split; [|split]].
  - intros tg pre x post -> Hx Htag Hpre.
    assert (Hf : filter (of_class cls) (pre ++ x :: post) =
                 filter (of_class cls) pre ++ x :: filter (of_class cls) post).
    { rewrite filter_app, filter_of_class_cons.
      by rewrite bool_decide_eq_true_2. }
    pose proof (filter_length_le (of_class cls) pre) as Hmpre.
    rewrite length_app in Hlen. simpl in Hlen.
    split; [|split].
    + unfold device_list_class_index.
      rewrite (device_list_class_index_loop_found cls tg h pre x post _ listhead 0);
        [done|done|done|done|done|done|done|done|lia].
    + unfold device_list_class_find_by_tag.
      rewrite (device_list_class_find_by_tag_loop_spec cls tg h _ _ _ Hv Hl) by done.
      rewrite Hf, filter_app.
      rewrite (filter_nil_intro (fun y => tag y.2 = tg) (filter (of_class cls) pre)).
      * by rewrite filter_cons_True.
      * rewrite Forall_forall in Hpre. intros y Hy. by apply Hpre.
    + unfold device_list_class_find_by_index.
      rewrite assert_true by (apply Z.leb_le; lia). cbn [bind].
      rewrite (device_list_class_find_by_index_loop_spec cls h _ _ _ _ Hv Hl)
        by (done || lia).
      rewrite Hf, Nat2Z.id. by rewrite list_lookup_middle.
  - intros tg Hno. split.
    + unfold device_list_class_index.
      by apply (device_list_class_index_loop_absent cls tg h l).
    + unfold device_list_class_find_by_tag.
      rewrite (device_list_class_find_by_tag_loop_spec cls tg h l) by done.
      rewrite filter_nil_intro; [done|].
      rewrite Forall_forall in Hno. intros y Hy. by apply Hno.
  - intros index Hi. unfold device_list_class_find_by_index.
    rewrite assert_true by (apply Z.leb_le; lia). cbn [bind].
    rewrite (device_list_class_find_by_index_loop_spec cls h _ _ _ _ Hv Hl)
      by (done || lia).
    rewrite lookup_ge_None_2 by lia. done.
  - intros index Hneg Hdbg. unfold device_list_class_find_by_index, assert.
    rewrite Hdbg. replace (0 <=? index) with false by (symmetry; apply Z.leb_gt; lia).
    done.
Qed.

(** ** Counting and iterating by type *)

(** X5.  In a well-formed registry whose length fits an int,
    [device_list_items] returns the number of devices the iteration with
    [device_list_first] and [device_list_next] visits for the same type;
    with the wildcard that is every device of the list.  In a debug
    build the null type stops at the assert. *)
Theorem items_counts_traversal h listhead l ty :
  registry_ok h listhead l -> Z.of_nat (length l) <= INT_MAX ->
  ((MAME_DEBUG = true -> ty <> NULL_TYPE) ->
   exists locs,
     traverse h listhead ty = Ret locs /\
     device_list_items h listhead ty = Ret (Z.of_nat (length locs)) /\
     locs `sublist_of` l.*1 /\
     (ty = DEVICE_TYPE_WILDCARD -> locs = l.*1)) /\
  (MAME_DEBUG = true -> ty = NULL_TYPE ->
   device_list_items h listhead ty = Fatal Assertion_failed).
Proof.
  intros Hok Hlen. pose proof Hok as [Hv Hl Ht Hnd].
  pose proof (heap_view_fuel h l Hv Hnd) as Hfuel.
  assert (Hmin : INT_MIN <= 0) by (unfold INT_MIN; lia).
  split.
  - intros Hdbg.
    assert (Hitems : device_list_items h listhead ty =
                     Ret (Z.of_nat (length (matching ty l)))).
    { unfold device_list_items. rewrite assert_not_null by done. cbn [bind].
      by rewrite (device_list_items_loop_spec ty h l _ listhead 0). }
    destruct (decide (ty = DEVICE_TYPE_WILDCARD)) as [->|Hty].
    + exists l.*1. rewrite matching_wildcard in Hitems.
      split; [by apply traverse_wildcard|].
      split; [by rewrite length_fmap|]. done.
    + exists (filter (of_type ty) l).*1. rewrite matching_concrete in Hitems by done.
      split; [by apply traverse_concrete|].
      split; [by rewrite length_fmap|].
      split; [apply fmap_sublist, sublist_filter|done].
  - intros Hdbg ->. unfold device_list_items, assert. rewrite Hdbg.
    by rewrite bool_decide_eq_false_2 by (by intros H; apply H).
Qed.

(** ** Attaching a machine *)

Lemma attach_loop_spec locs : forall fuel s cur,
  chain (devices s) cur locs -> NoDup locs -> (length locs < fuel)%nat ->
  exists s',
    attach_loop fuel s cur = (Ret tt, s') /\
    s' = with_devices s (devices s') /\
    (forall q, q ∉ locs -> devices s' !! q = devices s !! q) /\
    (forall p, p ∈ locs ->
       exists d, devices s !! p = Some d /\
         devices s' !! p = Some (set_machine d (Some (machine_addr s)))).
Proof.
  induction locs as [|p locs IH]; intros fuel s cur Hc Hnd Hf; simpl in Hc.
  - subst cur. exists s. destruct fuel; simpl.
    + split; [done|]. split; [by rewrite with_devices_id|]. split; [done|].
      intros p Hp. by apply elem_of_nil in Hp.
    + split; [done|]. split; [by rewrite with_devices_id|]. split; [done|].
      intros p Hp. by apply elem_of_nil in Hp.
  - destruct Hc as (-> & d & Hd & Hc). apply NoDup_cons in Hnd as [Hp Hnd].
    destruct fuel as [|fuel]; [simpl in Hf; lia|].
    cbn [attach_loop]. rewrite Hd.
    set (s1 := with_devices s (<[p := set_machine d (Some (machine_addr s))]> (devices s))).
    destruct (IH fuel s1 (next d)) as (s' & Hrun & Hs' & Hframe & Hdev).
    { apply (chain_update _ _ _ p d); [done|done|done]. }
    { done. }
    { simpl in Hf. lia. }
    exists s'. split; [done|]. split.
    { rewrite Hs'. by destruct s. }
    split.
    + intros q Hq. apply not_elem_of_cons in Hq as [Hqp Hq].
      rewrite (Hframe q Hq). simpl. by rewrite lookup_insert_ne.
    + intros q Hq. apply elem_of_cons in Hq as [->|Hq].
      * exists d. split; [done|]. rewrite (Hframe p Hp). simpl.
        by rewrite lookup_insert_eq.
      * destruct (Hdev q Hq) as (dq & Hdq & Hdq'). exists dq. split; [|done].
        simpl in Hdq. rewrite lookup_insert_ne in Hdq; [done|]. by intros ->.
Qed.

Lemma device_list_attach_machine_spec s locs :
  machine_ok s locs ->
  exists s',
    device_list_attach_machine s = (Ret tt, s') /\
    s' = with_devices s (devices s') /\
    machine_ok s' locs /\
    (forall q, q ∉ locs -> devices s' !! q = devices s !! q) /\
    (forall p, p ∈ locs ->
       exists d, devices s !! p = Some d /\
         devices s' !! p = Some (set_machine d (Some (machine_addr s)))) /\
    device_list_attach_machine s' = (Ret tt, s').
Proof.
  intros [Hc Hnd].
  pose proof (chain_length _ _ _ Hc Hnd) as Hf.
  destruct (attach_loop_spec locs _ s _ Hc Hnd Hf) as (s' & Hrun & Hs' & Hframe & Hdev).
  assert (Hc' : chain (devices s') (devicelist s') locs).
  { rewrite Hs' at 2. simpl.
    apply (chain_kept (fun d => set_machine d None) (devices s)); [| |done].
    - intros d d' E. by apply (f_equal next) in E.
    - intros p. destruct (decide (p ∈ locs)) as [Hp|Hp].
      + destruct (Hdev p Hp) as (d & -> & ->). done.
      + by rewrite (Hframe p Hp). }
  exists s'. split; [done|]. split; [done|]. split; [done|].
  split; [done|]. split; [done|].
  pose proof (chain_length _ _ _ Hc' Hnd) as Hf'.
  destruct (attach_loop_spec locs _ s' _ Hc' Hnd Hf')
    as (s2 & Hrun2 & Hs2 & Hframe2 & Hdev2).
  unfold device_list_attach_machine. rewrite Hrun2. f_equal.
  transitivity (with_devices s' (devices s2)); [exact Hs2|].
  transitivity (with_devices s' (devices s')); [|apply with_devices_id].
  f_equal. apply map_eq. intros p. destruct (decide (p ∈ locs)) as [Hp|Hp].
  - destruct (Hdev2 p Hp) as (d1 & Hd1 & ->).
    destruct (Hdev p Hp) as (d & Hd & Hd').
    rewrite Hd' in Hd1 |- *. simplify_eq. f_equal.
    rewrite Hs'. done.
  - by apply Hframe2.
Qed.

(** X6.  On a machine whose device list is a chain,
    [device_list_attach_machine] returns and has written the machine
    reference, and nothing else, into every device of the list; the
    records outside the list, the tokens, the callbacks and the events
    are as they were, and a second attach changes nothing. *)
Theorem attach_sets_machine_only s locs :
  machine_ok s locs ->
  exists s',
    device_list_attach_machine s = (Ret tt, s') /\
    machine_addr s' = machine_addr s /\ devicelist s' = devicelist s /\
    tokens s' = tokens s /\ reset_callbacks s' = reset_callbacks s /\
    exit_callbacks s' = exit_callbacks s /\ events s' = events s /\
    (forall q, q ∉ locs -> devices s' !! q = devices s !! q) /\
    (forall p, p ∈ locs ->
       exists d, devices s !! p = Some d /\
         devices s' !! p = Some (set_machine d (Some (machine_addr s)))) /\
    device_list_attach_machine s' = (Ret tt, s').
Proof.
  intros Hok.
  destruct (device_list_attach_machine_spec s locs Hok)
    as (s' & Hrun & Hs' & _ & Hframe & Hdev & Hagain).
  exists s'. split; [done|]. rewrite Hs' at 1 2 3 4 5 6. simpl.
  repeat (split; [done|]). done.
Qed.

(** ** The general run of [device_list_start] *)

(** The number of devices of a list that are in the STARTED state. *)
Definition count_started (h : heap) (locs : list loc) : nat :=
  length (filter (fun p => is_started h p = true) locs).

(** A device the inner loop can pass: it is live, of a type that is not
    null and that has a start function. *)
Definition startable (s : running_machine) (p : loc) : Prop :=
  exists d f, devices s !! p = Some d /\ type d <> NULL_TYPE /\
    DEVINFO_FCT_START (device_get_info (type d)) = Some f.

Lemma count_started_cons h p locs :
  count_started h (p :: locs) =
  (Nat.b2n (is_started h p) + count_started h locs)%nat.
Proof.
  unfold count_started. rewrite filter_cons.
  destruct (is_started h p) eqn:E.
  - by rewrite decide_True.
  - by rewrite decide_False.
Qed.

Lemma count_started_le h locs : (count_started h locs <= length locs)%nat.
Proof. apply length_filter. Qed.

Lemma count_started_mono h h' locs :
  (forall q, is_started h q = true -> is_started h' q = true) ->
  (count_started h locs <= count_started h' locs)%nat.
Proof.
  intros Hm. induction locs as [|p locs IH]; [done|].
  rewrite !count_started_cons.
  destruct (is_started h p) eqn:E.
  - rewrite (Hm p E). simpl. lia.
  - destruct (is_started h' p); simpl; lia.
Qed.

Lemma count_started_full h locs :
  count_started h locs = length locs ->
  forall p, p ∈ locs -> is_started h p = true.
Proof.
  induction locs as [|q locs IH]; intros Hc p Hp.
  - by apply elem_of_nil in Hp.
  - rewrite count_started_cons in Hc. simpl in Hc.
    pose proof (count_started_le h locs) as Hle.
    destruct (is_started h q) eqn:E; simpl in Hc; [|lia].
    apply elem_of_cons in Hp as [->|Hp]; [done|].
    apply IH; [lia|done].
Qed.

Lemma count_started_none h locs :
  (forall p, p ∈ locs -> is_started h p = false) -> count_started h locs = 0%nat.
Proof.
  induction locs as [|q locs IH]; intros Hall; [done|].
  rewrite count_started_cons, (Hall q) by (by left).
  simpl. apply IH. intros p Hp. apply Hall. by right.
Qed.

Lemma startable_kept s s' p :
  fields_kept unstarted (devices s) (devices s') -> startable s p -> startable s' p.
Proof.
  intros Hk (d & f & Hd & Hty & Hf).
  destruct (fields_kept_lookup unstarted _ _ p d Hk Hd) as (d' & Hd' & He).
  exists d', f. by rewrite (unstarted_type d d' He).
Qed.

Lemma is_started_lookup h p d : h !! p = Some d -> is_started h p = started d.
Proof. intros Hd. unfold is_started. by rewrite Hd. Qed.

(** One sweep over devices that have start functions returns, and its
    count is the number of devices that are started when it ends. *)
Lemma sweep_locs_total locs : forall s n,
  NoDup locs -> (forall p, p ∈ locs -> startable s p) ->
  INT_MIN <= n -> n + Z.of_nat (length locs) <= INT_MAX ->
  exists s',
    sweep_locs s locs n = (Ret (n + Z.of_nat (count_started (devices s') locs)), s') /\
    s' = with_devices s (devices s') /\
    fields_kept unstarted (devices s) (devices s') /\
    (forall q, q ∉ locs -> devices s' !! q = devices s !! q) /\
    (forall q, is_started (devices s) q = true -> is_started (devices s') q = true).
Proof.
  induction locs as [|p locs IH]; intros s n Hnd Hall Hlo Hhi.
  - exists s. simpl. split; [by rewrite Z.add_0_r|].
    split; [by rewrite with_devices_id|]. split; [apply fields_kept_refl|]. done.
  - apply NoDup_cons in Hnd as [Hp Hnd].
    destruct (Hall p) as (d & f & Hd & Hty & Hf); [by left|].
    simpl in Hhi. cbn [sweep_locs]. rewrite Hd.
    assert (Hnext : forall s1 b,
      s1 = with_devices s (devices s1) ->
      fields_kept unstarted (devices s) (devices s1) ->
      (forall q, q <> p -> devices s1 !! q = devices s !! q) ->
      is_started (devices s1) p = b ->
      (forall q, is_started (devices s) q = true -> is_started (devices s1) q = true) ->
      exists s',
        sweep_locs s1 locs (n + Z.b2z b) =
          (Ret (n + Z.of_nat (count_started (devices s') (p :: locs))), s') /\
        s' = with_devices s (devices s') /\
        fields_kept unstarted (devices s) (devices s') /\
        (forall q, q ∉ p :: locs -> devices s' !! q = devices s !! q) /\
        (forall q, is_started (devices s) q = true -> is_started (devices s') q = true)).
    { intros s1 b Hs1 Hk1 Hfr1 Hb Hm1.
      destruct (IH s1 (n + Z.b2z b) Hnd) as (s' & Hrun & Hs' & Hk & Hfr & Hm).
      - intros q Hq. apply (startable_kept s); [done|]. apply Hall. by right.
      - destruct b; simpl; lia.
      - destruct b; simpl; lia.
      - exists s'. rewrite Hrun. split; [|split; [|split; [|split]]].
        + do 2 f_equal. rewrite count_started_cons.
          assert (Hsp : is_started (devices s') p = b).
          { unfold is_started. rewrite (Hfr p Hp). exact Hb. }
          rewrite Hsp. destruct b; simpl; lia.
        + by apply (with_devices_trans s s1).
        + by apply (fields_kept_trans _ _ (devices s1)).
        + intros q Hq. apply not_elem_of_cons in Hq as [Hqp Hq].
          rewrite (Hfr q Hq). by apply Hfr1.
        + intros q Hq. by apply Hm, Hm1. }
    destruct (started d) eqn:Hs.
    + rewrite (sweep_step_started s p d n f) by done.
      rewrite int_add_small by lia.
      apply (Hnext s true); [by rewrite with_devices_id|apply fields_kept_refl|done| |done].
      by rewrite (is_started_lookup _ _ d).
    + destruct (f (devicelist s) (devices s) p) eqn:Hcall.
      * rewrite (sweep_step_ok s p d n f) by done.
        rewrite int_add_small by lia.
        apply (Hnext _ true).
        -- done.
        -- simpl. by apply (fields_kept_insert unstarted _ p d).
        -- intros q Hq. simpl. by rewrite lookup_insert_ne.
        -- simpl. by rewrite is_started_insert, decide_True.
        -- intros q Hq. simpl. rewrite is_started_insert.
           by destruct (decide (p = q)).
      * rewrite (sweep_step_deferred s p d n f) by done.
        rewrite int_add_small by lia.
        apply (Hnext s false); [by rewrite with_devices_id|apply fields_kept_refl|done| |done].
        by rewrite (is_started_lookup _ _ d).
Qed.

(** The while loop returns with every device started or stops in the
    circular-dependency error, after no more sweeps than there are
    devices left to start. *)
Lemma start_while_total locs : forall fuel s k,
  machine_ok s locs -> (forall p, p ∈ locs -> startable s p) ->
  Z.of_nat (length locs) <= INT_MAX ->
  (length locs - count_started (devices s) locs < fuel)%nat ->
  exists r s' k',
    start_while fuel s (Z.of_nat (count_started (devices s) locs))
      (Z.of_nat (length locs)) k = (r, s', k') /\
    s' = with_devices s (devices s') /\
    (k' <= k + (length locs - count_started (devices s) locs))%nat /\
    ((r = Ret tt /\ count_started (devices s') locs = length locs) \/
     (r = Fatal (Circular_dependency
                   (Z.of_nat (length locs - count_started (devices s') locs))
                   (Z.of_nat (length locs))) /\
      (count_started (devices s') locs < length locs)%nat /\ (k < k')%nat)).
Proof.
  induction fuel as [|fuel IH]; intros s k Hok Hall Hlen Hf; [lia|].
  pose proof (count_started_le (devices s) locs) as Hle.
  cbn [start_while].
  destruct (Z.of_nat (count_started (devices s) locs) <? Z.of_nat (length locs)) eqn:Hlt.
  - apply Z.ltb_lt in Hlt.
    rewrite (start_sweep_machine s locs 0 Hok).
    destruct Hok as [Hc Hnd].
    destruct (sweep_locs_total locs s 0 Hnd Hall) as (s1 & Hrun & Hs1 & Hk & Hfr & Hm);
      [unfold INT_MIN; lia|lia|].
    rewrite Hrun, Z.add_0_l.
    pose proof (count_started_mono _ _ locs Hm) as Hmono.
    pose proof (count_started_le (devices s1) locs) as Hle1.
    destruct (Z.of_nat (count_started (devices s1) locs) =?
              Z.of_nat (count_started (devices s) locs)) eqn:Heq.
    + apply Z.eqb_eq in Heq.
      exists (Fatal (Circular_dependency
                (Z.of_nat (length locs - count_started (devices s1) locs))
                (Z.of_nat (length locs)))), s1, (S k).
      split.
      { rewrite int_sub_small by (unfold INT_MIN, INT_MAX in *; lia).
        do 4 f_equal. lia. }
      split; [done|]. split; [lia|]. right. split; [done|]. lia.
    + apply Z.eqb_neq in Heq.
      destruct (IH s1 (S k)) as (r & s' & k' & Hw & Hs' & Hk' & Hres).
      * split; [|done]. rewrite Hs1. simpl.
        by apply (chain_kept unstarted (devices s)); [apply unstarted_next| |].
      * intros p Hp. by apply (startable_kept s), Hall.
      * done.
      * lia.
      * exists r, s', k'. split; [done|].
        split; [by apply (with_devices_trans s s1)|].
        split; [lia|].
        destruct Hres as [Hres|(Hr & Hc' & Hkk)]; [by left|].
        right. split; [done|]. split; [done|lia].
  - apply Z.ltb_ge in Hlt.
    exists (Ret tt), s, k. split; [done|]. split; [by rewrite with_devices_id|].
    split; [lia|]. left. split; [done|lia].
Qed.

Lemma device_list_start_total s locs :
  machine_ok s locs -> Z.of_nat (length locs) <= INT_MAX ->
  (forall p, p ∈ locs -> start_ready s p) ->
  (forall p, p ∈ locs -> startable s p) ->
  exists r s' sweeps,
    device_list_start_counted s = (r, s', sweeps) /\
    device_list_start s = (r, s') /\
    (sweeps <= length locs)%nat /\
    reset_callbacks s' = reset_callbacks s ++ [Cb_device_list_reset] /\
    exit_callbacks s' = exit_callbacks s ++ [Cb_device_list_stop] /\
    ((r = Ret tt /\ forall p, p ∈ locs -> is_started (devices s') p = true) \/
     (r = Fatal (Circular_dependency
                   (Z.of_nat (length locs - count_started (devices s') locs))
                   (Z.of_nat (length locs))) /\
      (count_started (devices s') locs < length locs)%nat /\ (0 < sweeps)%nat)).
Proof.
  intros Hok Hlen Hready Hstart.
  destruct (start_alloc_ready s locs Hok Hlen Hready) as (s1 & Halloc & Hok1 & Hpost).
  set (s0 := add_exit_callback (add_reset_callback s Cb_device_list_reset)
               Cb_device_list_stop) in *.
  assert (Hk : fields_kept no_runtime (devices s) (devices s1))
    by (by apply (alloc_post_kept s0 s1 locs)).
  assert (Hzero : count_started (devices s1) locs = 0%nat).
  { apply count_started_none. intros p Hp.
    apply (alloc_post_unstarted s0 s1 locs); [done|done|].
    by apply start_ready_unstarted, Hready. }
  destruct (start_while_total locs (fuel_of (devices s1)) s1 0 Hok1)
    as (r & s' & k' & Hw & Hs' & Hk' & Hres).
  - intros p Hp. destruct (Hstart p Hp) as (d & f & Hd & Hty & Hf).
    destruct (fields_kept_lookup no_runtime _ _ p d Hk Hd) as (d' & Hd' & He).
    exists d', f. by rewrite (no_runtime_type d d' He).
  - done.
  - destruct Hok1 as [Hc1 Hnd1]. pose proof (chain_length _ _ _ Hc1 Hnd1). lia.
  - rewrite Hzero in Hw, Hk'. simpl in Hw.
    assert (Hrun : device_list_start_counted s = (r, s', k')).
    { unfold device_list_start_counted. by rewrite Halloc. }
    exists r, s', k'. split; [done|].
    split; [unfold device_list_start; by rewrite Hrun|].
    split; [lia|].
    split; [rewrite Hs'; simpl; by rewrite (ap_reset_callbacks _ _ _ Hpost)|].
    split; [rewrite Hs'; simpl; by rewrite (ap_exit_callbacks _ _ _ Hpost)|].
    destruct Hres as [[Hr Hfull]|(Hr & Hc & Hkk)].
    + left. split; [done|]. by apply count_started_full.
    + right. split; [done|]. split; [done|lia].
Qed.

(** X7.  On a machine whose devices are in the state the asserts of
    [device_list_start] ask for, of types with a token length that is
    not zero and with a start function, [device_list_start] ends,
    whatever the start functions answer: after at most as many sweeps as
    there are devices it returns with every device started, or it stops
    in the fatal circular-dependency error that names the devices not
    started, at least one, out of all the devices.  Either way it has
    registered its reset and its exit callback once. *)
Theorem start_returns_or_reports_cycle s locs :
  machine_ok s locs -> Z.of_nat (length locs) <= INT_MAX ->
  (forall p, p ∈ locs -> start_ready s p) ->
  (forall p, p ∈ locs -> startable s p) ->
  exists r s' sweeps,
    device_list_start_counted s = (r, s', sweeps) /\
    device_list_start s = (r, s') /\
    (sweeps <= length locs)%nat /\
    reset_callbacks s' = reset_callbacks s ++ [Cb_device_list_reset] /\
    exit_callbacks s' = exit_callbacks s ++ [Cb_device_list_stop] /\
    ((r = Ret tt /\ forall p, p ∈ locs -> is_started (devices s') p = true) \/
     (r = Fatal (Circular_dependency
                   (Z.of_nat (length locs - count_started (devices s') locs))
                   (Z.of_nat (length locs))) /\
      (count_started (devices s') locs < length locs)%nat /\ (0 < sweeps)%nat)).
Proof.
  intros Hok Hlen Hready Hstart.
  destruct (device_list_start_total s locs Hok Hlen Hready Hstart)
    as (r & s' & sweeps & Hrun).
  by exists r, s', sweeps.
Qed.

(** ** Single adds and removes *)

(** What a successful add leaves, written out. *)
Lemma device_list_add_run h listhead l ty tg :
  registry_ok h listhead l ->
  ty <> NULL_TYPE -> ty <> DEVICE_TYPE_WILDCARD ->
  Forall (fun x => ~ has_key ty tg x) l ->
  device_list_add listhead h ty tg =
    (Ret (malloc_or_die (dom h)),
     (match l with [] => Some (malloc_or_die (dom h)) | _ => listhead end,
      add_heap (fst <$> last (filter (of_type ty) l)) (fst <$> last l)
        (malloc_or_die (dom h)) (added_device ty tg) h)).
Proof.
  intros Hok Hnull Hty Hno. pose proof Hok as [Hv Hl Ht Hnd].
  set (device := malloc_or_die (dom h)).
  assert (Hfresh : h !! device = None).
  { apply not_elem_of_dom. apply malloc_or_die_fresh. }
  unfold device_list_add.
  rewrite assert_true by (by apply bool_decide_eq_true_2). cbn [bind].
  rewrite (add_find_end_spec _ ty tg h l _ _ listhead);
    [|done|done|done|by apply heap_view_fuel|done].
  cbn [bind]. rewrite add_queries_ok by done. cbn [bind].
  fold device.
  destruct (add_link_spec h listhead l ty device (added_device ty tg) Hok Hfresh Hty)
    as [vs3 [Hlink Hhead]].
  rewrite Hlink. destruct vs3 as [lh td]. simpl in Hhead. by subst lh.
Qed.

(** What a successful remove leaves, written out. *)
Lemma device_list_remove_run h listhead pre x post ty tg :
  registry_ok h listhead (pre ++ x :: post) ->
  ty <> NULL_TYPE -> ty <> DEVICE_TYPE_WILDCARD ->
  Forall (fun y => ~ has_key ty tg y) pre -> has_key ty tg x ->
  device_list_remove listhead h ty tg =
    (Ret tt,
     (match pre with [] => next x.2 | _ => listhead end,
      remove_heap (fst <$> last (filter (of_type ty) pre)) (fst <$> last pre) x h)).
Proof.
  intros Hok Hnull Hty Hno Hx. pose proof Hok as [Hv Hl Ht Hnd].
  unfold device_list_remove.
  rewrite assert_true by (by apply bool_decide_eq_true_2). cbn [bind].
  rewrite (remove_find_spec _ ty tg h pre x post _ _ listhead);
    [|done|done|done|by apply heap_view_fuel|done|done].
  cbn [bind].
  rewrite (load_end_of _ h next Field_next pre (x :: post)
             (load_field_next _ h) Var_listhead listhead); [|done| |done].
  2: { unfold heap_view in *. by apply Forall_app in Hv as [Hv _]. }
  cbn [bind head fmap option_fmap option_map].
  destruct Hx as [Hx1 Hx2].
  by rewrite (remove_unlink_spec h listhead pre x post ty).
Qed.

Lemma add_heap_kept q r device nd (h : heap) p :
  p <> device -> unlinked <$> add_heap q r device nd h !! p = unlinked <$> h !! p.
Proof.
  intros Hp. unfold add_heap. rewrite !lookup_alter_at.
  rewrite lookup_insert_ne by done.
  destruct (decide (r = Some p)), (decide (q = Some p)), (h !! p) as [d|]; done.
Qed.

Lemma remove_heap_kept q r x (h : heap) p :
  p <> x.1 -> unlinked <$> remove_heap q r x h !! p = unlinked <$> h !! p.
Proof.
  intros Hp. unfold remove_heap. rewrite lookup_delete_ne by done.
  rewrite !lookup_alter_at.
  destruct (decide (r = Some p)), (decide (q = Some p)), (h !! p) as [d|]; done.
Qed.

Lemma kept_lookup (h h' : heap) p d :
  unlinked <$> h' !! p = unlinked <$> h !! p -> h !! p = Some d ->
  exists d', h' !! p = Some d' /\ unlinked d' = unlinked d.
Proof.
  intros E Hd. rewrite Hd in E. destruct (h' !! p) as [d'|]; [|done].
  exists d'. split; [done|]. by apply (inj Some).
Qed.

(** Patching the links of the records of a list changes neither the
    addresses nor the types on it. *)
Lemma filter_of_type_patched (f : loc * device_config -> loc * device_config) T l :
  (forall x, (f x).1 = x.1) -> (forall x, type (f x).2 = type x.2) ->
  (filter (of_type T) (f <$> l)).*1 = (filter (of_type T) l).*1.
Proof.
  intros Hfst Hty. induction l as [|x l IH]; [done|].
  rewrite fmap_cons, !filter_cons.
  destruct (decide (type x.2 = T)) as [E|E].
  - rewrite (decide_True (P := of_type T (f x))) by (unfold of_type; by rewrite Hty).
    rewrite (decide_True (P := of_type T x)) by done.
    rewrite !fmap_cons, Hfst. by f_equal.
  - rewrite (decide_False (P := of_type T (f x))) by (unfold of_type; by rewrite Hty).
    by rewrite (decide_False (P := of_type T x)).
Qed.

(** X8.  In a well-formed registry, an add of a valid type and a tag
    that no record has together returns an address that was not live and
    puts the new record there; the iteration over all devices then
    visits the old devices in their order and the new one last, and so
    does the iteration by the type of the new device over the devices of
    that type; every record that was live keeps all its fields but the
    two links. *)
Theorem add_appends_and_keeps h listhead l ty tg :
  registry_ok h listhead l -> valid_type ty ->
  Forall (fun x => ~ has_key ty tg x) l ->
  exists device listhead' h',
    device_list_add listhead h ty tg = (Ret device, (listhead', h')) /\
    h !! device = None /\
    (exists d, h' !! device = Some d /\ unlinked d = unlinked (added_device ty tg)) /\
    traverse h' listhead' DEVICE_TYPE_WILDCARD = Ret (l.*1 ++ [device]) /\
    traverse h' listhead' ty = Ret ((filter (of_type ty) l).*1 ++ [device]) /\
    (forall T, T <> DEVICE_TYPE_WILDCARD -> T <> ty ->
       traverse h' listhead' T = Ret (filter (of_type T) l).*1) /\
    (forall p d, h !! p = Some d ->
       exists d', h' !! p = Some d' /\ unlinked d' = unlinked d).
Proof.
  intros Hok [Hnull Hty] Hno. pose proof Hok as [Hv Hl Ht Hnd].
  set (device := malloc_or_die (dom h)).
  assert (Hfresh : h !! device = None).
  { apply not_elem_of_dom. apply malloc_or_die_fresh. }
  pose proof (add_registry_ok h listhead l ty device (added_device ty tg)
                Hok Hfresh eq_refl eq_refl eq_refl) as Hok1.
  pose proof Hok1 as [Hv1 _ _ _].
  assert (Hf : forall T, filter (of_type T) (add_view ty device (added_device ty tg) l) =
    (filter (of_type T) (add_patch (fst <$> last (filter (of_type ty) l))
                           (fst <$> last l) device <$> l)) ++
    (if decide (ty = T) then [(device, added_device ty tg)] else [])).
  { intros T. unfold add_view. rewrite filter_app. by f_equal. }
  assert (Hfp : forall T q r, (filter (of_type T) (add_patch q r device <$> l)).*1 =
                        (filter (of_type T) l).*1).
  { intros T q r. apply filter_of_type_patched.
    - apply add_patch_fst.
    - apply add_patch_type. }
  exists device, (match l with [] => Some device | _ => listhead end),
    (add_heap (fst <$> last (filter (of_type ty) l)) (fst <$> last l)
       device (added_device ty tg) h).
  split; [by apply device_list_add_run|]. split; [done|]. split.
  { exists (added_device ty tg). split; [|done].
    unfold heap_view, add_view in Hv1. apply Forall_app in Hv1 as [_ Hv1].
    rewrite Forall_singleton in Hv1. exact Hv1. }
  split; [by rewrite (traverse_wildcard _ _ _ Hok1), add_view_fst|].
  split.
  { rewrite (traverse_concrete _ _ _ ty Hok1 Hty), Hf, fmap_app, Hfp.
    by rewrite decide_True. }
  split.
  { intros T HT HTty.
    rewrite (traverse_concrete _ _ _ T Hok1 HT), Hf, fmap_app, Hfp.
    rewrite decide_False by done. by rewrite app_nil_r. }
  intros p d Hd. apply (kept_lookup h); [|done].
  apply add_heap_kept. intros ->. by rewrite Hfresh in Hd.
Qed.

(** X9.  In a well-formed registry, a remove of a valid type and a tag
    takes out the first record that has both: its address is no longer
    live, the iteration over all devices visits the other devices in
    their order, the iteration by type the other devices of the type,
    and every other record keeps all its fields but the two links. *)
Theorem remove_unlinks_first_match h listhead pre x post ty tg :
  registry_ok h listhead (pre ++ x :: post) -> valid_type ty ->
  Forall (fun y => ~ has_key ty tg y) pre -> has_key ty tg x ->
  exists listhead' h',
    device_list_remove listhead h ty tg = (Ret tt, (listhead', h')) /\
    h' !! x.1 = None /\
    traverse h' listhead' DEVICE_TYPE_WILDCARD = Ret (pre.*1 ++ post.*1) /\
    (forall T, T <> DEVICE_TYPE_WILDCARD ->
       traverse h' listhead' T =
       Ret ((filter (of_type T) pre).*1 ++ (filter (of_type T) post).*1)) /\
    (forall p d, p <> x.1 -> h !! p = Some d ->
       exists d', h' !! p = Some d' /\ unlinked d' = unlinked d).
Proof.
  intros Hok [Hnull Hty] Hno Hx.
  pose proof (remove_registry_ok h listhead pre x post ty Hok (proj1 Hx)) as Hok1.
  assert (Hfp : forall T q r, (filter (of_type T) (remove_patch q r x <$> pre)).*1 =
                        (filter (of_type T) pre).*1).
  { intros T q r. apply filter_of_type_patched.
    - apply remove_patch_fst.
    - apply remove_patch_type. }
  eexists _, _. split; [by apply (device_list_remove_run h listhead pre x post)|].
  split; [unfold remove_heap; by rewrite lookup_delete_eq|].
  split; [by rewrite (traverse_wildcard _ _ _ Hok1), remove_view_fst|].
  split.
  { intros T HT. rewrite (traverse_concrete _ _ _ T Hok1 HT).
    unfold remove_view. by rewrite filter_app, fmap_app, Hfp. }
  intros p d Hp Hd. apply (kept_lookup h); [|done].
  by apply remove_heap_kept.
Qed.

Lemma linked_by_last link cur (l : view) y :
  linked_by link cur l -> last l = Some y -> link y.2 = None.
Proof.
  intros Hl Hy. rewrite <- (app_nil_r l) in Hl.
  apply linked_by_app in Hl. rewrite Hy in Hl. exact Hl.
Qed.

Lemma last_fmap_patched (f : loc * device_config -> loc * device_config) (l : view) :
  (forall x, (f x).1 = x.1) -> fst <$> last (f <$> l) = fst <$> last l.
Proof.
  intros Hfst. rewrite fmap_last. destruct (last l) as [x|]; [|done].
  simpl. by rewrite Hfst.
Qed.

Lemma last_filter_patched (f : loc * device_config -> loc * device_config) T (l : view) :
  (forall x, (f x).1 = x.1) -> (forall x, type (f x).2 = type x.2) ->
  fst <$> last (filter (of_type T) (f <$> l)) = fst <$> last (filter (of_type T) l).
Proof.
  intros Hfst Hty. rewrite <- !fmap_last.
  by rewrite (filter_of_type_patched f T l Hfst Hty).
Qed.

(** Undoing the two splices of an add gives the heap back. *)
Lemma remove_heap_add_heap h listhead l ty device nd :
  registry_ok h listhead l -> h !! device = None ->
  next nd = None -> typenext nd = None ->
  remove_heap (fst <$> last (filter (of_type ty) l)) (fst <$> last l) (device, nd)
    (add_heap (fst <$> last (filter (of_type ty) l)) (fst <$> last l) device nd h) = h.
Proof.
  intros [Hv Hl Ht Hnd] Hfresh Hn Htn.
  set (q := fst <$> last (filter (of_type ty) l)).
  set (r := fst <$> last l).
  assert (Hr : forall p, r = Some p -> exists d, h !! p = Some d /\ next d = None).
  { intros p Hp. unfold r in Hp. destruct (last l) as [y|] eqn:Hy; [|done].
    injection Hp as <-. exists y.2. split.
    - unfold heap_view in Hv. rewrite Forall_forall in Hv.
      apply Hv. by apply last_elem.
    - by apply (linked_by_last next listhead l). }
  assert (Hq : forall p, q = Some p -> exists d, h !! p = Some d /\ typenext d = None).
  { intros p Hp. unfold q in Hp.
    destruct (last (filter (of_type ty) l)) as [y|] eqn:Hy; [|done].
    injection Hp as <-. exists y.2. split.
    - unfold heap_view in Hv. rewrite Forall_forall in Hv.
      apply Hv. apply last_elem in Hy. by apply list_elem_of_filter in Hy as [_ Hy].
    - apply (linked_by_last typenext (first_of_type ty l) (filter (of_type ty) l));
        [by apply typelinks_chain|done]. }
  apply map_eq. intros p. unfold remove_heap, add_heap. simpl.
  destruct (decide (p = device)) as [->|Hp].
  { by rewrite lookup_delete_eq. }
  rewrite lookup_delete_ne by done. rewrite !lookup_alter_at.
  rewrite lookup_insert_ne by done. rewrite Hn, Htn.
  destruct (decide (r = Some p)) as [Er|Er], (decide (q = Some p)) as [Eq|Eq].
  - destruct (Hr p Er) as (d & Hd & Hdn). destruct (Hq p Eq) as (d' & Hd' & Hdt).
    rewrite Hd in Hd' |- *. injection Hd' as <-. simpl. f_equal.
    destruct d. simpl in *. by subst.
  - destruct (Hr p Er) as (d & Hd & Hdn). rewrite Hd. simpl. f_equal.
    destruct d. simpl in *. by subst.
  - destruct (Hq p Eq) as (d & Hd & Hdt). rewrite Hd. simpl. f_equal.
    destruct d. simpl in *. by subst.
  - done.
Qed.

(** X10.  In a well-formed registry, an add of a valid type and a tag
    that no record has together, followed by a remove of the same type
    and tag, returns and leaves the list head and every record as they
    were before the add. *)
Theorem add_then_remove_restores h listhead l ty tg :
  registry_ok h listhead l -> valid_type ty ->
  Forall (fun x => ~ has_key ty tg x) l ->
  exists device listhead' h',
    device_list_add listhead h ty tg = (Ret device, (listhead', h')) /\
    h' !! device <> None /\
    device_list_remove listhead' h' ty tg = (Ret tt, (listhead, h)).
Proof.
  intros Hok [Hnull Hty] Hno. pose proof Hok as [Hv Hl Ht Hnd].
  set (device := malloc_or_die (dom h)).
  set (nd := added_device ty tg).
  set (q := fst <$> last (filter (of_type ty) l)).
  set (r := fst <$> last l).
  assert (Hfresh : h !! device = None).
  { apply not_elem_of_dom. apply malloc_or_die_fresh. }
  pose proof (add_registry_ok h listhead l ty device nd
                Hok Hfresh eq_refl eq_refl eq_refl) as Hok1.
  fold q r in Hok1. unfold add_view in Hok1. fold q r in Hok1.
  exists device, (match l with [] => Some device | _ => listhead end),
    (add_heap q r device nd h).
  split; [by apply device_list_add_run|]. split.
  { pose proof Hok1 as [Hv1 _ _ _]. unfold heap_view in Hv1.
    apply Forall_app in Hv1 as [_ Hv1]. rewrite Forall_singleton in Hv1.
    simpl in Hv1. by rewrite Hv1. }
  rewrite (device_list_remove_run _ _ (add_patch q r device <$> l) (device, nd) []
             ty tg Hok1 Hnull Hty).
  - f_equal. f_equal.
    + destruct l as [|x l]; simpl; [|done]. simpl in Hl. by subst listhead.
    + rewrite (last_filter_patched _ ty l) by (apply add_patch_fst || apply add_patch_type).
      rewrite (last_fmap_patched _ l) by apply add_patch_fst.
      by apply (remove_heap_add_heap h listhead l ty device nd).
  - apply Forall_fmap. eapply Forall_impl; [exact Hno|].
    intros x Hx [H1 H2]. apply Hx.
    rewrite add_patch_type in H1. rewrite add_patch_tag in H2. by split.
  - by split.
Qed.

(** ** Registries built by adds and removes *)

(** A record is as [device_list_add] filled it in, links apart, and its
    type is one an add accepts. *)
Definition as_added (d : device_config) : Prop :=
  valid_type (type d) /\ unlinked d = unlinked (added_device (type d) (tag d)).

Lemma remove_key_sublist k ks : remove_key k ks `sublist_of` ks.
Proof.
  induction ks as [|k' ks IH]; simpl; [done|].
  destruct (decide (k' = k)).
  - by apply sublist_cons.
  - by apply sublist_skip.
Qed.

Lemma as_added_unlinked d d' : unlinked d' = unlinked d -> as_added d -> as_added d'.
Proof.
  intros E [Hv Hd]. unfold as_added.
  pose proof (f_equal type E) as E1. pose proof (f_equal tag E) as E2.
  simpl in E1, E2. rewrite E1, E2, E. done.
Qed.

Lemma Forall_as_added_unlinked (l l' : view) :
  (fun x => unlinked x.2) <$> l' `sublist_of` (fun x => unlinked x.2) <$> l ->
  Forall (fun x => as_added x.2) l -> Forall (fun x => as_added x.2) l'.
Proof.
  intros Hsub Hall. rewrite Forall_forall in Hall |- *. intros x' Hx'.
  assert (Hin : unlinked x'.2 ∈ (fun x => unlinked x.2) <$> l).
  { eapply elem_of_sublist; [|exact Hsub]. apply list_elem_of_fmap. by exists x'. }
  apply list_elem_of_fmap in Hin as (x & E & Hx).
  by apply (as_added_unlinked x.2), Hall.
Qed.

(** The invariant of the registry under the two operations: the records
    chain up, no two have the same type and tag, and each is as its add
    filled it in. *)
Lemma run_ops_as_added ops : forall listhead h l listhead' h',
  Forall (fun o => valid_type (op_type o)) ops ->
  registry_ok h listhead l ->
  NoDup (key_of <$> l) -> Forall (fun x => as_added x.2) l ->
  run_ops ops listhead h = (Ret tt, (listhead', h')) ->
  exists l', registry_ok h' listhead' l' /\
    key_of <$> l' = insertion_order ops (key_of <$> l) /\
    NoDup (key_of <$> l') /\ Forall (fun x => as_added x.2) l'.
Proof.
  induction ops as [|o ops IH]; intros listhead h l listhead' h' Hvalid Hok Hkeys Hall Hrun.
  - simpl in Hrun. injection Hrun as <- <-. by exists l.
  - apply Forall_cons in Hvalid as [[Hnull Hwild] Hvalid].
    destruct o as [ty tg|ty tg]; simpl in Hnull, Hwild, Hrun |- *.
    + destruct (split_first_key ty tg l) as [Hno|(pre & x & post & -> & Hpre & Hx)].
      * destruct (device_list_add_ok h listhead l ty tg Hok Hnull Hwild Hno)
          as (lh1 & h1 & Hadd & Hok1).
        rewrite Hadd in Hrun.
        assert (Hk1 : NoDup (key_of <$> add_view ty (malloc_or_die (dom h))
                                          (added_device ty tg) l)).
        { rewrite add_view_keys. apply NoDup_app. split; [done|]. split.
          - intros k Hk Hk'. apply list_elem_of_singleton in Hk'. subst k.
            apply list_elem_of_fmap in Hk as (x & E & Hx).
            rewrite Forall_forall in Hno. apply (Hno x Hx).
            by apply has_key_key_of.
          - apply NoDup_singleton. }
        assert (Ha1 : Forall (fun x => as_added x.2)
                        (add_view ty (malloc_or_die (dom h)) (added_device ty tg) l)).
        { unfold add_view. apply Forall_app. split.
          - apply Forall_fmap. eapply Forall_impl; [exact Hall|].
            intros x Hx. simpl. apply (as_added_unlinked x.2); [|done].
            apply add_patch_unlinked.
          - apply Forall_singleton. by split. }
        destruct (IH _ _ _ _ _ Hvalid Hok1 Hk1 Ha1 Hrun)
          as (l' & Hok' & Hk' & Hnd' & Hall').
        exists l'. split; [done|]. split; [|done]. by rewrite Hk', add_view_keys.
      * rewrite (device_list_add_duplicate h listhead _ ty tg Hok Hnull) in Hrun;
          [done|]. apply Exists_app. right. by apply Exists_cons_hd.
    + destruct (split_first_key ty tg l) as [Hno|(pre & x & post & -> & Hpre & Hx)].
      * by rewrite (device_list_remove_absent h listhead l ty tg Hok Hnull Hno) in Hrun.
      * destruct (device_list_remove_ok h listhead pre x post ty tg Hok Hnull Hwild Hpre Hx)
          as (lh1 & h1 & Hrem & Hok1).
        rewrite Hrem in Hrun.
        assert (Hk1 : NoDup (key_of <$> remove_view ty pre x post)).
        { rewrite (remove_view_keys ty tg) by done.
          eapply sublist_NoDup; [exact Hkeys|apply remove_key_sublist]. }
        assert (Ha1 : Forall (fun y => as_added y.2) (remove_view ty pre x post)).
        { apply (Forall_as_added_unlinked (pre ++ x :: post)); [|done].
          rewrite remove_view_unlinked, fmap_app, fmap_cons.
          apply sublist_app; [done|]. by apply sublist_cons. }
        destruct (IH _ _ _ _ _ Hvalid Hok1 Hk1 Ha1 Hrun)
          as (l' & Hok' & Hk' & Hnd' & Hall').
        exists l'. split; [done|]. split; [|done].
        by rewrite Hk', (remove_view_keys ty tg).
Qed.

Lemma run_ops_built ops listhead h :
  Forall (fun o => valid_type (op_type o)) ops ->
  run_ops ops None ∅ = (Ret tt, (listhead, h)) ->
  exists l, registry_ok h listhead l /\
    key_of <$> l = insertion_order ops [] /\
    NoDup (key_of <$> l) /\ Forall (fun x => as_added x.2) l.
Proof.
  intros Hvalid Hrun.
  apply (run_ops_as_added ops None ∅ [] listhead h Hvalid registry_ok_empty);
    [apply NoDup_nil_2|done|done].
Qed.




(** ** A token length of zero *)




(** ** From the configuration to the running devices *)

(** X14.  A registry built from the empty one by adds and removes with
    valid types that all returned, whose types all report a token length
    that is not zero and a start function, passes every assert of the
    lifecycle: [device_list_attach_machine] returns, and
    [device_list_start] on the attached machine ends, after at most as
    many sweeps as there are devices, either by returning with every
    device started or in the fatal circular-dependency error. *)
Theorem built_machine_starts ops s :
  Forall (fun o => valid_type (op_type o)) ops ->
  run_ops ops None ∅ = (Ret tt, (devicelist s, devices s)) ->
  Z.of_nat (length (insertion_order ops [])) <= INT_MAX ->
  (forall k, k ∈ insertion_order ops [] ->
     to_UINT32 (DEVINFO_INT_TOKEN_BYTES (device_get_info k.1)) <> 0 /\
     is_Some (DEVINFO_FCT_START (device_get_info k.1))) ->
  exists locs s1 r s2 sweeps,
    traverse (devices s) (devicelist s) DEVICE_TYPE_WILDCARD = Ret locs /\
    length locs = length (insertion_order ops []) /\
    device_list_attach_machine s = (Ret tt, s1) /\
    device_list_start_counted s1 = (r, s2, sweeps) /\
    (sweeps <= length locs)%nat /\
    ((r = Ret tt /\ forall p, p ∈ locs -> is_started (devices s2) p = true) \/
     (r = Fatal (Circular_dependency
                   (Z.of_nat (length locs - count_started (devices s2) locs))
                   (Z.of_nat (length locs))) /\
      (count_started (devices s2) locs < length locs)%nat)).
Proof.
  intros Hvalid Hrun Hlen Htypes.
  destruct (run_ops_built ops _ _ Hvalid Hrun) as (l & Hok & Hk & Hnd & Hall).
  pose proof Hok as [Hv Hl Ht Hndl].
  pose proof (registry_machine_ok s l Hok) as Hmok.
  assert (Hlocs : length l.*1 = length (insertion_order ops [])).
  { by rewrite <- Hk, !length_fmap. }
  destruct (device_list_attach_machine_spec s l.*1 Hmok)
    as (s1 & Hattach & Hs1 & Hmok1 & _ & Hdev & _).
  assert (Hrec : forall p, p ∈ l.*1 ->
    exists d, devices s1 !! p = Some (set_machine d (Some (machine_addr s1))) /\
      as_added d /\ (type d, tag d) ∈ insertion_order ops []).
  { intros p Hp. destruct (Hdev p Hp) as (d & Hd & Hd1).
    apply list_elem_of_fmap in Hp as ([p' d'] & -> & Hin).
    pose proof (heap_view_elem _ _ _ _ Hv Hin) as Hd'. simpl in Hd.
    rewrite Hd in Hd'. injection Hd' as ->.
    exists d'. split; [rewrite Hd1; by rewrite Hs1|].
    rewrite Forall_forall in Hall. split; [apply (Hall _ Hin)|].
    rewrite <- Hk. apply list_elem_of_fmap. by exists (p', d'). }
  destruct (device_list_start_total s1 l.*1 Hmok1) as (r & s2 & sweeps & Hstart).
  - by rewrite Hlocs.
  - intros p Hp. destruct (Hrec p Hp) as (d & Hd1 & [[Hnull _] Hd] & Hkey).
    eexists. split; [exact Hd1|].
    pose proof (f_equal started Hd) as E1. pose proof (f_equal token Hd) as E2.
    simpl in E1, E2. split; [done|]. split; [done|]. split; [done|].
    split; [done|]. apply (Htypes _ Hkey).
  - intros p Hp. destruct (Hrec p Hp) as (d & Hd1 & [[Hnull _] Hd] & Hkey).
    destruct (Htypes _ Hkey) as [_ [f Hf]].
    eexists _, f. split; [exact Hd1|]. by split.
  - destruct Hstart as (Hcount & _ & Hsw & _ & _ & Hres).
    exists l.*1, s1, r, s2, sweeps.
    split; [by apply traverse_wildcard|]. split; [done|]. split; [done|].
    split; [done|]. split; [done|].
    destruct Hres as [Hres|(Hr & Hc & _)]; [by left|by right].
Qed.

(** ** The tokens over a start and a stop *)





(** ** Reset *)

(** Whether the type of the device at an address has a reset
    function. *)
Definition has_reset (h : heap) (p : loc) : bool :=
  match h !! p with
  | Some d => if DEVINFO_FCT_RESET (device_get_info (type d)) is Some _ then true else false
  | None => false
  end.

Lemma device_reset_ok h p d :
  h !! p = Some d -> type d <> NULL_TYPE -> token d <> None ->
  device_reset h (Some p) = Ret (if has_reset h p then [p] else []).
Proof.
  intros Hd Hty Htok. unfold device_reset, has_reset.
  rewrite assert_true by (by apply bool_decide_eq_true_2). cbn [bind].
  unfold deref. rewrite Hd. cbn [bind].
  rewrite assert_true by (by apply bool_decide_eq_true_2). cbn [bind].
  rewrite assert_true by (by apply bool_decide_eq_true_2). cbn [bind].
  unfold device_get_info_fct.
  rewrite assert_true by (by apply bool_decide_eq_true_2). cbn [bind].
  rewrite call_type_ok by done. cbn [bind].
  by destruct (DEVINFO_FCT_RESET (device_get_info (type d))).
Qed.

Lemma reset_loop_spec locs : forall fuel h cur,
  chain h cur locs -> (length locs < fuel)%nat ->
  (forall p, p ∈ locs ->
     exists d, h !! p = Some d /\ type d <> NULL_TYPE /\ token d <> None) ->
  reset_loop fuel h cur = Ret (filter (fun p => has_reset h p = true) locs).
Proof.
  induction locs as [|p locs IH]; intros fuel h cur Hc Hf Hall; simpl in Hc.
  - subst cur. by destruct fuel.
  - destruct Hc as (-> & d & Hd & Hc).
    destruct fuel as [|fuel]; [simpl in Hf; lia|].
    destruct (Hall p) as (d' & Hd' & Hty & Htok); [by left|].
    rewrite Hd in Hd'. injection Hd' as <-.
    cbn [reset_loop]. rewrite (device_reset_ok h p d) by done. cbn [bind].
    unfold deref. rewrite Hd. cbn [bind].
    rewrite (IH fuel h (next d)); [|done|simpl in Hf; lia|].
    + cbn [bind]. rewrite filter_cons.
      destruct (has_reset h p) eqn:E.
      * by rewrite decide_True.
      * by rewrite decide_False.
    + intros q Hq. apply Hall. by right.
Qed.

(** X16.  On the machine a [device_list_start] that returned leaves,
    [device_list_reset] returns and has called the reset functions of
    the devices whose types have one, each once, in list order.  On the
    machine a following [device_list_stop] leaves, a debug build stops
    [device_list_reset] at the assert on the token of the first
    device. *)
Theorem reset_after_start_and_after_stop s locs s1 :
  machine_ok s locs -> device_list_start s = (Ret tt, s1) ->
  device_list_reset s1 =
    Ret (filter (fun p => has_reset (devices s1) p = true) locs) /\
  forall s2,
    device_list_stop s1 = (Ret tt, s2) -> locs <> [] -> MAME_DEBUG = true ->
    device_list_reset s2 = Fatal Assertion_failed.
Proof.
  intros Hok Hstart.
  destruct (start_Ret_tokens s locs s1 Hok Hstart) as ([Hc1 Hnd] & Hhold & _).
  split.
  - unfold device_list_reset.
    apply reset_loop_spec; [done|by apply (chain_length _ (devicelist s1))|].
    intros p Hp. destruct (Hhold p Hp) as (d & tok & Hd & Hty & Htok & _).
    exists d. split; [done|]. split; [done|]. by rewrite Htok.
  - intros s2 Hstop Hne Hdbg.
    rewrite (device_list_stop_locs s1 locs (conj Hc1 Hnd)) in Hstop.
    destruct (stop_locs_Ret locs s1 tt s2 Hnd Hstop) as (_ & D & _ & _ & L).
    destruct locs as [|p locs]; [done|].
    destruct (D p) as (d & Hd & Hd2 & _); [by left|].
    simpl in Hc1. destruct Hc1 as (Hhead & _).
    unfold device_list_reset, fuel_of. rewrite L, Hhead.
    cbn [reset_loop]. unfold device_reset.
    rewrite assert_true by (by apply bool_decide_eq_true_2). cbn [bind].
    unfold deref. rewrite Hd2. cbn [bind].
    unfold assert at 1. rewrite Hdbg. simpl. done.
Qed.

(** ** The two tag helpers together *)

(** X17.  For a child tag without a colon, [device_inherit_tag] applied
    to the tag [device_build_tag] built for a device (or for no device)
    and the child tag gives, for any new tag, the tag
    [device_build_tag] builds for the same device and the new tag. *)
Theorem inherit_of_built_tag dest1 dest2 dest3 device child tg :
  ~ has_char ":" child ->
  device_inherit_tag dest2 (device_build_tag dest1 device child) tg =
  device_build_tag dest3 device tg.
Proof.
  intros Hno. pose proof Hno as Hnone. apply strrchr_None in Hnone.
  destruct device as [d|].
  - unfold device_build_tag, astring_catc, astring_cpyc.
    rewrite string_append_assoc.
    change (String.append ":" child) with (String ":"%char child).
    unfold device_inherit_tag.
    rewrite (strrchr_last (tag d) ":" child Hnone).
    unfold astring_cpych, astring_catc. rewrite substring_prefix.
    done.
  - unfold device_build_tag, astring_cpyc, device_inherit_tag.
    by rewrite Hnone.
Qed.

End Further.

(** * Concrete instances

    The theorems above at the example machines, with every hypothesis
    discharged by evaluation. *)

Section Instances.

#[local] Existing Instance example_platform.

(** Goals about the example machines are closed by evaluation. *)
Ltac by_eval := vm_compute; first [reflexivity | exact I | discriminate | lia | done].

Ltac by_decision := apply (bool_decide_unpack _); vm_compute; exact I.

(** A chain over a concrete list of addresses. *)
Ltac chain_eval :=
  repeat (cbn [chain]; first
    [ reflexivity
    | split; [reflexivity|]
    | eexists; split; [vm_compute; reflexivity|] ]).

Ltac machine_ok_eval := split; [chain_eval | by_decision].

(** The cases of membership in a concrete list. *)
Ltac each_member Hp :=
  repeat (apply elem_of_cons in Hp as [->|Hp]); [..|by apply elem_of_nil in Hp].

Ltac start_ready_eval :=
  eexists; split; [vm_compute; reflexivity|];
  repeat split; by_eval.

Lemma machine_deferring_ok : machine_ok machine_deferring [0; 1]%nat.
Proof. machine_ok_eval. Defined.

Lemma machine_forward_ok : machine_ok machine_forward [0; 1]%nat.
Proof. machine_ok_eval. Defined.

Lemma machine_backward_ok : machine_ok machine_backward [0; 1]%nat.
Proof. machine_ok_eval. Defined.

Lemma machine_zero_token_ok : machine_ok machine_zero_token [0]%nat.
Proof. machine_ok_eval. Defined.

Lemma machine_one_ok : machine_ok machine_one [0]%nat.
Proof. machine_ok_eval. Defined.

Lemma machine_deferring_ready p :
  p ∈ [0; 1]%nat -> start_ready machine_deferring p.
Proof. intros Hp. each_member Hp; start_ready_eval. Defined.

Lemma machine_forward_ready p :
  p ∈ [0; 1]%nat -> start_ready machine_forward p.
Proof. intros Hp. each_member Hp; start_ready_eval. Defined.

Lemma machine_backward_ready p :
  p ∈ [0; 1]%nat -> start_ready machine_backward p.
Proof. intros Hp. each_member Hp; start_ready_eval. Defined.

Lemma machine_deferring_never p :
  p ∈ [0; 1]%nat ->
  exists d f, devices machine_deferring !! p = Some d /\
    DEVINFO_FCT_START (device_get_info (type d)) = Some f /\
    forall lh h q, f lh h q = DEVICE_START_MISSING_DEPENDENCIES.
Proof.
  intros Hp.
  each_member Hp; (eexists; exists never_ok; split; [vm_compute; reflexivity|]; by split).
Defined.

(** The splits of a list of two addresses. *)
Lemma split_two (a b : loc) pre p post :
  [a; b] = pre ++ p :: post ->
  (pre = [] /\ p = a /\ post = [b]) \/ (pre = [a] /\ p = b /\ post = []).
Proof.
  intros H. destruct pre as [|x [|y pre]]; simplify_eq/=.
  - by left.
  - by right.
  - by destruct pre.
Defined.

Lemma machine_forward_depends : start_depends on_previous machine_forward [0; 1]%nat.
Proof.
  intros pre p post H.
  destruct (split_two _ _ _ _ _ H) as [(-> & -> & ->)|(-> & -> & ->)].
  - eexists; exists always_ok. split; [vm_compute; reflexivity|].
    split; [by_eval|]. split; [reflexivity|]. by intros lh h.
  - eexists; exists (waits_for 0%nat). split; [vm_compute; reflexivity|].
    split; [by_eval|]. split; [reflexivity|]. intros lh h.
    unfold on_previous, waits_for. simpl. by destruct (is_started h 0%nat).
Defined.

Lemma machine_backward_depends : start_depends on_next machine_backward [0; 1]%nat.
Proof.
  intros pre p post H.
  destruct (split_two _ _ _ _ _ H) as [(-> & -> & ->)|(-> & -> & ->)].
  - eexists; exists (waits_for 1%nat). split; [vm_compute; reflexivity|].
    split; [by_eval|]. split; [reflexivity|]. intros lh h.
    unfold on_next, waits_for. simpl. by destruct (is_started h 1%nat).
  - eexists; exists always_ok. split; [vm_compute; reflexivity|].
    split; [by_eval|]. split; [reflexivity|]. by intros lh h.
Defined.

(** C1 at two devices that never start: the fatal error names 2
    devices out of 2. *)
Lemma start_never_succeeding_is_circular_witness :
  machine_ok machine_deferring [0; 1]%nat /\
  exists s',
    device_list_start machine_deferring = (Fatal (Circular_dependency 2 2), s').
Proof.
  split; [exact machine_deferring_ok|].
  destruct (start_never_succeeding_is_circular machine_deferring [0; 1]%nat
              machine_deferring_ok) as (s' & _ & H).
  - discriminate.
  - vm_compute. discriminate.
  - exact machine_deferring_ready.
  - exact machine_deferring_never.
  - by exists s'.
Defined.

(** C1, the claim as worded: one device whose start function never
    succeeds, of a type that declares a token of length 0.
    [device_list_start] ends in the fatal zero-token-length error of its
    first loop, not in the circular-dependency error. *)
Lemma start_never_succeeding_zero_token :
  machine_ok machine_zero_token [0]%nat /\
  (exists d, devices machine_zero_token !! 0%nat = Some d /\
     DEVINFO_FCT_START (device_get_info (type d)) = Some never_ok) /\
  (device_list_start machine_zero_token).1 = Fatal (Zero_token_length 0%nat) /\
  (device_list_start_counted machine_zero_token).2 = 0%nat.
Proof.
  split; [exact machine_zero_token_ok|].
  split; [eexists; split; [vm_compute; reflexivity|reflexivity]|].
  split; by_eval.
Defined.

(** C3 at two devices: one sweep when the second waits for the first,
    two sweeps when the first waits for the second. *)
Lemma chain_start_sweeps_witness :
  (start_depends on_previous machine_forward [0; 1]%nat /\
   exists s', device_list_start_counted machine_forward = (Ret tt, s', 1%nat)) /\
  (start_depends on_next machine_backward [0; 1]%nat /\
   exists s', device_list_start_counted machine_backward = (Ret tt, s', 2%nat)).
Proof.
  split.
  - split; [exact machine_forward_depends|].
    destruct (chain_start_sweeps machine_forward [0; 1]%nat machine_forward_ok)
      as [H _].
    + discriminate.
    + vm_compute. discriminate.
    + exact machine_forward_ready.
    + destruct (H machine_forward_depends) as (s' & Hs' & _). by exists s'.
  - split; [exact machine_backward_depends|].
    destruct (chain_start_sweeps machine_backward [0; 1]%nat machine_backward_ok)
      as [_ H].
    + discriminate.
    + vm_compute. discriminate.
    + exact machine_backward_ready.
    + destruct (H machine_backward_depends) as (s' & Hs' & _). by exists s'.
Defined.

(** C3, the claim as worded: a chain of N = 2 devices in which the
    second waits for the first.  The while loop makes one sweep, not
    two, and both devices are started. *)
Lemma chain_in_list_order_one_sweep :
  machine_ok machine_forward [0; 1]%nat /\
  start_depends on_previous machine_forward [0; 1]%nat /\
  (device_list_start_counted machine_forward).2 = 1%nat /\
  (device_list_start_counted machine_forward).2 <> length [0; 1]%nat /\
  (device_list_start machine_forward).1 = Ret tt /\
  is_started (devices (device_list_start machine_forward).2) 0%nat = true /\
  is_started (devices (device_list_start machine_forward).2) 1%nat = true.
Proof.
  split; [exact machine_forward_ok|].
  split; [exact machine_forward_depends|].
  repeat split; by_eval.
Defined.

(** A registry over a concrete view. *)
Ltac registry_ok_eval :=
  split;
  [ vm_compute; repeat constructor
  | vm_compute; repeat split
  | vm_compute; repeat split
  | by_decision ].

Lemma machine_one_registry :
  registry_ok (devices machine_one) (devicelist machine_one)
    (view_of (devices machine_one) [0]%nat).
Proof. registry_ok_eval. Defined.

Lemma registry_aab_ok :
  registry_ok registry_aab.2 registry_aab.1 (view_of registry_aab.2 [0; 1; 2]%nat).
Proof. registry_ok_eval. Defined.

(** C2 at a machine with one device: after the first loop of
    [device_list_start] the device has a token of 8 bytes and the
    machine reference. *)
Lemma runtime_fields_over_lifecycle_witness :
  registry_ok (devices machine_one) (devicelist machine_one)
    (view_of (devices machine_one) [0]%nat) /\
  exists d1 tok,
    devices (device_list_start_alloc machine_one).2 !! 0%nat = Some d1 /\
    token d1 = Some tok /\ tokenbytes d1 = Val 8 /\
    machine d1 = Some (machine_addr machine_one).
Proof.
  split; [exact machine_one_registry|].
  destruct (runtime_fields_over_lifecycle machine_one _ machine_one_registry)
    as (_ & H & _).
  destruct (H 1 (device_list_start_alloc machine_one).2) with (p := 0%nat)
    as (d & d1 & tok & tb & Hd & Hd1 & _ & Htok & Htb & _ & Hm).
  - by_eval.
  - by_decision.
  - exists d1, tok. split; [done|]. split; [done|]. split; [|done].
    vm_compute in Hd1. by simplify_eq.
Defined.

(** C2, the claim as worded: in the pre-start phase of
    [device_list_start], when its first loop has run and no start
    function has been called, the one device of the machine is not
    started and yet has a token, a token length and a machine reference
    that are not null or zero. *)
Lemma runtime_fields_set_before_start :
  (device_list_start_alloc machine_one).1 = Ret 1 /\
  events (device_list_start_alloc machine_one).2 = [] /\
  exists d1,
    devices (device_list_start_alloc machine_one).2 !! 0%nat = Some d1 /\
    started d1 = false /\ token d1 = Some 0%nat /\ tokenbytes d1 = Val 8 /\
    machine d1 = Some 100%nat.
Proof.
  split; [by_eval|]. split; [by_eval|].
  eexists. split; [vm_compute; reflexivity|]. by repeat split.
Defined.

(** C4 at the registry of a, b (type 1) and c (type 2): adding d of
    type 2 and finding it by tag returns the record of the add; b is at
    index 1 among the devices of type 1, and index 1 finds it. *)
Lemma add_find_index_agree_witness :
  (exists device listhead' h',
     device_list_add registry_aab.1 registry_aab.2 2%nat "d" =
       (Ret device, (listhead', h')) /\
     device_list_find_by_tag h' listhead' 2%nat "d" = Ret (Some device)) /\
  device_list_index registry_aab.2 registry_aab.1 1%nat "b" = Ret 1 /\
  device_list_find_by_index registry_aab.2 registry_aab.1 1%nat 1 = Ret (Some 1%nat) /\
  device_list_find_by_index registry_aab.2 registry_aab.1 1%nat 2 = Ret None.
Proof.
  destruct (add_find_index_agree registry_aab.2 registry_aab.1 _ registry_aab_ok)
    as (Ha & Hb & Hc).
  - vm_compute. discriminate.
  - split; [|split; [|split]].
    + apply Ha.
      * split; discriminate.
      * vm_compute. repeat constructor; intros [? ?]; discriminate.
    + destruct (Hb 1%nat "b"%string
                  (view_of registry_aab.2 [0]%nat)
                  (1%nat, default (new_device 0%nat ""%string 0 0 0%nat)
                            (registry_aab.2 !! 1%nat))
                  (view_of registry_aab.2 [2]%nat)) as (Hi & _ & _).
      * discriminate.
      * by_eval.
      * by_eval.
      * by_eval.
      * vm_compute. repeat constructor. discriminate.
      * exact Hi.
    + destruct (Hb 1%nat "b"%string
                  (view_of registry_aab.2 [0]%nat)
                  (1%nat, default (new_device 0%nat ""%string 0 0 0%nat)
                            (registry_aab.2 !! 1%nat))
                  (view_of registry_aab.2 [2]%nat)) as (_ & _ & Hf).
      * discriminate.
      * by_eval.
      * by_eval.
      * by_eval.
      * vm_compute. repeat constructor. discriminate.
      * exact Hf.
    + destruct (Hc 1%nat 2) as (items & Hitems & Hnone); [discriminate|].
      apply Hnone. vm_compute in Hitems. simplify_eq. vm_compute. by split; discriminate.
Defined.

(** C5 at the same registry: a second add of (type 1, a) is fatal and
    hands the list head and the heap back. *)
Lemma add_duplicate_leaves_registry_witness :
  device_list_add registry_aab.1 registry_aab.2 1%nat "a" =
    (Fatal (Duplicate_device 1%nat "a"), registry_aab) /\
  traverse registry_aab.2 registry_aab.1 1%nat = Ret [0; 1]%nat.
Proof.
  destruct (add_duplicate_leaves_registry registry_aab.2 registry_aab.1 _
              1%nat "a"%string registry_aab_ok)
    as (lh' & h' & Hadd & -> & -> & _ & HT).
  - discriminate.
  - apply Exists_cons_hd. by split.
  - split; [exact Hadd|]. rewrite HT by discriminate. reflexivity.
Defined.

(** C6 at the example run of operations: the wildcard
    traversal visits b then c, the traversal by type 1 visits b. *)
Lemma traversal_in_insertion_order_witness :
  exists locs locs1,
    traverse (left_by example_ops).2 (left_by example_ops).1 DEVICE_TYPE_WILDCARD =
      Ret locs /\
    key_at (left_by example_ops).2 <$> locs =
      [Some (1%nat, "b"%string); Some (2%nat, "c"%string)] /\
    traverse (left_by example_ops).2 (left_by example_ops).1 1%nat = Ret locs1 /\
    key_at (left_by example_ops).2 <$> locs1 = [Some (1%nat, "b"%string)].
Proof.
  destruct (traversal_in_insertion_order example_ops
              (left_by example_ops).1 (left_by example_ops).2)
    as (locs & Hw & _ & Hk & HT).
  - repeat constructor; discriminate.
  - by_eval.
  - destruct (HT 1%nat) as (locs1 & H1 & _ & Hk1); [discriminate|].
    exists locs, locs1. split; [exact Hw|]. split; [exact Hk|].
    split; [exact H1|exact Hk1].
Defined.

(** C7 at the machine of two devices, the second waiting for the
    first: start returns, stop returns and leaves no live token, and a
    second stop, in this debug build, stops at the assert on the
    token. *)
Lemma stop_after_start_releases_once_witness :
  exists s1 s2 s3,
    device_list_start machine_forward = (Ret tt, s1) /\
    device_list_stop s1 = (Ret tt, s2) /\
    tokens s2 = ∅ /\
    device_list_stop s2 = (Fatal Assertion_failed, s3) /\
    tokens s3 = tokens s2.
Proof.
  destruct (stop_after_start_releases_once machine_forward [0; 1]%nat
              (device_list_start machine_forward).2 machine_forward_ok)
    as (s2 & Hstop & _ & r & s3 & evs & Hagain & _ & _ & _ & Htok & _).
  - by_eval.
  - exists (device_list_start machine_forward).2, s2, s3.
    split; [by_eval|]. split; [exact Hstop|].
    vm_compute in Hstop. simplify_eq.
    split; [by_eval|]. split; [|exact Htok].
    vm_compute in Hagain. simplify_eq. by_eval.
Defined.

(** C8 at a source tag with two colons: the part after the last colon
    is replaced. *)
Lemma tag_helpers_results_witness :
  device_inherit_tag "" "a:b:c" "pan" = "a:b:pan"%string.
Proof.
  destruct tag_helpers_results as (_ & _ & H & _).
  apply (H ""%string "a:b"%string "c"%string "pan"%string).
  intros [H1|[]]. discriminate.
Defined.

(** C9 at the pool as it is when the program starts. *)
Lemma scratch_pool_round_robin_witness :
  pool_ok initial_pool /\
  exists sp',
    acquire 17 initial_pool =
      (Ret [0; 1; 2; 3; 4; 5; 6; 7; 8; 9; 10; 11; 12; 13; 14; 15; 0]%nat, sp').
Proof.
  assert (Hok : pool_ok initial_pool).
  { split; [reflexivity|]. vm_compute. repeat constructor; discriminate. }
  split; [exact Hok|].
  destruct (scratch_pool_round_robin initial_pool Hok) as (_ & rows & sp' & Hrun & -> & _).
  - by_eval.
  - vm_compute. discriminate.
  - by exists sp'.
Defined.

(** C10 at the machine without devices. *)
Lemma start_empty_list_returns_witness :
  devicelist machine_empty = None /\
  (device_list_start machine_empty).1 = Ret tt /\
  (device_list_start_counted machine_empty).2 = 0%nat.
Proof.
  split; [reflexivity|].
  destruct (start_empty_list_returns machine_empty) as [H1 H2]; [reflexivity|].
  rewrite H1, H2. by split.
Defined.

(** X1 at the registry of a, b (type 1) and c (type 2): there is no c
    of type 1 to remove. *)
Lemma remove_absent_is_fatal_witness :
  device_list_remove registry_aab.1 registry_aab.2 1%nat "c" =
    (Fatal (Nonexistent_device 1%nat "c"), registry_aab).
Proof.
  destruct (remove_absent_is_fatal registry_aab.2 registry_aab.1 _
              1%nat "c"%string registry_aab_ok) as [H _].
  - discriminate.
  - vm_compute. repeat constructor; intros [? ?]; discriminate.
  - exact H.
Defined.

(** X2 at the same registry: no device of type 1 has the tag c. *)
Lemma absent_tag_not_found_witness :
  device_list_index registry_aab.2 registry_aab.1 1%nat "c" = Ret (-1) /\
  device_list_find_by_tag registry_aab.2 registry_aab.1 1%nat "c" = Ret None.
Proof.
  apply (absent_tag_not_found registry_aab.2 registry_aab.1 _
           1%nat "c"%string registry_aab_ok).
  - discriminate.
  - vm_compute. repeat constructor; discriminate.
Defined.

Lemma registry_mixed_ok :
  registry_ok registry_mixed.2 registry_mixed.1 (view_of registry_mixed.2 [0; 1; 2]%nat).
Proof. registry_ok_eval. Defined.

(** X3 at the registry of a, b and c of the classes 1, 2 and 1: the
    iteration by class 1 visits a and c, and their count is 2. *)
Lemma class_traversal_in_list_order_witness :
  class_traverse registry_mixed.2 registry_mixed.1 1 = Ret [0; 2]%nat /\
  device_list_class_items registry_mixed.2 registry_mixed.1 1 = Ret 2.
Proof.
  destruct (class_traversal_in_list_order registry_mixed.2 registry_mixed.1 _ 1
              registry_mixed_ok) as [H1 H2].
  - vm_compute. discriminate.
  - split; [exact H1|exact H2].
Defined.

(** X4 at the same registry: c is at index 1 in class 1 and index 1
    finds it; no device of class 1 has the tag b; index 2 is out of
    range and index -1 stops at the assert. *)
Lemma class_find_index_agree_witness :
  device_list_class_index registry_mixed.2 registry_mixed.1 1 "c" = Ret 1 /\
  device_list_class_find_by_tag registry_mixed.2 registry_mixed.1 1 "c" = Ret (Some 2%nat) /\
  device_list_class_find_by_index registry_mixed.2 registry_mixed.1 1 1 = Ret (Some 2%nat) /\
  device_list_class_index registry_mixed.2 registry_mixed.1 1 "b" = Ret (-1) /\
  device_list_class_find_by_index registry_mixed.2 registry_mixed.1 1 2 = Ret None /\
  device_list_class_find_by_index registry_mixed.2 registry_mixed.1 1 (-1) =
    Fatal Assertion_failed.
Proof.
  destruct (class_find_index_agree registry_mixed.2 registry_mixed.1 _ 1
              registry_mixed_ok) as (Ha & Hb & Hc & Hd).
  - vm_compute. discriminate.
  - destruct (Ha "c"%string (view_of registry_mixed.2 [0; 1]%nat)
                (2%nat, default (new_device 0%nat ""%string 0 0 0%nat)
                          (registry_mixed.2 !! 2%nat))
                []) as (H1 & H2 & H3).
    + by_eval.
    + by_eval.
    + by_eval.
    + vm_compute. repeat constructor. discriminate.
    + destruct (Hb "b"%string) as [H4 _].
      { vm_compute. repeat constructor; discriminate. }
      split; [exact H1|]. split; [exact H2|]. split; [exact H3|].
      split; [exact H4|]. split.
      * apply Hc. vm_compute. by split; discriminate.
      * apply Hd; [lia|reflexivity].
Defined.

(** X5 at the registry of a, b (type 1) and c (type 2): two devices of
    type 1. *)
Lemma items_counts_traversal_witness :
  traverse registry_aab.2 registry_aab.1 1%nat = Ret [0; 1]%nat /\
  device_list_items registry_aab.2 registry_aab.1 1%nat = Ret 2.
Proof.
  destruct (items_counts_traversal registry_aab.2 registry_aab.1 _ 1%nat
              registry_aab_ok) as [H _].
  - vm_compute. discriminate.
  - destruct H as (locs & Ht & Hi & _); [discriminate|].
    vm_compute in Ht. injection Ht as <-. split; [reflexivity|exact Hi].
Defined.

Lemma machine_unattached_ok : machine_ok machine_unattached [0; 1; 2]%nat.
Proof. machine_ok_eval. Defined.

(** X6 at the machine with a, b and c: after the attach every device
    points to the machine at address 100. *)
Lemma attach_sets_machine_only_witness :
  exists s',
    device_list_attach_machine machine_unattached = (Ret tt, s') /\
    tokens s' = ∅ /\
    forall p, p ∈ [0; 1; 2]%nat ->
      exists d', devices s' !! p = Some d' /\ machine d' = Some 100%nat.
Proof.
  destruct (attach_sets_machine_only machine_unattached [0; 1; 2]%nat
              machine_unattached_ok)
    as (s' & Hrun & _ & _ & Htok & _ & _ & _ & _ & Hdev & _).
  exists s'. split; [exact Hrun|]. split; [exact Htok|].
  intros p Hp. destruct (Hdev p Hp) as (d & _ & Hd'). by eexists.
Defined.

Lemma machine_forward_startable p :
  p ∈ [0; 1]%nat -> startable machine_forward p.
Proof.
  intros Hp. each_member Hp;
    (eexists _, _; split; [vm_compute; reflexivity|]; split; [by_eval|reflexivity]).
Defined.

(** X7 at the machine of two devices, the second waiting for the
    first. *)
Lemma start_returns_or_reports_cycle_witness :
  exists r s' sweeps,
    device_list_start_counted machine_forward = (r, s', sweeps) /\
    (sweeps <= 2)%nat /\
    exit_callbacks s' = [Cb_device_list_stop].
Proof.
  destruct (start_returns_or_reports_cycle machine_forward [0; 1]%nat
              machine_forward_ok)
    as (r & s' & sweeps & Hrun & _ & Hsw & _ & Hexit & _).
  - vm_compute. discriminate.
  - exact machine_forward_ready.
  - exact machine_forward_startable.
  - by exists r, s', sweeps.
Defined.

(** X8 at the registry of a, b and c: a device d of type 2 goes to the
    end of the list. *)
Lemma add_appends_and_keeps_witness :
  exists device listhead' h',
    device_list_add registry_aab.1 registry_aab.2 2%nat "d" =
      (Ret device, (listhead', h')) /\
    traverse h' listhead' DEVICE_TYPE_WILDCARD = Ret [0; 1; 2; device]%nat /\
    traverse h' listhead' 2%nat = Ret [2; device]%nat.
Proof.
  destruct (add_appends_and_keeps registry_aab.2 registry_aab.1 _ 2%nat "d"%string
              registry_aab_ok)
    as (device & lh' & h' & Hadd & _ & _ & Hw & Ht & _).
  - split; discriminate.
  - vm_compute. repeat constructor; intros [? ?]; discriminate.
  - by exists device, lh', h'.
Defined.

(** X9 at the same registry: the remove of b (type 1) frees address 1
    and leaves a and c. *)
Lemma remove_unlinks_first_match_witness :
  exists listhead' h',
    device_list_remove registry_aab.1 registry_aab.2 1%nat "b" =
      (Ret tt, (listhead', h')) /\
    h' !! 1%nat = None /\
    traverse h' listhead' DEVICE_TYPE_WILDCARD = Ret [0; 2]%nat.
Proof.
  destruct (remove_unlinks_first_match registry_aab.2 registry_aab.1
              (view_of registry_aab.2 [0]%nat)
              (1%nat, default (new_device 0%nat ""%string 0 0 0%nat)
                        (registry_aab.2 !! 1%nat))
              (view_of registry_aab.2 [2]%nat) 1%nat "b"%string)
    as (lh' & h' & Hrem & Hfree & Hw & _).
  - exact registry_aab_ok.
  - split; discriminate.
  - vm_compute. repeat constructor; intros [? ?]; discriminate.
  - by split.
  - by exists lh', h'.
Defined.

(** X10 at the same registry: adding d of type 2 and removing it gives
    the registry back. *)
Lemma add_then_remove_restores_witness :
  exists device listhead' h',
    device_list_add registry_aab.1 registry_aab.2 2%nat "d" =
      (Ret device, (listhead', h')) /\
    device_list_remove listhead' h' 2%nat "d" = (Ret tt, registry_aab).
Proof.
  destruct (add_then_remove_restores registry_aab.2 registry_aab.1 _ 2%nat "d"%string
              registry_aab_ok)
    as (device & lh' & h' & Hadd & _ & Hrem).
  - split; discriminate.
  - vm_compute. repeat constructor; intros [? ?]; discriminate.
  - by exists device, lh', h'.
Defined.

Lemma example_ops_valid : Forall (fun o => valid_type (op_type o)) example_ops.
Proof. repeat constructor; discriminate. Defined.






(** X14 at the example run of operations, which leaves b of type 1 and
    c of type 2. *)
Lemma built_machine_starts_witness :
  exists s1 r s2 sweeps,
    device_list_attach_machine machine_built = (Ret tt, s1) /\
    device_list_start_counted s1 = (r, s2, sweeps) /\
    (sweeps <= 2)%nat.
Proof.
  destruct (built_machine_starts example_ops machine_built example_ops_valid)
    as (locs & s1 & r & s2 & sweeps & _ & Hlen & Hatt & Hrun & Hsw & _).
  - by_eval.
  - vm_compute. discriminate.
  - intros k Hk. vm_compute in Hk. each_member Hk; (split; [by_eval|by eexists]).
  - exists s1, r, s2, sweeps. split; [exact Hatt|]. split; [exact Hrun|].
    rewrite Hlen in Hsw. exact Hsw.
Defined.


(** X17 at a device with the tag sound. *)
Lemma inherit_of_built_tag_witness :
  device_inherit_tag ""
    (device_build_tag "" (Some (new_device 1%nat "sound" 0 0 0%nat)) "fm") "dac" =
  "sound:dac"%string.
Proof.
  rewrite (inherit_of_built_tag ""%string ""%string ""%string
             (Some (new_device 1%nat "sound" 0 0 0%nat)) "fm"%string "dac"%string).
  - reflexivity.
  - intros [H|[H|[]]]; discriminate.
Defined.

End Instances.

Section InstancesReset.

#[local] Existing Instance example_platform_reset.

Lemma machine_resettable_ok : machine_ok machine_resettable [0; 1; 2]%nat.
Proof.
  split.
  - repeat (cbn [chain]; first
      [ reflexivity
      | split; [reflexivity|]
      | eexists; split; [vm_compute; reflexivity|] ]).
  - apply (bool_decide_unpack _). vm_compute. exact I.
Defined.

(** X16 at three devices of the types 2, 1 and 4 in a build where the
    types with an even number have a reset function: after the start,
    the reset calls the reset functions of the first and the third
    device. *)
Lemma reset_after_start_and_after_stop_witness :
  device_list_reset (device_list_start machine_resettable).2 = Ret [0; 2]%nat.
Proof.
  destruct (reset_after_start_and_after_stop machine_resettable [0; 1; 2]%nat
              (device_list_start machine_resettable).2 machine_resettable_ok)
    as [H _].
  - vm_compute. reflexivity.
  - rewrite H. vm_compute. reflexivity.
Defined.

End InstancesReset.
